(** * MR status monitor: the polling engine and the notification gate

    A shallow embedding of the core of the merge-request status monitor
    ([src/gitlab_api.py], [src/mr_model.py], [src/mr_notifier.py]) and the
    properties of its specification that can be settled on it, with the part
    of the controller ([src/mr_status_controller.py]) that feeds the model
    and the gate.

    Layout: the Python values and operations the code relies on, then the
    modules of the program, then the lemmas and theorems. *)

From Stdlib Require Import ZArith List Lia Bool Ascii String Sorted Permutation.
From stdpp Require Import base option strings pretty gmap.
Import ListNotations.

Set Warnings "-register-all".

Local Open Scope string_scope.
Local Open Scope list_scope.
Local Open Scope Z_scope.

(* ===================================================================== *)
(** ** Python values and the operations used on them *)
(* ===================================================================== *)

Module Py.

(** A decoded JSON body, which is also the shape of every dictionary the
    program passes around.  [JNull] is Python's [None].  An object lists its
    items in order, with pairwise distinct keys (as [json.loads] builds them);
    numbers are the integers (no claim depends on a float). *)
Inductive json :=
| JNull
| JBool (b : bool)
| JNum (n : Z)
| JStr (s : string)
| JArr (l : list json)
| JObj (kv : list (string * json)).

(** The exceptions that can be raised by the modelled code. *)
Inductive exn :=
| KeyError
| TypeError
| AttributeError
| IndexError
| ValueError
| OSError
| RequestException.

(** Outcome of a fallible computation: a value, or a raised exception. *)
Inductive result (A : Type) :=
| Ok (a : A)
| Raise (e : exn).
Arguments Ok {A} a.
Arguments Raise {A} e.

#[export] Instance result_ret : MRet result := fun A a => Ok a.
#[export] Instance result_bind : MBind result := fun A B f m =>
  match m with
  | Ok a => f a
  | Raise e => Raise e
  end.

Definition is_ok {A} (r : result A) : bool :=
  match r with Ok _ => true | Raise _ => false end.

(** [bool(x)]. *)
Definition truthy (j : json) : bool :=
  match j with
  | JNull => false
  | JBool b => b
  | JNum n => negb (n =? 0)
  | JStr s => negb (String.eqb s "")
  | JArr l => match l with [] => false | _ => true end
  | JObj kv => match kv with [] => false | _ => true end
  end.

Definition is_none (j : json) : bool :=
  match j with JNull => true | _ => false end.

(** Lookup of a key among the items of a dictionary. *)
Fixpoint assoc {V} (k : string) (kv : list (string * V)) : option V :=
  match kv with
  | [] => None
  | (k', v) :: kv' => if String.eqb k k' then Some v else assoc k kv'
  end.

(** [d[k] = v] on a dictionary: overwrite in place, or append. *)
Fixpoint dict_set {V} (k : string) (v : V) (kv : list (string * V))
  : list (string * V) :=
  match kv with
  | [] => [(k, v)]
  | (k', v') :: kv' =>
      if String.eqb k k' then (k', v) :: kv' else (k', v') :: dict_set k v kv'
  end.

(** [x.get(k, default)]: only dictionaries have [get]. *)
Definition get (j : json) (k : string) (default : json) : result json :=
  match j with
  | JObj kv => Ok (from_option id default (assoc k kv))
  | _ => Raise AttributeError
  end.

(** [x[k]] with a string key. *)
Definition getitem (j : json) (k : string) : result json :=
  match j with
  | JObj kv => match assoc k kv with Some v => Ok v | None => Raise KeyError end
  | _ => Raise TypeError
  end.

(** [x[0]]. *)
Definition getitem0 (j : json) : result json :=
  match j with
  | JArr (x :: _) => Ok x
  | JArr [] => Raise IndexError
  | JStr (String c _) => Ok (JStr (String c ""))
  | JStr "" => Raise IndexError
  | JObj _ => Raise KeyError
  | _ => Raise TypeError
  end.

(** [len(x)]. *)
Definition len (j : json) : result Z :=
  match j with
  | JArr l => Ok (Z.of_nat (List.length l))
  | JObj kv => Ok (Z.of_nat (List.length kv))
  | JStr s => Ok (Z.of_nat (String.length s))
  | _ => Raise TypeError
  end.

(** [x == s] for a string literal [s]. *)
Definition eq_str (j : json) (s : string) : bool :=
  match j with
  | JStr s' => String.eqb s' s
  | _ => false
  end.

Fixpoint is_substring (k s : string) : bool :=
  String.prefix k s ||
  match s with
  | "" => false
  | String _ s' => is_substring k s'
  end.

(** [k in x] for a string literal [k]. *)
Definition contains (k : string) (j : json) : result bool :=
  match j with
  | JObj kv => Ok (bool_decide (is_Some (assoc k kv)))
  | JArr l => Ok (existsb (fun x => eq_str x k) l)
  | JStr s => Ok (is_substring k s)
  | _ => Raise TypeError
  end.

(** Whitespace, as [str.strip()] and [int()] see it in ASCII text. *)
Definition is_space (c : ascii) : bool :=
  let n := nat_of_ascii c in
  ((9 <=? n) && (n <=? 13) || (28 <=? n) && (n <=? 32))%nat.

Fixpoint lstrip (l : list ascii) : list ascii :=
  match l with
  | c :: l' => if is_space c then lstrip l' else l
  | [] => []
  end.

Definition strip (l : list ascii) : list ascii :=
  List.rev (lstrip (List.rev (lstrip l))).

(** [s.strip()]. *)
Definition str_strip (s : string) : string :=
  string_of_list_ascii (strip (list_ascii_of_string s)).

End Py.
Import Py.

(* ===================================================================== *)
(** ** [src/gitlab_api.py] *)
(* ===================================================================== *)

Module gitlab_api.

(** What one [requests.get(url, ..., timeout=30)] can do at the call site of
    [make_gitlab_request]: raise [requests.exceptions.Timeout], raise any
    other exception, or hand back a response with a status code and a body.
    The body is [None] when [response.json()] raises on it. *)
Inductive outcome :=
| Timeout
| TransportError
| Response (status_code : Z) (body : option json).

(** The outcomes of the successive attempts of one call, by attempt number. *)
Definition transport := nat -> outcome.

(** What the retry client does that the outside can observe. *)
Inductive event :=
| Request (o : outcome)
| Sleep (seconds : Z).

Definition trace := list event.

(** [time.sleep(d)]: raises [ValueError] on a negative length.  (The upper
    bound of the platform timer is not modelled.) *)
Definition sleep (d : Z) : trace * result unit :=
  if d <? 0 then ([], Raise ValueError) else ([Sleep d], Ok tt).

(** How one iteration of the retry loop ends. *)
Inductive control :=
| Continue
| Return (j : json)
| Propagate (e : exn).

(** Lines 33-36, the [except Exception] handler: one flat sleep unless this
    was the last attempt.  An exception raised inside the handler leaves the
    function. *)
Definition on_exception (max_retries base_delay attempt : Z)
  : trace * control :=
  if attempt <? max_retries - 1 then
    match sleep base_delay with
    | (tr, Ok _) => (tr, Continue)
    | (tr, Raise e) => (tr, Propagate e)
    end
  else ([], Continue).

(** Lines 28-32, the [except requests.exceptions.Timeout] handler. *)
Definition on_timeout (max_retries base_delay attempt : Z)
  : trace * control :=
  let delay := base_delay * 2 ^ attempt in
  if attempt <? max_retries - 1 then
    match sleep delay with
    | (tr, Ok _) => (tr, Continue)
    | (tr, Raise e) => (tr, Propagate e)
    end
  else ([], Continue).

(** Lines 17-36: the body of the loop for one value of [attempt]. *)
Definition attempt_body (t : transport) (max_retries base_delay : Z)
  (attempt : nat) : trace * control :=
  let a := Z.of_nat attempt in
  let o := t attempt in
  match o with
  | Timeout =>
      let '(tr, c) := on_timeout max_retries base_delay a in
      (Request o :: tr, c)
  | TransportError =>
      let '(tr, c) := on_exception max_retries base_delay a in
      (Request o :: tr, c)
  | Response status_code body =>
      if status_code =? 200 then
        match body with
        | Some j => ([Request o], Return j)
        | None =>
            let '(tr, c) := on_exception max_retries base_delay a in
            (Request o :: tr, c)
        end
      else if status_code =? 429 then
        let delay := base_delay * 2 ^ a + 5 in
        match sleep delay with
        | (tr, Ok _) => (Request o :: tr, Continue)
        | (tr, Raise _) =>
            (* the sleep is inside the [try]: its error reaches line 33 *)
            let '(tr', c) := on_exception max_retries base_delay a in
            (Request o :: tr ++ tr', c)
        end
      else ([Request o], Return JNull)
  end.

(** The [for attempt in range(max_retries)] loop and the final
    [return None]. *)
Fixpoint retry_loop (t : transport) (max_retries base_delay : Z)
  (attempts : list nat) : trace * result json :=
  match attempts with
  | [] => ([], Ok JNull)
  | attempt :: rest =>
      match attempt_body t max_retries base_delay attempt with
      | (tr, Continue) =>
          let '(tr', r) := retry_loop t max_retries base_delay rest in
          (tr ++ tr', r)
      | (tr, Return j) => (tr, Ok j)
      | (tr, Propagate e) => (tr, Raise e)
      end
  end.

Definition make_gitlab_request (t : transport) (max_retries base_delay : Z)
  : trace * result json :=
  retry_loop t max_retries base_delay (seq 0 (Z.to_nat max_retries)).

(** The number of HTTP requests in a trace. *)
Definition requests_issued (tr : trace) : nat :=
  List.length (List.filter (fun e => match e with Request _ => true | Sleep _ => false end) tr).

Definition is_sleep (e : event) : Prop :=
  match e with Sleep _ => True | Request _ => False end.

(** *** The endpoints and the calls that go through the retry client *)

(** The upstream endpoints the three resolvers below ask for:
    [/projects/{id}/pipelines?sha=], [/projects/{id}/merge_requests/{iid}]
    (with or without [with_merge_status_recheck]),
    [/projects/{id}/pipelines/{pipeline_id}] and
    [/projects/{id}/merge_requests/{iid}/approvals]. *)
Inductive endpoint :=
| Pipelines (project_id : Z) (sha : string)
| MergeRequest (project_id : Z) (mr_iid : Z) (recheck : bool)
| Pipeline (project_id : Z) (pipeline_id : json)
| Approvals (project_id : Z) (mr_iid : Z).

(** The upstream seen from this process: for every endpoint, what the
    successive attempts of a call to it meet. *)
Definition network := endpoint -> transport.

(** A resolver runs over the list of the endpoints asked so far and may
    raise. *)
Definition api (A : Type) : Type := list endpoint -> list endpoint * result A.

#[export] Instance api_ret : MRet api := fun A a log => (log, Ok a).
#[export] Instance api_bind : MBind api := fun A B f m log =>
  match m log with
  | (log', Ok a) => f a log'
  | (log', Raise e) => (log', Raise e)
  end.

Definition lift {A} (r : result A) : api A := fun log => (log, r).

(** The defaults of [make_gitlab_request], which every caller keeps. *)
Definition default_max_retries : Z := 3.
Definition default_base_delay : Z := 1.

(** What a call of [make_gitlab_request] on the endpoint hands back. *)
Definition response_of (net : network) (ep : endpoint) : result json :=
  snd (make_gitlab_request (net ep) default_max_retries default_base_delay).

Definition fetch (net : network) (ep : endpoint) : api json :=
  fun log => (log ++ [ep], response_of net ep).

(** A Python dictionary with string keys, as its items in order. *)
Definition dict := list (string * json).

(** *** [get_pipeline_status] *)

(** Lines 66-75.  [inr] is the early [return] of line 73, [inl] falls through
    to the fallback with the diagnostics gathered so far. *)
Definition pipeline_by_sha (pipelines_data : json)
  : api (dict + json * json * dict) :=
  let debug_info : dict := [] in
  if is_none pipelines_data then mret (inl debug_info)
  else
    n ← lift (len pipelines_data);
    let debug_info := dict_set "pipelines_count" (JNum n) debug_info in
    if truthy pipelines_data then
      latest_pipeline ← lift (getitem0 pipelines_data);
      status ← lift (getitem latest_pipeline "status");
      let debug_info := dict_set "latest_pipeline_status" status debug_info in
      id ← lift (getitem latest_pipeline "id");
      let debug_info := dict_set "latest_pipeline_id" id debug_info in
      status ← lift (getitem latest_pipeline "status");
      web_url ← lift (getitem latest_pipeline "web_url");
      mret (inr (status, web_url, debug_info))
    else
      mret (inl (dict_set "pipelines_empty" (JBool true) debug_info)).

(** Lines 85-93: the head pipeline of the merge request, when it has one. *)
Definition head_pipeline (net : network) (project_id : Z) (mr_data : json)
  (debug_info : dict) : api (dict + json * json * dict) :=
  hp ← (lift (contains "head_pipeline" mr_data) ≫= λ present : bool,
        if present then lift (getitem mr_data "head_pipeline")
        else mret (JBool false));
  if truthy hp then
    pipeline_id ← lift (getitem hp "id");
    pipeline_data ← fetch net (Pipeline project_id pipeline_id);
    if is_none pipeline_data then mret (inl debug_info)
    else
      status ← lift (getitem pipeline_data "status");
      let debug_info := dict_set "head_pipeline_status" status debug_info in
      status ← lift (getitem pipeline_data "status");
      web_url ← lift (getitem pipeline_data "web_url");
      mret (inr (status, web_url, debug_info))
  else mret (inl debug_info).

(** Lines 77-95: the fallback through the merge request; [if mr_iid:] skips
    it for [None] and for 0. *)
Definition pipeline_by_mr (net : network) (project_id : Z)
  (mr_iid : option Z) (debug_info : dict) : api (dict + json * json * dict) :=
  match mr_iid with
  | Some iid =>
      if iid =? 0 then mret (inl debug_info)
      else
        mr_data ← fetch net (MergeRequest project_id iid false);
        if is_none mr_data then mret (inl debug_info)
        else
          sha ← lift (get mr_data "sha" JNull);
          let debug_info := dict_set "mr_head_sha" sha debug_info in
          branch ← lift (get mr_data "source_branch" JNull);
          let debug_info := dict_set "mr_source_branch" branch debug_info in
          found ← head_pipeline net project_id mr_data debug_info;
          match found with
          | inr r => mret (inr r)
          | inl debug_info =>
              mret (inl (dict_set "no_head_pipeline" (JBool true) debug_info))
          end
  | None => mret (inl debug_info)
  end.

Definition get_pipeline_status (net : network) (project_id : Z)
  (mr_sha : string) (mr_iid : option Z) : api (json * json * dict) :=
  pipelines_data ← fetch net (Pipelines project_id mr_sha);
  by_sha ← pipeline_by_sha pipelines_data;
  match by_sha with
  | inr r => mret r
  | inl debug_info =>
      by_mr ← pipeline_by_mr net project_id mr_iid debug_info;
      match by_mr with
      | inr r => mret r
      | inl debug_info =>
          mret (JNull, JNull,
                dict_set "all_requests_failed" (JBool true) debug_info)
      end
  end.

(** *** [get_approval_status] *)

(** The dictionary [get_approval_status] returns.  ['approved_by_all'] is
    whatever the upstream sent under ['approved']. *)
Record approval_status := {
  approved_by_all : json;
  approved_except_coverage : bool;
  needs_coverage_check : bool
}.

(** [for x in v]: the elements of a list, the keys of a dictionary, the
    characters of a string. *)
Fixpoint chars (s : string) : list json :=
  match s with
  | "" => []
  | String c s' => JStr (String c "") :: chars s'
  end%string.

Definition iter (j : json) : result (list json) :=
  match j with
  | JArr l => Ok l
  | JObj kv => Ok (List.map (fun p => JStr (fst p)) kv)
  | JStr s => Ok (chars s)
  | _ => Raise TypeError
  end.

Definition coverage_rule_name : string := "Coverage-Check".

(** Lines 116-121: the loop over the rules left, on the two flags
    [(needs_coverage_check, needs_other_approval)]. *)
Fixpoint classify_rules (rules : list json) (flags : bool * bool)
  : result (bool * bool) :=
  match rules with
  | [] => Ok flags
  | rule :: rules' =>
      rule_name ← get rule "name" (JStr "");
      if eq_str rule_name coverage_rule_name
      then classify_rules rules' (true, snd flags)
      else classify_rules rules' (fst flags, true)
  end.

Definition get_approval_status (net : network) (project_id mr_iid : Z)
  : api approval_status :=
  approvals_data ← fetch net (Approvals project_id mr_iid);
  if is_none approvals_data then
    mret {| approved_by_all := JBool false;
            approved_except_coverage := false;
            needs_coverage_check := false |}
  else
    approval_rules ← lift (get approvals_data "approval_rules_left" (JArr []));
    rules ← lift (iter approval_rules);
    '(needs_coverage_check, needs_other_approval) ←
        lift (classify_rules rules (false, false));
    approved_by_all ← lift (get approvals_data "approved" (JBool false));
    let approved_except_coverage :=
      negb needs_other_approval
      && (negb (truthy approved_by_all) || needs_coverage_check) in
    mret {| approved_by_all := approved_by_all;
            approved_except_coverage := approved_except_coverage;
            needs_coverage_check := needs_coverage_check |}.

(** *** [get_merge_status] *)

Definition get_merge_status (net : network) (project_id mr_iid : Z)
  : api string :=
  mr_data ← fetch net (MergeRequest project_id mr_iid true);
  if is_none mr_data then mret ""%string
  else
    merge_status ← lift (get mr_data "merge_status" JNull);
    detailed_merge_status ← lift (get mr_data "detailed_merge_status" JNull);
    has_conflicts ← lift (get mr_data "has_conflicts" (JBool false));
    if eq_str detailed_merge_status "conflict"
       || eq_str merge_status "cannot_be_merged"
       || truthy has_conflicts
    then mret "CONFLICT"%string
    else mret ""%string.

(** *** The shapes the statements about approvals speak of *)

Definition is_object (j : json) : Prop := exists kv, j = JObj kv.

(** A rule left unsatisfied is the coverage rule when its name is exactly
    the sentinel, and another rule otherwise (a rule without a name has the
    name [""]). *)
Definition is_coverage_rule (rule : json) : Prop :=
  get rule "name" (JStr "") = Ok (JStr coverage_rule_name).

Definition is_other_rule (rule : json) : Prop :=
  exists name, get rule "name" (JStr "") = Ok name /\
               name <> JStr coverage_rule_name.

(** *** What a trace of the retry client adds up to *)

(** An outcome after which the loop goes on to the next attempt: a timeout,
    another transport error, a 429, or a 200 whose body cannot be decoded. *)
Definition retryable (o : outcome) : Prop :=
  match o with
  | Timeout | TransportError => True
  | Response status_code body =>
      (status_code = 200 /\ body = None) \/ status_code = 429
  end.

(** The seconds slept along a trace. *)
Fixpoint time_slept (tr : trace) : Z :=
  match tr with
  | [] => 0
  | Sleep d :: tr' => d + time_slept tr'
  | Request _ :: tr' => time_slept tr'
  end.

(** *** [get_merge_requests] *)

(** Lines 43-52. *)
Definition get_merge_requests (t : transport) : result json :=
  result ← snd (make_gitlab_request t default_max_retries default_base_delay);
  mret (if is_none result then JArr [] else result).

(** *** [get_unresolved_threads_count] *)

(** Line 175: whether the discussion counts as unresolved. *)
Definition is_unresolved (discussion : json) : result bool :=
  notes ← get discussion "notes" JNull;
  if truthy notes then
    notes' ← get discussion "notes" (JArr [JObj []]);
    first_note ← getitem0 notes';
    resolved ← get first_note "resolved" (JBool true);
    mret (negb (truthy resolved))
  else mret false.

(** Lines 173-176. *)
Fixpoint count_unresolved (discussions : list json) (unresolved_count : Z)
  : result Z :=
  match discussions with
  | [] => Ok unresolved_count
  | discussion :: rest =>
      is_unresolved discussion ≫= λ unresolved : bool,
      count_unresolved rest
        (if unresolved then unresolved_count + 1 else unresolved_count)
  end.

(** Lines 166-178, on what the call of the retry client handed back. *)
Definition get_unresolved_threads_count (t : transport) : result Z :=
  discussions_data ←
    snd (make_gitlab_request t default_max_retries default_base_delay);
  if is_none discussions_data then Ok 0
  else
    discussions ← iter discussions_data;
    count_unresolved discussions 0.

(** A discussion as the upstream sends it: a dictionary whose notes, when it
    has any, are a list of dictionaries. *)
Definition is_discussion (j : json) : Prop :=
  exists kv,
    j = JObj kv /\
    match assoc "notes" kv with
    | None => True
    | Some (JArr notes) => Forall is_object notes
    | Some _ => False
    end.

(** The reading of line 175 on such a discussion: it has a first note, and
    that note carries a ['resolved'] that is false. *)
Definition open_thread (j : json) : bool :=
  match j with
  | JObj kv =>
      match assoc "notes" kv with
      | Some (JArr (JObj note :: _)) =>
          match assoc "resolved" note with
          | Some resolved => negb (truthy resolved)
          | None => false
          end
      | _ => false
      end
  | _ => false
  end.

(** *** [get_mr_assignees_and_approvals] *)

(** [a == b] on decoded values: [True] and [False] equal 1 and 0, lists are
    compared item by item and dictionaries key by key. *)
Fixpoint py_eq (a b : json) {struct a} : bool :=
  match a, b with
  | JNull, JNull => true
  | JBool x, JBool y => Bool.eqb x y
  | JBool x, JNum n => (if x then 1 else 0) =? n
  | JNum n, JBool y => n =? (if y then 1 else 0)
  | JNum n, JNum m => n =? m
  | JStr s, JStr t => String.eqb s t
  | JArr l, JArr l' =>
      (fix items (l l' : list json) : bool :=
         match l, l' with
         | [], [] => true
         | x :: l, y :: l' => py_eq x y && items l l'
         | _, _ => false
         end) l l'
  | JObj kv, JObj kv' =>
      (List.length kv =? List.length kv')%nat &&
      (fix items (kv : list (string * json)) : bool :=
         match kv with
         | [] => true
         | (k, v) :: kv =>
             match assoc k kv' with
             | Some v' => py_eq v v'
             | None => false
             end && items kv
         end) kv
  | _, _ => false
  end.

(** [x in l] on a list. *)
Definition py_in (x : json) (l : list json) : bool := existsb (py_eq x) l.

(** A plain [requests.get], outside the retry client: one request, and an
    exception of the transport leaves the caller. *)
Definition requests_get (net : network) (ep : endpoint)
  : api (Z * option json) :=
  fun log =>
    (log ++ [ep],
     match net ep 0%nat with
     | Timeout | TransportError => Raise RequestException
     | Response status_code body => Ok (status_code, body)
     end).

(** [response.json()]. *)
Definition response_json (body : option json) : result json :=
  match body with
  | Some j => Ok j
  | None => Raise ValueError
  end.

(** [x.get('name', x.get('username', 'Unknown'))]. *)
Definition name_of (x : json) : result json :=
  fallback ← get x "username" (JStr "Unknown");
  get x "name" fallback.

(** [k in d and d[k]]: the value under the key when it is there and true. *)
Definition value_if_set (d : json) (k : string) : result (option json) :=
  contains k d ≫= λ present : bool,
  if present then
    v ← getitem d k;
    mret (if truthy v then Some v else None)
  else mret None.

(** Lines 221-222. *)
Fixpoint add_assignees (l : list json) (assignees : list json)
  : result (list json) :=
  match l with
  | [] => Ok assignees
  | assignee :: rest =>
      n ← name_of assignee;
      add_assignees rest (assignees ++ [n])
  end.

(** Lines 226-227 and 232-233. *)
Definition add_if_new (n : json) (assignees : list json) : list json :=
  if py_in n assignees then assignees else assignees ++ [n].

(** Lines 230-233. *)
Fixpoint add_reviewer_names (l : list json) (assignees : list json)
  : result (list json) :=
  match l with
  | [] => Ok assignees
  | reviewer :: rest =>
      reviewer_name ← name_of reviewer;
      add_reviewer_names rest (add_if_new reviewer_name assignees)
  end.

(** Lines 218-233. *)
Definition assignees_of (mr_data : json) : result (list json) :=
  many ← value_if_set mr_data "assignees";
  assignees ←
    match many with
    | Some v => l ← iter v; add_assignees l []
    | None => Ok []
    end;
  one ← value_if_set mr_data "assignee";
  assignees ←
    match one with
    | Some v => assignee_name ← name_of v; mret (add_if_new assignee_name assignees)
    | None => Ok assignees
    end;
  reviewers ← value_if_set mr_data "reviewers";
  match reviewers with
  | Some v => l ← iter v; add_reviewer_names l assignees
  | None => Ok assignees
  end.

(** Lines 244-247. *)
Fixpoint add_approved (l : list json) (approved_users : list json)
  : result (list json) :=
  match l with
  | [] => Ok approved_users
  | approval :: rest =>
      user ← get approval "user" (JObj []);
      approved_user_name ← name_of user;
      add_approved rest (approved_users ++ [approved_user_name])
  end.

(** Lines 241-247. *)
Definition approved_users_of (approvals_data : json) : result (list json) :=
  approved_by ← value_if_set approvals_data "approved_by";
  match approved_by with
  | Some v => l ← iter v; add_approved l []
  | None => Ok []
  end.

(** Lines 206-253. *)
Definition get_mr_assignees_and_approvals (net : network)
  (project_id mr_iid : Z) : api (list json * list json) :=
  requests_get net (MergeRequest project_id mr_iid false)
  ≫= λ mr_response : Z * option json,
  if negb (fst mr_response =? 200) then mret ([], [])
  else
    mr_data ← lift (response_json (snd mr_response));
    assignees ← lift (assignees_of mr_data);
    requests_get net (Approvals project_id mr_iid)
    ≫= λ approvals_response : Z * option json,
    if fst approvals_response =? 200 then
      approvals_data ← lift (response_json (snd approvals_response));
      approved_users ← lift (approved_users_of approvals_data);
      mret (assignees, approved_users)
    else mret (assignees, []).

(** A person as the upstream describes one: a dictionary whose name, read as
    line 222 reads it, is that string. *)
Definition person (n : string) (j : json) : Prop :=
  name_of j = Ok (JStr n).

(** The people listed under a key of a dictionary: none when the key is not
    there or holds nothing. *)
Definition people_under (kv : list (string * json)) (k : string)
  (names : list string) : Prop :=
  match assoc k kv with
  | None => names = []
  | Some v =>
      if truthy v then exists l, v = JArr l /\ Forall2 person names l
      else names = []
  end.

(** The person under a key of a dictionary, if any. *)
Definition person_under (kv : list (string * json)) (k : string)
  (name : option string) : Prop :=
  match assoc k kv with
  | None => name = None
  | Some v =>
      if truthy v then exists n, name = Some n /\ person n v
      else name = None
  end.

(** The people whose approvals are listed under ['approved_by']. *)
Definition approvals_under (kv : list (string * json)) (names : list string)
  : Prop :=
  match assoc "approved_by" kv with
  | None => names = []
  | Some v =>
      if truthy v then
        exists l, v = JArr l /\
          Forall2 (fun n approval =>
                     exists user, get approval "user" (JObj []) = Ok user /\
                                  person n user) names l
      else names = []
  end.

End gitlab_api.

(* ===================================================================== *)
(** ** [src/mr_model.py] *)
(* ===================================================================== *)

Module mr_model.

(** One row of the model: a Python dictionary.  The keys that the model
    itself reads are ['repo'], ['mr'] and ['key'], each of which may be
    missing; the display fields (['title'], ['status_pills'], ['mr_url'],
    ['pipeline_url'], ['branch']) are carried along in [fields].  The values
    of ['repo'] and ['mr'] are strings, as the controller builds them. *)
Record item := {
  repo : option string;
  mr : option string;
  key : option string;
  fields : list (string * json)
}.

(** *** [int(s)] on a string, for ASCII input

    Surrounding whitespace is dropped, one sign is allowed, and the digits may
    be grouped by single underscores.  (The length limit of recent
    interpreters and the digits outside ASCII are not modelled.) *)

Definition is_digit (c : ascii) : bool :=
  let n := nat_of_ascii c in ((48 <=? n) && (n <=? 57))%nat.

Definition digit_value (c : ascii) : Z := Z.of_nat (nat_of_ascii c) - 48.

(** The digits after the sign; [after_digit] tells whether the character
    just read was a digit, so that an underscore is accepted only between
    two digits. *)
Fixpoint digits (acc : Z) (after_digit : bool) (l : list ascii) : option Z :=
  match l with
  | [] => if after_digit then Some acc else None
  | c :: l' =>
      if is_digit c then digits (10 * acc + digit_value c) true l'
      else if Ascii.eqb c "_" then
        (if after_digit then digits acc false l' else None)
      else None
  end.

Definition py_int (s : string) : result Z :=
  let parsed :=
    match strip (list_ascii_of_string s) with
    | "-"%char :: l => option_map Z.opp (digits 0 false l)
    | "+"%char :: l => digits 0 false l
    | l => digits 0 false l
    end in
  match parsed with
  | Some n => Ok n
  | None => Raise ValueError
  end.

(** *** The key of the sort, line 104

    [(x.get('repo', ''), int(x.get('mr', '!0')[1:] or 0))]. *)

(** [s[1:]]. *)
Definition tail (s : string) : string :=
  match s with
  | String _ s' => s'
  | EmptyString => EmptyString
  end.

Definition mr_number (x : item) : result Z :=
  let digits := tail (from_option id "!0"%string (mr x)) in
  if String.eqb digits "" then Ok 0 else py_int digits.

Definition sort_key (x : item) : result (string * Z) :=
  n ← mr_number x;
  mret (from_option id ""%string (repo x), n).

(** [a < b] on the tuples: the first components decide unless they are
    equal. *)
Definition key_lt (a b : string * Z) : bool :=
  if String.eqb (fst a) (fst b) then snd a <? snd b
  else String.ltb (fst a) (fst b).

(** [list.sort(key=...)] computes the key of every element once, in order,
    and leaves the list as it was when a key raises; the sort is stable, so
    its result is the one of the insertion sort below. *)
Fixpoint keyed (data : list item) : result (list ((string * Z) * item)) :=
  match data with
  | [] => Ok []
  | x :: data' =>
      k ← sort_key x;
      rest ← keyed data';
      mret ((k, x) :: rest)
  end.

Fixpoint insert (x : (string * Z) * item) (l : list ((string * Z) * item))
  : list ((string * Z) * item) :=
  match l with
  | [] => [x]
  | y :: l' =>
      if key_lt (fst y) (fst x) then y :: insert x l' else x :: y :: l'
  end.

Fixpoint stable_sort (l : list ((string * Z) * item))
  : list ((string * Z) * item) :=
  match l with
  | [] => []
  | x :: l' => insert x (stable_sort l')
  end.

(** A method of the model: the list [self._data] before, the list after and
    how the call ended. *)
Definition method := list item -> list item * result unit.

Definition _sort_data : method := fun data =>
  match data with
  | [] => ([], Ok tt)
  | _ =>
      match keyed data with
      | Ok ks => (List.map snd (stable_sort ks), Ok tt)
      | Raise e => (data, Raise e)
      end
  end.

(** [clear_repo]: the loop deletes in place and stops, with the list as it is
    then, at a row without ['repo']. *)
Fixpoint clear_repo (repo_name : string) (data : list item)
  : list item * result unit :=
  match data with
  | [] => ([], Ok tt)
  | x :: data' =>
      match repo x with
      | None => (data, Raise KeyError)
      | Some r =>
          if String.eqb r repo_name then clear_repo repo_name data'
          else
            let '(kept, res) := clear_repo repo_name data' in
            (x :: kept, res)
      end
  end.

Definition clear_all : method := fun _ => ([], Ok tt).

Definition rowCount (data : list item) : Z := Z.of_nat (List.length data).

(** Lines 73-76. *)
Definition add_mr (d : item) : method := fun data =>
  match repo d, mr d with
  | Some r, Some m =>
      let d := {| repo := repo d; mr := mr d;
                  key := Some (r ++ "-" ++ m)%string; fields := fields d |} in
      (data ++ [d], Ok tt)
  | _, _ => (data, Raise KeyError)
  end.

(** Lines 86-92: the rows are appended one by one; a row without ['mr']
    stops the loop. *)
Fixpoint append_items (repo_name : string) (new_items : list item)
  (data : list item) : list item * result unit :=
  match new_items with
  | [] => (data, Ok tt)
  | new_item :: new_items' =>
      match mr new_item with
      | None => (data, Raise KeyError)
      | Some m =>
          let new_item :=
            {| repo := repo new_item; mr := mr new_item;
               key := Some (repo_name ++ "-" ++ m)%string;
               fields := fields new_item |} in
          append_items repo_name new_items' (data ++ [new_item])
      end
  end.

(** Lines 81-94.  (Line 82 builds a dictionary that is never read.) *)
Definition update_repo_data (repo_name : string) (new_items : list item)
  : method := fun data =>
  match clear_repo repo_name data with
  | (data, Raise e) => (data, Raise e)
  | (data, Ok _) =>
      match append_items repo_name new_items data with
      | (data, Raise e) => (data, Raise e)
      | (data, Ok _) => _sort_data data
      end
  end.

(** A sequence of [update_repo_data] calls on the model; an exception ends
    it. *)
Fixpoint run (calls : list (string * list item)) (data : list item)
  : list item * result unit :=
  match calls with
  | [] => (data, Ok tt)
  | (repo_name, new_items) :: calls' =>
      match update_repo_data repo_name new_items data with
      | (data, Ok _) => run calls' data
      | (data, Raise e) => (data, Raise e)
      end
  end.

(** The identity of a row and the total reading of its sort key (a missing
    or empty number counts as 0). *)
Definition repo_mr (x : item) : option string * option string :=
  (repo x, mr x).

Definition key_of (x : item) : string * Z :=
  (from_option id ""%string (repo x),
   match mr_number x with Ok n => n | Raise _ => 0 end).

Definition key_le (a b : string * Z) : Prop :=
  String.ltb (fst a) (fst b) = true \/ (fst a = fst b /\ snd a <= snd b).

(** The order of two rows, and of two rows with their computed keys. *)
Definition item_le (x y : item) : Prop := key_le (key_of x) (key_of y).

Definition keyed_le (p q : (string * Z) * item) : Prop :=
  key_le (fst p) (fst q).

(** The row as line 88 leaves it. *)
Definition stamped (repo_name : string) (x : item) : item :=
  {| repo := repo x; mr := mr x;
     key := Some (repo_name ++ "-" ++ from_option id "" (mr x))%string;
     fields := fields x |}.

(** A row the model can sort and clear: it names its repository and its
    number can be read. *)
Definition sortable (x : item) : Prop :=
  is_Some (repo x) /\ is_ok (mr_number x) = true.

(** What the controller hands to [update_repo_data]: rows of the repository
    being replaced, with a label each, a readable number, and no label
    twice. *)
Definition well_formed_call (c : string * list item) : Prop :=
  Forall (fun x => repo x = Some (fst c) /\ is_Some (mr x) /\
                   is_ok (mr_number x) = true) (snd c) /\
  NoDup (mr <$> snd c).

(** The invariant of the list of the model. *)
Definition model_inv (data : list item) : Prop :=
  Forall sortable data /\
  NoDup (repo_mr <$> data) /\
  StronglySorted item_le data.

(** A row with its computed key, as [_sort_data] pairs them. *)
Definition with_key (x : item) : (string * Z) * item := (key_of x, x).

(** A row whose ['key'] is its repository and its label joined by a dash. *)
Definition keyed_row (x : item) : Prop :=
  exists r m, repo x = Some r /\ mr x = Some m /\
              key x = Some (r ++ "-" ++ m)%string.

End mr_model.

(* ===================================================================== *)
(** ** [src/mr_notifier.py] *)
(* ===================================================================== *)

Module mr_notifier.

(** *** The state the notifier works on *)

(** A file of the state directory: text that can be read back, or a file
    that exists and whose [open] or [read] raises. *)
Inductive file :=
| Text (content : string)
| Unreadable.

(** What the notifier does that the outside can observe, oldest first: a
    message handed to the chat system (and whether the post was confirmed),
    a write of a marker file (and whether it went through), a request to add
    the coverage reviewers. *)
Inductive event :=
| Posted (message : string) (confirmed : bool)
| Marked (path : string) (written : bool)
| ReviewersRequested (project_id mr_iid : Z).

Record world := {
  files : gmap string file;
  person_cache : gmap string (option string);
  history : list event
}.

(** [date.today()]. *)
Record date := { year : nat; month : nat; day : nat }.

Definition digit_char (n : nat) : ascii := ascii_of_nat (48 + n mod 10).

(** [d.isoformat()]: YYYY-MM-DD. *)
Definition isoformat (d : date) : string :=
  String (digit_char (year d / 1000)) (String (digit_char (year d / 100))
  (String (digit_char (year d / 10)) (String (digit_char (year d))
  (String "-" (String (digit_char (month d / 10)) (String (digit_char (month d))
  (String "-" (String (digit_char (day d / 10)) (String (digit_char (day d))
  EmptyString))))))))).

(** What the search of a name in the chat system's user list comes to. *)
Inductive lookup :=
| Found (user_id : string)
| NotFound
| LookupFailed.

(** What surrounds one evaluation: the day, the two tokens of the keyring,
    and how the file system and the two remote systems answer.  [can_write]
    tells whether a write of the file goes through, and [can_read] whether
    the file, once written, can be read: a marker that is only writable
    takes the date and still cannot be read.  [assignees_and_approvals]
    stands for [get_mr_assignees_and_approvals] and [add_reviewers] for
    [add_reviewers_to_mr]; the theorems hold for every answer they can
    give. *)
Record env := {
  today : date;
  slack_token : option string;
  gitlab_token : option string;
  can_write : string -> bool;
  can_read : string -> bool;
  post_message : string -> bool;
  users_list : string -> lookup;
  assignees_and_approvals : Z -> Z -> result (list string * list string);
  add_reviewers : Z -> Z -> bool
}.

(** A method of the notifier: it changes the world and returns or raises.
    The world it leaves behind when it raises is the one of that moment. *)
Definition action (A : Type) : Type := world -> world * result A.

#[export] Instance action_ret : MRet action := fun A a w => (w, Ok a).
#[export] Instance action_bind : MBind action := fun A B f m w =>
  match m w with
  | (w', Ok a) => f a w'
  | (w', Raise e) => (w', Raise e)
  end.

Definition raise {A} (e : exn) : action A := fun w => (w, Raise e).

Definition record (e : event) : action unit := fun w =>
  ({| files := files w; person_cache := person_cache w;
      history := history w ++ [e] |}, Ok tt).

(** [if token:] on a value of the keyring. *)
Definition token_present (t : option string) : bool :=
  match t with
  | Some s => negb (String.eqb s "")
  | None => false
  end.

(** *** The record handed to the gate *)

(** The merge request as the upstream describes it. *)
Record merge_request := {
  iid : option Z;
  web_url : option string
}.

(** The dictionary the controller hands to the gate; every key may be
    missing. *)
Record mr_data := {
  repo_name : option string;
  mr : option merge_request;
  project_id : option Z;
  approval_status : option json;
  pipeline_status : option json
}.

(** *** The marker files *)

Definition safe_char (c : ascii) : ascii :=
  if Ascii.eqb c "/" || Ascii.eqb c "!" then "_"%char else c.

Fixpoint replace_unsafe (s : string) : string :=
  match s with
  | EmptyString => EmptyString
  | String c s' => String (safe_char c) (replace_unsafe s')
  end.

(** The name of the marker file inside the state directory. *)
Definition _get_notification_date_file (mr_key : string) : string :=
  ("notified_" ++ replace_unsafe mr_key ++ ".date")%string.

(** Lines 79-94. *)
Definition _should_notify (e : env) (mr_key : string) (w : world) : bool :=
  let date_file := _get_notification_date_file mr_key in
  match files w !! date_file with
  | None => true
  | Some (Text content) =>
      let last_notified := str_strip content in
      negb (String.eqb last_notified (isoformat (today e)))
  | Some Unreadable => true
  end.

(** What a marker is once the date was written to it: the date, for who
    can read the file, and a file whose read raises otherwise. *)
Definition written_marker (e : env) (date_file : string) : file :=
  if can_read e date_file then Text (isoformat (today e)) else Unreadable.

(** Lines 99-118: the write and its error are both swallowed; reading the
    file back only feeds the log, and its error is swallowed too. *)
Definition _mark_notified (e : env) (mr_key : string) : action unit :=
  fun w =>
  let date_file := _get_notification_date_file mr_key in
  if can_write e date_file then
    ({| files := <[date_file := written_marker e date_file]> (files w);
        person_cache := person_cache w;
        history := history w ++ [Marked date_file true] |}, Ok tt)
  else
    ({| files := files w; person_cache := person_cache w;
        history := history w ++ [Marked date_file false] |}, Ok tt).

(** *** Names and messages *)

Definition remember (person_name : string) (v : option string)
  : action unit := fun w =>
  ({| files := files w;
      person_cache := <[person_name := v]> (person_cache w);
      history := history w |}, Ok tt).

(** Lines 123-169; every error inside is turned into [None]. *)
Definition _get_slack_user_id (e : env) (person_name : string)
  : action (option string) := fun w =>
  match person_cache w !! person_name with
  | Some cached => (w, Ok cached)
  | None =>
      if token_present (slack_token e) then
        match users_list e person_name with
        | Found user_id =>
            (fst (remember person_name (Some user_id) w), Ok (Some user_id))
        | NotFound => (fst (remember person_name None w), Ok None)
        | LookupFailed => (w, Ok None)
        end
      else (w, Ok None)
  end.

(** Lines 247-253. *)
Fixpoint mentions_of (e : env) (assignees : list string)
  : action (list string) :=
  match assignees with
  | [] => mret []
  | assignee :: rest =>
      slack_user_id ← _get_slack_user_id e assignee;
      let mention :=
        match slack_user_id with
        | Some user_id =>
            if String.eqb user_id "" then assignee
            else ("<@" ++ user_id ++ ">")%string
        | None => assignee
        end in
      others ← mentions_of e rest;
      mret (mention :: others)
  end.

(** [", ".join(l)]. *)
Fixpoint join (l : list string) : string :=
  match l with
  | [] => EmptyString
  | [s] => s
  | s :: l' => (s ++ ", " ++ join l')%string
  end.

(** Lines 243-262. *)
Definition _format_notification_message (e : env) (d : mr_data)
  (assignees : list string) : action string :=
  match mr d with
  | None => raise KeyError
  | Some m =>
      match web_url m with
      | None => raise KeyError
      | Some mr_url =>
          assignee_mentions ← mentions_of e assignees;
          let mentions :=
            match assignee_mentions with
            | [] => "reviewers"%string
            | _ => join assignee_mentions
            end in
          mret ("Please review " ++ mentions ++ ": " ++ mr_url ++ " (ty)")%string
      end
  end.

(** Lines 204-238: [True] only for a post the chat system confirmed. *)
Definition _send_slack_message (e : env) (message : string) : action bool :=
  if token_present (slack_token e) then
    let confirmed := post_message e message in
    _ ← record (Posted message confirmed);
    mret confirmed
  else mret false.

(** Lines 174-199; every error inside is turned into [False]. *)
Definition _check_and_add_coverage_reviewers (e : env) (project_id mr_iid : Z)
  (d : mr_data) : action bool :=
  match approval_status d, pipeline_status d with
  | Some approval_status, Some pipeline_status =>
      if eq_str pipeline_status "success" then
        match get approval_status "approved_except_coverage" (JBool false) with
        | Raise _ => mret false
        | Ok except_coverage =>
            if truthy except_coverage then
              match get approval_status "needs_coverage_check" (JBool false) with
              | Raise _ => mret false
              | Ok needs_coverage =>
                  if truthy needs_coverage
                     && token_present (gitlab_token e) then
                    _ ← record (ReviewersRequested project_id mr_iid);
                    mret (add_reviewers e project_id mr_iid)
                  else mret false
              end
            else mret false
        end
      else mret false
  | _, _ => mret false
  end.

(** *** The gate *)

(** [f"{repo_name}-{mr_iid}"], line 277. *)
Definition mr_key_of (repo_name : option string) (mr_iid : Z) : string :=
  (from_option id "unknown" repo_name ++ "-" ++ pretty mr_iid)%string.

(** Lines 297-335, after the two early returns. *)
Definition notify_pending (e : env) (d : mr_data) (mr_key : string)
  (project_id mr_iid : Z) : action bool :=
  _ ← _check_and_add_coverage_reviewers e project_id mr_iid d;
  '(assignees, approved_users) ←
      (fun w => (w, assignees_and_approvals e project_id mr_iid));
  let pending_reviewers :=
    List.filter (fun assignee => negb (existsb (String.eqb assignee) approved_users))
                assignees in
  match assignees with
  | [] => _ ← _mark_notified e mr_key; mret false
  | _ =>
      match pending_reviewers with
      | [] => _ ← _mark_notified e mr_key; mret false
      | _ =>
          message ← _format_notification_message e d pending_reviewers;
          sent ← _send_slack_message e message;
          if sent : bool then _ ← _mark_notified e mr_key; mret true
          else mret false
      end
  end.

(** Lines 297-299: whether the record says that every approval is in. *)
Definition approved_by_all_of (d : mr_data) : result bool :=
  match approval_status d with
  | Some approval_status =>
      b ← get approval_status "approved_by_all" (JBool false);
      mret (truthy b)
  | None => Ok false
  end.

(** Lines 273-335, the body of the [try]. *)
Definition evaluate (e : env) (d : mr_data) : action bool :=
  match mr d with
  | None => raise KeyError
  | Some m =>
      match iid m with
      | None => raise KeyError
      | Some mr_iid =>
          let mr_key := mr_key_of (repo_name d) mr_iid in
          fun w =>
          if negb (_should_notify e mr_key w) then (w, Ok false)
          else
            match project_id d with
            | None => (w, Ok false)
            | Some project_id =>
                match approved_by_all_of d with
                | Raise err => (w, Raise err)
                | Ok true => (_ ← _mark_notified e mr_key; mret false) w
                | Ok false => notify_pending e d mr_key project_id mr_iid w
                end
            end
      end
  end.

(** Lines 267-339: whatever is raised inside comes out as [False]. *)
Definition process_mr_for_notification (e : env) (d : mr_data)
  : world -> world * bool := fun w =>
  match evaluate e d w with
  | (w', Ok sent) => (w', sent)
  | (w', Raise _) => (w', false)
  end.

(** The confirmed posts of a history. *)
Definition messages_sent (h : list event) : nat :=
  List.length
    (List.filter (fun ev => match ev with Posted _ true => true | _ => false end) h).

Definition is_post (ev : event) : Prop :=
  match ev with Posted _ _ => True | _ => False end.

Definition is_mark (ev : event) : Prop :=
  match ev with Marked _ _ => True | _ => False end.

(** *** What one evaluation can amount to *)

(** The key the gate works on for a record. *)
Definition key_of_record (d : mr_data) : string :=
  match mr d with
  | Some m =>
      match iid m with
      | Some mr_iid => mr_key_of (repo_name d) mr_iid
      | None => EmptyString
      end
  | None => EmptyString
  end.

(** The files after [_mark_notified]. *)
Definition marked_files (e : env) (mr_key : string) (w : world)
  : gmap string file :=
  let date_file := _get_notification_date_file mr_key in
  if can_write e date_file
  then <[date_file := written_marker e date_file]> (files w)
  else files w.

Definition mark_event (e : env) (mr_key : string) : event :=
  Marked (_get_notification_date_file mr_key)
         (can_write e (_get_notification_date_file mr_key)).

(** An event that is neither a post nor a write of a marker. *)
Definition quiet (ev : event) : Prop := ~ is_post ev /\ ~ is_mark ev.

(** The four ways an evaluation on the key can end: nothing posted and
    nothing marked; the key marked without a post; a post that was not
    confirmed, and no mark; a confirmed post followed by the mark. *)
Inductive evaluation (e : env) (mr_key : string) (w w' : world)
  (r : result bool) : Prop :=
| nothing_done pre :
    Forall quiet pre ->
    history w' = history w ++ pre ->
    files w' = files w ->
    r <> Ok true ->
    evaluation e mr_key w w' r
| marked_silently pre :
    Forall quiet pre ->
    _should_notify e mr_key w = true ->
    history w' = history w ++ pre ++ [mark_event e mr_key] ->
    files w' = marked_files e mr_key w ->
    r = Ok false ->
    evaluation e mr_key w w' r
| send_failed pre message :
    Forall quiet pre ->
    _should_notify e mr_key w = true ->
    history w' = history w ++ pre ++ [Posted message false] ->
    files w' = files w ->
    r = Ok false ->
    evaluation e mr_key w w' r
| sent_and_marked pre message :
    Forall quiet pre ->
    _should_notify e mr_key w = true ->
    history w' = history w ++ pre ++ [Posted message true; mark_event e mr_key] ->
    files w' = marked_files e mr_key w ->
    r = Ok true ->
    evaluation e mr_key w w' r.

(** *** [process_mr_list] *)

(** Lines 351-354: the loop, on the count so far. *)
Fixpoint process_each (e : env) (mr_list : list mr_data)
  (notifications_sent : Z) (w : world) : world * Z :=
  match mr_list with
  | [] => (w, notifications_sent)
  | d :: rest =>
      let '(w', sent) := process_mr_for_notification e d w in
      process_each e rest
        (if sent then notifications_sent + 1 else notifications_sent) w'
  end.

(** Lines 344-361. *)
Definition process_mr_list (e : env) (mr_list : list mr_data) (w : world)
  : world * Z :=
  match mr_list with
  | [] => (w, 0)
  | _ => process_each e mr_list 0 w
  end.

(** *** Dates, and the request for the coverage reviewers *)

(** A date of the calendar, in the ranges [datetime.date] keeps. *)
Definition valid_date (d : date) : Prop :=
  1 <= Z.of_nat (year d) <= 9999 /\
  1 <= Z.of_nat (month d) <= 12 /\
  1 <= Z.of_nat (day d) <= 31.

Definition is_request (ev : event) : Prop :=
  match ev with ReviewersRequested _ _ => True | _ => False end.

(** The condition of lines 184-186, with the token that
    [add_reviewers_to_mr] asks for before its first request. *)
Definition coverage_due (e : env) (d : mr_data) : Prop :=
  exists status pipeline except_coverage needs_coverage,
    approval_status d = Some status /\
    pipeline_status d = Some pipeline /\
    eq_str pipeline "success" = true /\
    get status "approved_except_coverage" (JBool false) = Ok except_coverage /\
    truthy except_coverage = true /\
    get status "needs_coverage_check" (JBool false) = Ok needs_coverage /\
    truthy needs_coverage = true /\
    token_present (gitlab_token e) = true.

End mr_notifier.

(* ===================================================================== *)
(** ** [src/mr_status_controller.py] *)
(* ===================================================================== *)

Module mr_status_controller.

(** The merge request as the upstream lists it: the fields the controller
    reads. *)
Record gitlab_mr := {
  mr_iid : Z;
  mr_title : string;
  mr_web_url : string;
  mr_source_branch : string
}.

(** One record of a batch, as the worker assembles it (lines 604-613); the
    diagnostics are not read by the controller. *)
Record status_record := {
  sr_repo_name : string;
  sr_mr : gitlab_mr;
  sr_pipeline_status : json;
  sr_pipeline_url : json;
  sr_approval_status : gitlab_api.approval_status;
  sr_merge_status : string;
  sr_unresolved_threads : Z
}.

(** A repository of the configuration; ['project_id'] is there once the
    project was resolved at start-up.  (Every repository has a ['name']:
    [load_config] drops the whole configuration otherwise.) *)
Record repo_config := {
  name : string;
  config_project_id : option Z
}.

(** *** The rows built for the model, lines 278-304 *)

(** Text is held in its UTF-8 encoding, and a character is a code point:
    one starts at every byte that is not a continuation byte (10xxxxxx). *)
Definition is_continuation (c : ascii) : bool :=
  let n := nat_of_ascii c in ((128 <=? n) && (n <? 192))%nat.

(** [len(s)]: the number of characters. *)
Fixpoint py_len (s : string) : nat :=
  match s with
  | EmptyString => 0%nat
  | String c s' => if is_continuation c then py_len s' else S (py_len s')
  end.

(** [s[:n]]: the first [n] characters, each with all its bytes. *)
Fixpoint take_chars (n : nat) (s : string) : string :=
  match s with
  | EmptyString => EmptyString
  | String c s' =>
      if is_continuation c then String c (take_chars n s')
      else
        match n with
        | O => EmptyString
        | S n' => String c (take_chars n' s')
        end
  end.

(** Line 289: the title, cut to 50 characters and marked when it is
    longer. *)
Definition display_title (title : string) : string :=
  if (50 <? py_len title)%nat
  then (take_chars 50 title ++ "...")%string
  else title.

(** A status badge. *)
Record pill := {
  text : string;
  color : string;
  url : json
}.

(** Lines 324-333. *)
Definition pipeline_pills (pipeline_status pipeline_url : json) : list pill :=
  if eq_str pipeline_status "failed" then
    [{| text := "Pipeline"; color := "#F44336"; url := pipeline_url |}]
  else if eq_str pipeline_status "running" || eq_str pipeline_status "pending"
          || eq_str pipeline_status "created" then
    [{| text := "Pipeline"; color := "#2196F3"; url := pipeline_url |}]
  else if eq_str pipeline_status "canceled"
          || eq_str pipeline_status "cancelled" then
    [{| text := "Cancelled"; color := "#FF9800"; url := pipeline_url |}]
  else if eq_str pipeline_status "skipped" then
    [{| text := "Skipped"; color := "#9E9E9E"; url := pipeline_url |}]
  else if is_none pipeline_status then
    [{| text := "No Pipeline"; color := "#795548"; url := JStr "" |}]
  else [].

(** Lines 335-336. *)
Definition conflict_pills (merge_status : string) : list pill :=
  if String.eqb merge_status "CONFLICT" then
    [{| text := "Conflict"; color := "#FF9800"; url := JStr "" |}]
  else [].

(** Lines 338-343. *)
Definition thread_pills (unresolved_threads : Z) : list pill :=
  if 0 <? unresolved_threads then
    let plural : string := if 1 <? unresolved_threads then "s" else "" in
    [{| text := (pretty unresolved_threads ++ " Thread" ++ plural)%string;
        color := "#9C27B0"; url := JStr "" |}]
  else [].

Definition approved_pill : pill :=
  {| text := "Approved"; color := "#4CAF50"; url := JStr "" |}.

Definition coverage_pill : pill :=
  {| text := "Coverage"; color := "#00BCD4"; url := JStr "" |}.

(** Lines 345-352. *)
Definition approval_pills (a : gitlab_api.approval_status) : list pill :=
  if truthy (gitlab_api.approved_by_all a) then [approved_pill]
  else if gitlab_api.approved_except_coverage a then
    approved_pill ::
    (if gitlab_api.needs_coverage_check a then [coverage_pill] else [])
  else if gitlab_api.needs_coverage_check a
          && negb (gitlab_api.approved_except_coverage a) then
    [coverage_pill]
  else [].

(** Lines 321-354. *)
Definition _build_status_pills (pipeline_status pipeline_url : json)
  (merge_status : string) (unresolved_threads : Z)
  (approval_status : gitlab_api.approval_status) : list pill :=
  pipeline_pills pipeline_status pipeline_url
  ++ conflict_pills merge_status
  ++ thread_pills unresolved_threads
  ++ approval_pills approval_status.

Definition pill_json (p : pill) : json :=
  JObj [("text", JStr (text p)); ("color", JStr (color p)); ("url", url p)].

(** Lines 287-304: the row of one record. *)
Definition new_item (repo_name : string) (r : status_record) : mr_model.item :=
  let m := sr_mr r in
  let mr_number := ("!" ++ pretty (mr_iid m))%string in
  let title := display_title (mr_title m) in
  let status_pills :=
    _build_status_pills (sr_pipeline_status r) (sr_pipeline_url r)
      (sr_merge_status r) (sr_unresolved_threads r) (sr_approval_status r) in
  {| mr_model.repo := Some repo_name;
     mr_model.mr := Some mr_number;
     mr_model.key := None;
     mr_model.fields :=
       [("title", JStr title);
        ("status_pills", JArr (pill_json <$> status_pills));
        ("mr_url", JStr (mr_web_url m));
        ("pipeline_url", sr_pipeline_url r);
        ("branch", JStr (mr_source_branch m))] |}.

(** *** [check_for_notifications] *)

(** Lines 369-373: the project id of the first repository of that name. *)
Fixpoint project_id_of (repositories : list repo_config) (repo_name : string)
  : option Z :=
  match repositories with
  | [] => None
  | repo_config :: rest =>
      if String.eqb (name repo_config) repo_name
      then config_project_id repo_config
      else project_id_of rest repo_name
  end.

(** Lines 389-390: the record handed to the gate. *)
Definition notification_data (project_id : Z) (r : status_record)
  : mr_notifier.mr_data :=
  let a := sr_approval_status r in
  {| mr_notifier.repo_name := Some (sr_repo_name r);
     mr_notifier.mr :=
       Some {| mr_notifier.iid := Some (mr_iid (sr_mr r));
               mr_notifier.web_url := Some (mr_web_url (sr_mr r)) |};
     mr_notifier.project_id := Some project_id;
     mr_notifier.approval_status :=
       Some (JObj [("approved_by_all", gitlab_api.approved_by_all a);
                   ("approved_except_coverage",
                    JBool (gitlab_api.approved_except_coverage a));
                   ("needs_coverage_check",
                    JBool (gitlab_api.needs_coverage_check a))]);
     mr_notifier.pipeline_status := Some (sr_pipeline_status r) |}.

(** Lines 382-387: whether the record is handed to the gate at all. *)
Definition reaches_gate (r : status_record) : bool :=
  eq_str (sr_pipeline_status r) "success"
  && negb (String.eqb (sr_merge_status r) "CONFLICT").

(** Lines 379-392. *)
Fixpoint notify_each (e : mr_notifier.env) (project_id : Z)
  (repo_mrs : list status_record) (w : mr_notifier.world)
  : mr_notifier.world :=
  match repo_mrs with
  | [] => w
  | r :: rest =>
      if reaches_gate r then
        notify_each e project_id rest
          (fst (mr_notifier.process_mr_for_notification e
                  (notification_data project_id r) w))
      else notify_each e project_id rest w
  end.

(** Lines 361-396; [notifier] is [None] when its construction failed. *)
Definition check_for_notifications (notifier : option mr_notifier.env)
  (repositories : list repo_config) (repo_name : string)
  (repo_mrs : list status_record) (w : mr_notifier.world)
  : mr_notifier.world :=
  match notifier with
  | None => w
  | Some e =>
      match project_id_of repositories repo_name with
      | None => w
      | Some project_id =>
          if project_id =? 0 then w
          else notify_each e project_id repo_mrs w
      end
  end.

(** *** [update_repo_data] and [check_results] *)

(** What the controller emits: the end of loading, and the status line (the
    clock time of "Last updated" is left out). *)
Inductive signal :=
| LoadingChanged (loading : bool)
| NoOpenMergeRequests
| LastUpdated (total_mrs : Z).

Record controller := {
  repos_loaded : gset string;
  loading : bool;
  temp_status : option string;
  rows : list mr_model.item;
  chat : mr_notifier.world;
  emitted : list signal
}.

(** Line 308: the names of the repositories that have a project id. *)
Definition expected_repos (repositories : list repo_config) : gset string :=
  list_to_set
    (name <$> List.filter (fun r => bool_decide (is_Some (config_project_id r)))
                          repositories).

(** [if not self.temp_status:] *)
Definition no_temp_status (t : option string) : bool :=
  match t with
  | Some s => String.eqb s ""
  | None => true
  end.

(** Lines 275-318.  An exception of the model leaves the method after the
    notifications, with the list as the model left it. *)
Definition update_repo_data (notifier : option mr_notifier.env)
  (repositories : list repo_config) (repo_name : string)
  (repo_mrs : list status_record) (c : controller)
  : controller * result unit :=
  let loaded := {[ repo_name ]} ∪ repos_loaded c in
  let chat' :=
    check_for_notifications notifier repositories repo_name repo_mrs (chat c) in
  let new_items := new_item repo_name <$> repo_mrs in
  match mr_model.update_repo_data repo_name new_items (rows c) with
  | (rows', Raise err) =>
      ({| repos_loaded := loaded; loading := loading c;
          temp_status := temp_status c; rows := rows'; chat := chat';
          emitted := emitted c |}, Raise err)
  | (rows', Ok _) =>
      let done :=
        bool_decide (expected_repos repositories ⊆ loaded) && loading c in
      let emitted1 :=
        if done then emitted c ++ [LoadingChanged false] else emitted c in
      let emitted2 :=
        if no_temp_status (temp_status c) then
          emitted1 ++
          [if mr_model.rowCount rows' =? 0 then NoOpenMergeRequests
           else LastUpdated (mr_model.rowCount rows')]
        else emitted1 in
      ({| repos_loaded := loaded;
          loading := if done then false else loading c;
          temp_status := temp_status c; rows := rows'; chat := chat';
          emitted := emitted2 |}, Ok tt)
  end.

(** A message of the result queue. *)
Inductive message :=
| RepoComplete (repo_name : string) (repo_mrs : list status_record)
| WorkerError (description : string).

(** Lines 255-270: the queue is drained until it is empty; the bare
    [except] around the loop ends the draining at the first exception, with
    the messages not yet taken left in the queue. *)
Fixpoint check_results (notifier : option mr_notifier.env)
  (repositories : list repo_config) (queue : list message) (c : controller)
  : controller * list message :=
  match queue with
  | [] => (c, [])
  | RepoComplete repo_name repo_mrs :: rest =>
      match update_repo_data notifier repositories repo_name repo_mrs c with
      | (c', Ok _) => check_results notifier repositories rest c'
      | (c', Raise _) => (c', rest)
      end
  | WorkerError _ :: rest => check_results notifier repositories rest c
  end.

(** The controller as [__init__] leaves it, on the chat state given. *)
Definition initial (w : mr_notifier.world) : controller :=
  {| repos_loaded := ∅; loading := true; temp_status := None; rows := [];
     chat := w; emitted := [] |}.

(** The batches of a queue, in order. *)
Fixpoint batches (queue : list message) : list (string * list status_record) :=
  match queue with
  | [] => []
  | RepoComplete repo_name repo_mrs :: rest =>
      (repo_name, repo_mrs) :: batches rest
  | WorkerError _ :: rest => batches rest
  end.

(** A batch as the worker builds it from the list of the upstream: no
    merge-request number twice. *)
Definition distinct_iids (repo_mrs : list status_record) : Prop :=
  NoDup ((fun r => mr_iid (sr_mr r)) <$> repo_mrs).

(** A row as the controller labels it: its label is "!" and the decimal
    text of a number, and the model sorts it by its repository and that
    number. *)
Definition labelled (x : mr_model.item) : Prop :=
  exists r n,
    mr_model.repo x = Some r /\
    mr_model.mr x = Some ("!" ++ pretty n)%string /\
    mr_model.key_of x = (r, n).

(** How many times the end of loading was announced. *)
Definition loading_announced (l : list signal) : nat :=
  List.length
    (List.filter (fun s => match s with LoadingChanged false => true
                                      | _ => false end) l).

(** What the controller keeps true from one batch to the next: the
    invariant of the model, the labels of the rows, and the loading flag,
    which is down only when every expected repository has been seen and
    whose fall was announced once. *)
Definition controller_inv (repositories : list repo_config) (c : controller)
  : Prop :=
  mr_model.model_inv (rows c) /\ Forall labelled (rows c) /\
  (loading c = false -> expected_repos repositories ⊆ repos_loaded c) /\
  loading_announced (emitted c) = (if loading c then 0 else 1)%nat.

End mr_status_controller.

(* ===================================================================== *)
(** ** Concrete runs used by the examples *)
(* ===================================================================== *)

Module samples.
Import gitlab_api mr_model mr_notifier.

(** A call whose first attempt times out and whose second is rejected. *)
Definition timeout_then_404 : transport := fun attempt =>
  match attempt with
  | O => Timeout
  | _ => Response 404 None
  end.

Definition always_timeout : transport := fun _ => Timeout.

Definition always_429 : transport := fun _ => Response 429 None.

Definition pipeline_7 : json :=
  JObj [("id", JNum 7); ("status", JStr "success");
        ("web_url", JStr "https://gitlab.com/g/app/-/pipelines/7")].

Definition approvals_coverage_left : list (string * json) :=
  [("approved", JBool true);
   ("approval_rules_left", JArr [JObj [("name", JStr "Coverage-Check")]])].

Definition detail_with_conflict : list (string * json) :=
  [("merge_status", JStr "can_be_merged"); ("has_conflicts", JBool true)].

(** An upstream that answers every endpoint at the first attempt. *)
Definition upstream : network := fun ep _ =>
  match ep with
  | Pipelines _ _ => Response 200 (Some (JArr [pipeline_7]))
  | Approvals _ _ => Response 200 (Some (JObj approvals_coverage_left))
  | MergeRequest _ _ _ => Response 200 (Some (JObj detail_with_conflict))
  | Pipeline _ _ => Response 404 None
  end.

Definition row (repo_name label : string) : item :=
  {| mr_model.repo := Some repo_name; mr_model.mr := Some label;
     key := None; fields := [] |}.

Definition two_refreshes : list (string * list item) :=
  [("web", [row "web" "!12"; row "web" "!3"]);
   ("app", [row "app" "!7"])].

(** The fourth of November 2026. *)
Definition a_day : date := {| year := 2026; month := 11; day := 4 |}.

(** Bob is assigned and has not approved; the chat system confirms every
    post when [chat_up], none otherwise; the state directory takes writes
    when [writable], and what was written can be read. *)
Definition surroundings (writable chat_up : bool) : env :=
  {| today := a_day;
     slack_token := Some "xoxb-1";
     gitlab_token := Some "glpat-1";
     can_write := fun _ => writable;
     can_read := fun _ => true;
     post_message := fun _ => chat_up;
     users_list := fun _ => NotFound;
     assignees_and_approvals := fun _ _ => Ok (["Bob"], []);
     add_reviewers := fun _ _ => false |}.

Definition mr_42 : merge_request :=
  {| iid := Some 42;
     web_url := Some "https://gitlab.com/g/app/-/merge_requests/42" |}.

Definition record_42 (approved : bool) (pid : option Z) : mr_data :=
  {| repo_name := Some "app"; mr := Some mr_42; project_id := pid;
     approval_status := Some (JObj [("approved_by_all", JBool approved)]);
     pipeline_status := Some (JStr "success") |}.

Definition empty_world : world :=
  {| files := ∅; person_cache := ∅; history := [] |}.

Definition unreadable_world : world :=
  {| files := {[ "notified_app-42.date" := Unreadable ]};
     person_cache := ∅; history := [] |}.

Definition reminder_42 : string :=
  "Please review Bob: https://gitlab.com/g/app/-/merge_requests/42 (ty)".

(** An upstream without pipelines for the commit, whose merge request 5
    points at its head pipeline 7. *)
Definition upstream_head_only : network := fun ep _ =>
  match ep with
  | Pipelines _ _ => Response 200 (Some (JArr []))
  | MergeRequest _ _ _ =>
      Response 200 (Some (JObj [("sha", JStr "abc");
                                ("head_pipeline", JObj [("id", JNum 7)])]))
  | Pipeline _ _ => Response 200 (Some pipeline_7)
  | Approvals _ _ => Response 404 None
  end.

(** An upstream that rejects everything. *)
Definition upstream_down : network := fun _ _ => Response 500 None.

Definition three_discussions : list json :=
  [JObj [("notes", JArr [JObj [("resolved", JBool false)]])];
   JObj [("notes", JArr [JObj [("body", JStr "fine")]])];
   JObj [("notes", JArr [])]].

(** A record of a batch: merge request [n] of a repository, with a passing
    pipeline and nothing else of note. *)
Definition status_of (repo_name : string) (n : Z) (title : string)
  : mr_status_controller.status_record :=
  {| mr_status_controller.sr_repo_name := repo_name;
     mr_status_controller.sr_mr :=
       {| mr_status_controller.mr_iid := n;
          mr_status_controller.mr_title := title;
          mr_status_controller.mr_web_url :=
            "https://gitlab.com/g/app/-/merge_requests/42";
          mr_status_controller.mr_source_branch := "feature" |};
     mr_status_controller.sr_pipeline_status := JStr "success";
     mr_status_controller.sr_pipeline_url := JStr "";
     mr_status_controller.sr_approval_status :=
       {| approved_by_all := JBool false;
          approved_except_coverage := false;
          needs_coverage_check := false |};
     mr_status_controller.sr_merge_status := "";
     mr_status_controller.sr_unresolved_threads := 0 |}.

Definition two_batches : list mr_status_controller.message :=
  [mr_status_controller.RepoComplete "web"
     [status_of "web" 12 "Add login"; status_of "web" 3 "Fix logout"];
   mr_status_controller.WorkerError "timeout";
   mr_status_controller.RepoComplete "app" [status_of "app" 42 "Bump"]].

Definition two_repositories : list mr_status_controller.repo_config :=
  [{| mr_status_controller.name := "web";
      mr_status_controller.config_project_id := Some 7 |};
   {| mr_status_controller.name := "app";
      mr_status_controller.config_project_id := Some 8 |};
   {| mr_status_controller.name := "docs";
      mr_status_controller.config_project_id := None |}].

(** Surroundings in which the only assignee has approved. *)
Definition bob_approved : env :=
  {| today := a_day;
     slack_token := Some "xoxb-1";
     gitlab_token := Some "glpat-1";
     can_write := fun _ => true;
     can_read := fun _ => true;
     post_message := fun _ => true;
     users_list := fun _ => NotFound;
     assignees_and_approvals := fun _ _ => Ok (["Bob"], ["Bob"]);
     add_reviewers := fun _ _ => true |}.

(** The surroundings of Bob, when the marker takes the write and cannot be
    read afterwards. *)
Definition write_only : env :=
  {| today := a_day;
     slack_token := Some "xoxb-1";
     gitlab_token := Some "glpat-1";
     can_write := fun _ => true;
     can_read := fun _ => false;
     post_message := fun _ => true;
     users_list := fun _ => NotFound;
     assignees_and_approvals := fun _ _ => Ok (["Bob"], []);
     add_reviewers := fun _ _ => false |}.

(** The surroundings of Bob without a token for the chat system. *)
Definition no_chat_token : env :=
  {| today := a_day;
     slack_token := None;
     gitlab_token := Some "glpat-1";
     can_write := fun _ => true;
     can_read := fun _ => true;
     post_message := fun _ => true;
     users_list := fun _ => NotFound;
     assignees_and_approvals := fun _ _ => Ok (["Bob"], []);
     add_reviewers := fun _ _ => false |}.

(** Merge request 42 with every rule satisfied but the coverage rule. *)
Definition record_42_coverage : mr_data :=
  {| repo_name := Some "app"; mr := Some mr_42; project_id := Some 7;
     approval_status :=
       Some (JObj [("approved_by_all", JBool false);
                   ("approved_except_coverage", JBool true);
                   ("needs_coverage_check", JBool true)]);
     pipeline_status := Some (JStr "success") |}.

(** Merge request 42 as the upstream describes it: two assignees, one of
    them also the single assignee and a reviewer, and a reviewer known by
    the user name only. *)
Definition people_of_42 : list (string * json) :=
  [("iid", JNum 42);
   ("assignees", JArr [JObj [("name", JStr "Ann")];
                       JObj [("name", JStr "Bob"); ("username", JStr "bob")]]);
   ("assignee", JObj [("name", JStr "Ann")]);
   ("reviewers", JArr [JObj [("name", JStr "Bob")];
                       JObj [("username", JStr "cy")]])].

Definition approvals_of_42 : list (string * json) :=
  [("approved", JBool false);
   ("approved_by", JArr [JObj [("user", JObj [("name", JStr "Bob")])]])].

Definition upstream_42 : network := fun ep _ =>
  match ep with
  | MergeRequest _ _ _ => Response 200 (Some (JObj people_of_42))
  | Approvals _ _ => Response 200 (Some (JObj approvals_of_42))
  | _ => Response 404 None
  end.

(** The same upstream when the approvals cannot be had. *)
Definition upstream_42_no_approvals : network := fun ep _ =>
  match ep with
  | MergeRequest _ _ _ => Response 200 (Some (JObj people_of_42))
  | _ => Response 500 None
  end.

(** Titles with accents: 49 characters in 58 bytes, and 56 characters. *)
Definition accented_title : string :=
  "éééééééé Mise à jour du service des notifications".

Definition long_title : string :=
  "Réparer la synchronisation des données côté serveur (v2)".

Definition long_title_shown : string :=
  "Réparer la synchronisation des données côté serveu...".

End samples.

(* ===================================================================== *)
(** ** Properties of the retry client *)
(* ===================================================================== *)

Section retry_client.
Import gitlab_api.

Variable t : transport.
Variables max_retries base_delay : Z.

Lemma sleep_nonneg d : 0 <= d -> sleep d = ([Sleep d], Ok tt).
Proof. intros Hd. unfold sleep. destruct (Z.ltb_spec d 0); [lia | reflexivity]. Qed.

Lemma sleep_events d tr r : sleep d = (tr, r) -> requests_issued tr = 0%nat.
Proof. unfold sleep. destruct (d <? 0); intros [= <- <-]; reflexivity. Qed.

Lemma requests_issued_app tr1 tr2 :
  requests_issued (tr1 ++ tr2) = (requests_issued tr1 + requests_issued tr2)%nat.
Proof. unfold requests_issued. now rewrite List.filter_app, List.length_app. Qed.

(** Every iteration issues exactly one request, whatever else it does. *)
Lemma attempt_body_one_request attempt tr c :
  attempt_body t max_retries base_delay attempt = (tr, c) ->
  requests_issued tr = 1%nat.
Proof.
  unfold attempt_body, on_timeout, on_exception.
  destruct (t attempt) as [| |st body].
  - destruct (_ <? _); [destruct (sleep _) as [tr1 [[]|e]] eqn:Hs|];
      intros [= <- <-]; cbn; try reflexivity;
      apply sleep_events in Hs; unfold requests_issued in *; cbn; lia.
  - destruct (_ <? _); [destruct (sleep _) as [tr1 [[]|e]] eqn:Hs|];
      intros [= <- <-]; cbn; try reflexivity;
      apply sleep_events in Hs; unfold requests_issued in *; cbn; lia.
  - destruct (st =? 200).
    + destruct body; [intros [= <- <-]; reflexivity|].
      destruct (_ <? _); [destruct (sleep _) as [tr1 [[]|e]] eqn:Hs|];
        intros [= <- <-]; cbn; try reflexivity;
        apply sleep_events in Hs; unfold requests_issued in *; cbn; lia.
    + destruct (st =? 429); [|intros [= <- <-]; reflexivity].
      destruct (sleep (_ + 5)) as [tr1 [[]|e]] eqn:Hs1.
      * intros [= <- <-]. apply sleep_events in Hs1.
        unfold requests_issued in *; cbn; lia.
      * apply sleep_events in Hs1.
        destruct (_ <? _); [destruct (sleep base_delay) as [tr2 [[]|e2]] eqn:Hs2|];
          intros [= <- <-]; try apply sleep_events in Hs2;
          change (Request ?o :: ?l) with ([Request o] ++ l);
          rewrite !requests_issued_app, ?Hs1, ?Hs2; reflexivity.
Qed.

(** With a delay that is not negative no sleep fails, so no iteration lets an
    exception out; and an iteration returns only [None] or a decoded body of
    a 200 response. *)
Lemma attempt_body_control attempt tr c :
  0 <= base_delay ->
  attempt_body t max_retries base_delay attempt = (tr, c) ->
  c = Continue \/ c = Return JNull \/
  exists j, c = Return j /\ t attempt = Response 200 (Some j).
Proof.
  intros Hbd. unfold attempt_body, on_timeout, on_exception.
  assert (Hpow : 0 <= base_delay * 2 ^ Z.of_nat attempt)
    by (apply Z.mul_nonneg_nonneg; [lia | apply Z.pow_nonneg; lia]).
  destruct (t attempt) as [| |st body].
  - destruct (_ <? _); [rewrite sleep_nonneg by lia|]; intros [= <- <-]; auto.
  - destruct (_ <? _); [rewrite sleep_nonneg by lia|]; intros [= <- <-]; auto.
  - destruct (Z.eqb_spec st 200) as [->|].
    + destruct body as [j|].
      * intros [= <- <-]. right; right. eauto.
      * destruct (_ <? _); [rewrite sleep_nonneg by lia|]; intros [= <- <-]; auto.
    + destruct (st =? 429); [|intros [= <- <-]; auto].
      rewrite sleep_nonneg by lia. intros [= <- <-]; auto.
Qed.

Lemma retry_loop_total attempts :
  0 <= base_delay ->
  exists tr j,
    retry_loop t max_retries base_delay attempts = (tr, Ok j) /\
    (requests_issued tr <= List.length attempts)%nat /\
    (j = JNull \/ exists k, In k attempts /\ t k = Response 200 (Some j)).
Proof.
  intros Hbd. induction attempts as [|a rest IH]; cbn [retry_loop].
  - exists [], JNull. cbn. auto with arith.
  - destruct (attempt_body t max_retries base_delay a) as [tr c] eqn:Hb.
    pose proof (attempt_body_one_request _ _ _ Hb) as Hone.
    destruct (attempt_body_control _ _ _ Hbd Hb) as [->|[->|(j & -> & Hj)]].
    + destruct IH as (tr' & j & -> & Hn & Hj).
      exists (tr ++ tr'), j. rewrite requests_issued_app. cbn [List.length].
      split; [reflexivity|]. split; [lia|].
      destruct Hj as [->|(k & Hk & Hj)]; [now left|right].
      exists k. cbn. auto.
    + exists tr, JNull. cbn [List.length]. repeat split; auto. lia.
    + exists tr, j. cbn [List.length]. split; [reflexivity|]. split; [lia|].
      right. exists a. cbn. auto.
Qed.

End retry_client.

Section retry_trace.
Import gitlab_api.

Variable t : transport.
Variables max_retries base_delay : Z.

Lemma sleep_only_sleeps d tr r : sleep d = (tr, r) -> Forall is_sleep tr.
Proof.
  unfold sleep. destruct (d <? 0); intros [= <- <-]; repeat constructor.
Qed.

Lemma on_exception_only_sleeps a tr c :
  on_exception max_retries base_delay a = (tr, c) -> Forall is_sleep tr.
Proof.
  unfold on_exception. destruct (_ <? _); [|intros [= <- <-]; constructor].
  destruct (sleep base_delay) as [tr1 [[]|e]] eqn:Hs; intros [= <- <-];
    eapply sleep_only_sleeps; eassumption.
Qed.

Lemma on_timeout_only_sleeps a tr c :
  on_timeout max_retries base_delay a = (tr, c) -> Forall is_sleep tr.
Proof.
  unfold on_timeout. destruct (_ <? _); [|intros [= <- <-]; constructor].
  destruct (sleep _) as [tr1 [[]|e]] eqn:Hs; intros [= <- <-];
    eapply sleep_only_sleeps; eassumption.
Qed.

(** The trace of one iteration: the request, then sleeps only. *)
Lemma attempt_body_shape attempt tr c :
  attempt_body t max_retries base_delay attempt = (tr, c) ->
  exists sl, tr = Request (t attempt) :: sl /\ Forall is_sleep sl.
Proof.
  unfold attempt_body. destruct (t attempt) as [| |st body].
  - destruct (on_timeout _ _ _) as [tr1 c1] eqn:H1. intros [= <- <-].
    eauto using on_timeout_only_sleeps.
  - destruct (on_exception _ _ _) as [tr1 c1] eqn:H1. intros [= <- <-].
    eauto using on_exception_only_sleeps.
  - destruct (st =? 200).
    + destruct body.
      * intros [= <- <-]. eauto.
      * destruct (on_exception _ _ _) as [tr1 c1] eqn:H1. intros [= <- <-].
        eauto using on_exception_only_sleeps.
    + destruct (st =? 429); [|intros [= <- <-]; eauto].
      destruct (sleep _) as [tr1 [[]|e]] eqn:Hs.
      * intros [= <- <-]. eauto using sleep_only_sleeps.
      * destruct (on_exception _ _ _) as [tr2 c2] eqn:H2. intros [= <- <-].
        eexists; split; [reflexivity|]. apply Forall_app; split.
        -- eapply sleep_only_sleeps; eassumption.
        -- eapply on_exception_only_sleeps; eassumption.
Qed.

(** Lines 25-27: a status that is neither 200 nor 429 ends the call. *)
Lemma attempt_body_rejected attempt st body :
  t attempt = Response st body -> st <> 200 -> st <> 429 ->
  attempt_body t max_retries base_delay attempt
  = ([Request (Response st body)], Return JNull).
Proof.
  intros Ht H200 H429. unfold attempt_body. rewrite Ht.
  destruct (Z.eqb_spec st 200); [contradiction|].
  destruct (Z.eqb_spec st 429); [contradiction|]. reflexivity.
Qed.

(** A request that sits in a list after a run of sleeps sits in what follows
    the sleeps. *)
Lemma request_after_sleeps sl : forall pre o post rest,
  Forall is_sleep sl ->
  pre ++ Request o :: post = sl ++ rest ->
  exists pre', pre = sl ++ pre' /\ rest = pre' ++ Request o :: post.
Proof.
  induction sl as [|s sl IH]; intros pre o post rest Hsl Heq.
  - exists pre. auto.
  - inversion Hsl as [|? ? Hs Hsl']; subst.
    destruct pre as [|p pre]; cbn in Heq.
    + injection Heq as <- _. destruct Hs.
    + injection Heq as -> Heq.
      destruct (IH _ _ _ _ Hsl' Heq) as (pre' & -> & ->). eauto.
Qed.

Lemma retry_loop_rejected attempts : forall tr r pre post st body,
  retry_loop t max_retries base_delay attempts = (tr, r) ->
  tr = pre ++ Request (Response st body) :: post ->
  st <> 200 -> st <> 429 ->
  post = [] /\ r = Ok JNull.
Proof.
  induction attempts as [|a rest IH]; intros tr r pre post st body Hrun Htr H200 H429.
  - cbn in Hrun. injection Hrun as <- <-. now destruct pre.
  - cbn [retry_loop] in Hrun.
    destruct (attempt_body t max_retries base_delay a) as [trb c] eqn:Hb.
    destruct (attempt_body_shape _ _ _ Hb) as (sl & -> & Hsl).
    destruct pre as [|p pre].
    + (* the rejected response is this iteration's *)
      assert (Ha : t a = Response st body).
      { destruct c; [destruct (retry_loop _ _ _ rest)|..];
          injection Hrun as <- <-; cbn in Htr; now injection Htr. }
      rewrite (attempt_body_rejected _ _ _ Ha H200 H429) in Hb.
      injection Hb as _ <- <-. injection Hrun as <- <-.
      cbn in Htr. injection Htr as _ Hpost. auto.
    + destruct c.
      * destruct (retry_loop t max_retries base_delay rest) as [tr' r'] eqn:Hrest.
        injection Hrun as <- <-. cbn in Htr. injection Htr as _ Htr.
        symmetry in Htr.
        destruct (request_after_sleeps _ _ _ _ _ Hsl Htr) as (pre' & _ & Htr').
        eapply IH; eauto.
      * injection Hrun as <- <-. cbn in Htr. injection Htr as _ Htr.
        exfalso. rewrite Htr in Hsl. apply Forall_app in Hsl as [_ Hsl].
        inversion Hsl as [|? ? Hbad]. exact Hbad.
      * injection Hrun as <- <-. cbn in Htr. injection Htr as _ Htr.
        exfalso. rewrite Htr in Hsl. apply Forall_app in Hsl as [_ Hsl].
        inversion Hsl as [|? ? Hbad]. exact Hbad.
Qed.

End retry_trace.

Section retry_client_claims.
Import gitlab_api samples.

(** C5.  When one of the requests of a call meets a response whose status is
    neither 200 nor 429, that request is the last thing the call does (no
    further request, no sleep) and the call returns [None]. *)
Theorem rejected_status_ends_the_call
  (t : transport) (max_retries base_delay : Z) (tr : trace) (r : result json)
  (pre post : trace) (status_code : Z) (body : option json) :
  make_gitlab_request t max_retries base_delay = (tr, r) ->
  tr = pre ++ Request (Response status_code body) :: post ->
  status_code <> 200 -> status_code <> 429 ->
  post = [] /\ r = Ok JNull.
Proof. unfold make_gitlab_request. apply retry_loop_rejected. Qed.

Lemma rejected_status_ends_the_call_witness :
  snd (make_gitlab_request timeout_then_404 3 1) = Ok JNull.
Proof.
  refine (proj2 (rejected_status_ends_the_call timeout_then_404 3 1
                   (fst (make_gitlab_request timeout_then_404 3 1)) _
                   [Request Timeout; Sleep 1] [] 404 None _ _ _ _)).
  - apply surjective_pairing.
  - reflexivity.
  - lia.
  - lia.
Defined.

(** C9.  With a base delay that is not negative, [make_gitlab_request] always
    returns: it issues at most [max_retries] requests, lets no exception out,
    and what it returns is [None] or the decoded body of a response of status
    200 met by one of its attempts. *)
Theorem make_gitlab_request_returns
  (t : transport) (max_retries base_delay : Z) :
  0 <= base_delay ->
  exists tr j,
    make_gitlab_request t max_retries base_delay = (tr, Ok j) /\
    (requests_issued tr <= Z.to_nat max_retries)%nat /\
    (j = JNull \/
     exists attempt, (attempt < Z.to_nat max_retries)%nat /\
                     t attempt = Response 200 (Some j)).
Proof.
  intros Hbd. unfold make_gitlab_request.
  destruct (retry_loop_total t max_retries base_delay
              (seq 0 (Z.to_nat max_retries)) Hbd) as (tr & j & Hrun & Hn & Hj).
  exists tr, j. split; [exact Hrun|]. rewrite length_seq in Hn.
  split; [exact Hn|]. destruct Hj as [->|(k & Hk & Hj)]; [now left|right].
  exists k. apply in_seq in Hk. split; [lia | exact Hj].
Qed.

Lemma make_gitlab_request_returns_witness :
  exists tr j,
    make_gitlab_request always_timeout 3 1 = (tr, Ok j) /\
    (requests_issued tr <= Z.to_nat 3)%nat /\
    (j = JNull \/
     exists attempt, (attempt < Z.to_nat 3)%nat /\
                     always_timeout attempt = Response 200 (Some j)).
Proof. apply (make_gitlab_request_returns always_timeout 3 1). lia. Defined.

(** The hypothesis on the delay is needed: a negative delay makes
    [time.sleep] raise inside the handler of line 33, and the error leaves
    the function. *)
Example negative_delay_lets_an_error_out :
  make_gitlab_request always_429 3 (-10)
  = ([Request (Response 429 None)], Raise ValueError).
Proof. reflexivity. Qed.

Example three_timeouts :
  make_gitlab_request always_timeout 3 1
  = ([Request Timeout; Sleep 1; Request Timeout; Sleep 2; Request Timeout],
     Ok JNull).
Proof. reflexivity. Qed.

End retry_client_claims.

(* ===================================================================== *)
(** ** Properties of the status resolvers *)
(* ===================================================================== *)

Section resolvers.
Import gitlab_api.

Variable net : network.

Ltac run_api :=
  unfold mbind, api_bind, mret, api_ret, lift, fetch; cbn [app].

Lemma pipeline_by_sha_falls_through pipelines_data log log' d :
  pipeline_by_sha pipelines_data log = (log', Ok (inl d)) ->
  pipelines_data = JNull \/ len pipelines_data = Ok 0.
Proof.
  unfold pipeline_by_sha. destruct pipelines_data as [| | | s | l | kv]; cbn; auto.
  - discriminate.
  - discriminate.
  - destruct s; cbn; auto. run_api. discriminate.
  - destruct l; cbn; auto. run_api.
    repeat (match goal with |- context [getitem ?a ?b] => destruct (getitem a b) end;
            cbn; try discriminate).
  - destruct kv; cbn; auto. run_api. discriminate.
Qed.

(** Looking at the list of pipelines asks the upstream nothing. *)
Lemma pipeline_by_sha_silent pipelines_data log log' r :
  pipeline_by_sha pipelines_data log = (log', r) -> log' = log.
Proof.
  unfold pipeline_by_sha. destruct (is_none pipelines_data).
  { run_api. now intros [= <- _]. }
  run_api. destruct (len pipelines_data); [|now intros [= <- _]].
  destruct (truthy pipelines_data); [|now intros [= <- _]].
  destruct (getitem0 pipelines_data) as [latest|]; [|now intros [= <- _]].
  destruct (getitem latest "status"); [|now intros [= <- _]].
  destruct (getitem latest "id"); [|now intros [= <- _]].
  destruct (getitem latest "web_url"); now intros [= <- _].
Qed.

Lemma pipeline_by_sha_first first rest status id web_url log :
  getitem first "status" = Ok status ->
  getitem first "id" = Ok id ->
  getitem first "web_url" = Ok web_url ->
  exists debug_info,
    pipeline_by_sha (JArr (first :: rest)) log
    = (log, Ok (inr (status, web_url, debug_info))).
Proof.
  intros Hs Hi Hu. unfold pipeline_by_sha. cbn [is_none len truthy getitem0].
  run_api. rewrite Hs, Hi, Hu. eauto.
Qed.

(** C7. When the query of the pipelines by commit SHA hands back a list with
    at least one entry (a pipeline: it has a status, an id and a web URL),
    [get_pipeline_status] returns the status and the web URL of the first
    entry and asks the upstream nothing more, whatever [mr_iid] is; and when
    anything else than that query was asked, the query had failed ([None]) or
    its answer was empty. *)
Theorem first_pipeline_is_authoritative
  (project_id : Z) (mr_sha : string) (mr_iid : option Z)
  (pipelines_data : json) (log : list endpoint) (r : result (json * json * dict)) :
  response_of net (Pipelines project_id mr_sha) = Ok pipelines_data ->
  get_pipeline_status net project_id mr_sha mr_iid [] = (log, r) ->
  (forall first rest status id web_url,
      pipelines_data = JArr (first :: rest) ->
      getitem first "status" = Ok status ->
      getitem first "id" = Ok id ->
      getitem first "web_url" = Ok web_url ->
      log = [Pipelines project_id mr_sha] /\
      exists debug_info, r = Ok (status, web_url, debug_info)) /\
  (log <> [Pipelines project_id mr_sha] ->
   pipelines_data = JNull \/ len pipelines_data = Ok 0).
Proof.
  intros Hresp Hrun. unfold get_pipeline_status in Hrun.
  unfold mbind at 1, api_bind at 1, fetch at 1 in Hrun.
  rewrite Hresp in Hrun. cbn [app] in Hrun.
  unfold mbind at 1, api_bind at 1 in Hrun.
  split.
  - intros first rest status id web_url -> Hs Hi Hu.
    destruct (pipeline_by_sha_first first rest _ _ _
                [Pipelines project_id mr_sha] Hs Hi Hu) as (d & Hd).
    rewrite Hd in Hrun. unfold mret, api_ret in Hrun.
    injection Hrun as <- <-. eauto.
  - intros Hlog.
    destruct (pipeline_by_sha pipelines_data _) as [log1 [[d|res]|e]] eqn:Hsha.
    + eapply pipeline_by_sha_falls_through; eassumption.
    + apply pipeline_by_sha_silent in Hsha as ->.
      unfold mret, api_ret in Hrun. injection Hrun as <- _. contradiction.
    + apply pipeline_by_sha_silent in Hsha as ->.
      injection Hrun as <- _. contradiction.
Qed.

(** *** Approvals *)

Lemma eq_str_true j s : eq_str j s = true <-> j = JStr s.
Proof.
  destruct j; cbn; try (split; [discriminate | intros [=]]).
  rewrite String.eqb_eq. split; [now intros -> | now intros [= ->]].
Qed.

Lemma classify_rules_spec rules :
  Forall is_object rules -> forall ncc noa,
  exists ncc' noa',
    classify_rules rules (ncc, noa) = Ok (ncc', noa') /\
    (ncc' = true <-> ncc = true \/ Exists is_coverage_rule rules) /\
    (noa' = true <-> noa = true \/ Exists is_other_rule rules).
Proof.
  induction 1 as [|rule rules [kv ->] _ IH]; intros ncc noa.
  - exists ncc, noa. cbn. rewrite !Exists_nil. tauto.
  - cbn [classify_rules get]. unfold mbind, result_bind. cbn [fst snd].
    set (name := from_option id (JStr "") (assoc "name" kv)).
    assert (Hname : get (JObj kv) "name" (JStr "") = Ok name) by reflexivity.
    assert (Hcr : is_coverage_rule (JObj kv) <-> name = JStr coverage_rule_name).
    { unfold is_coverage_rule. rewrite Hname. split; congruence. }
    assert (Hor : is_other_rule (JObj kv) <-> name <> JStr coverage_rule_name).
    { unfold is_other_rule. rewrite Hname. split; [|eauto].
      intros (n & [= <-] & Hn). exact Hn. }
    destruct (eq_str name coverage_rule_name) eqn:Hcov.
    + apply eq_str_true in Hcov.
      destruct (IH true noa) as (ncc' & noa' & -> & Hc & Ho).
      exists ncc', noa'. split; [reflexivity|].
      rewrite !Exists_cons, Hc, Ho, Hcr, Hor. tauto.
    + assert (Hne : name <> JStr coverage_rule_name).
      { intros Heq. apply eq_str_true in Heq. congruence. }
      destruct (IH ncc true) as (ncc' & noa' & -> & Hc & Ho).
      exists ncc', noa'. split; [reflexivity|].
      rewrite !Exists_cons, Hc, Ho, Hcr, Hor. tauto.
Qed.

(** C4. [get_approval_status]: for an answer that is a dictionary whose rules
    left are a list of dictionaries, [approved_except_coverage] is true
    exactly when no rule with a name other than "Coverage-Check" is left and
    (the merge request is not approved by all or a "Coverage-Check" rule is
    left); with no rule left and [approved_by_all] true it is false; and when
    the fetch fails the three flags are false. *)
Theorem approved_except_coverage_iff
  (project_id mr_iid : Z) (approvals_data : json)
  (log : list endpoint) (r : result approval_status) :
  response_of net (Approvals project_id mr_iid) = Ok approvals_data ->
  get_approval_status net project_id mr_iid [] = (log, r) ->
  (approvals_data = JNull ->
   r = Ok {| approved_by_all := JBool false;
             approved_except_coverage := false;
             needs_coverage_check := false |}) /\
  (forall kv rules,
      approvals_data = JObj kv ->
      get approvals_data "approval_rules_left" (JArr []) = Ok (JArr rules) ->
      Forall is_object rules ->
      exists st,
        r = Ok st /\
        get approvals_data "approved" (JBool false) = Ok (approved_by_all st) /\
        (needs_coverage_check st = true <-> Exists is_coverage_rule rules) /\
        (approved_except_coverage st = true <->
           ~ Exists is_other_rule rules /\
           (truthy (approved_by_all st) = false \/
            Exists is_coverage_rule rules)) /\
        (rules = [] -> truthy (approved_by_all st) = true ->
         approved_except_coverage st = false)).
Proof.
  intros Hresp Hrun. unfold get_approval_status in Hrun.
  unfold mbind at 1, api_bind at 1, fetch at 1 in Hrun.
  rewrite Hresp in Hrun. cbn [app] in Hrun. split.
  - intros ->. cbn in Hrun. now injection Hrun as _ <-.
  - intros kv rules -> Hrules Hobj. cbn [is_none] in Hrun.
    revert Hrun. run_api. rewrite Hrules. cbn [iter].
    destruct (classify_rules_spec rules Hobj false false)
      as (ncc & noa & -> & Hc & Ho).
    cbn [get]. intros [= _ <-]. eexists. split; [reflexivity|]. cbn.
    assert (Hc' : ncc = true <-> Exists is_coverage_rule rules)
      by (rewrite Hc; intuition discriminate).
    assert (Ho' : noa = true <-> Exists is_other_rule rules)
      by (rewrite Ho; intuition discriminate).
    split; [reflexivity|]. split; [exact Hc'|]. split.
    + rewrite andb_true_iff, orb_true_iff, negb_true_iff, negb_true_iff.
      rewrite <- Hc', <- Ho'. destruct noa; intuition congruence.
    + intros -> Hall. rewrite Hall.
      destruct ncc; [|now rewrite andb_false_r].
      destruct Hc' as [Hc' _]. specialize (Hc' eq_refl). inversion Hc'.
Qed.

(** *** Merge conflicts *)

(** C6. [get_merge_status]: on a fetched dictionary the result is "CONFLICT"
    as soon as one of the three signals holds, and the empty string when the
    three are false; when the fetch fails it is the empty string. *)
Theorem merge_status_conflict_signals
  (project_id mr_iid : Z) (mr_data : json)
  (log : list endpoint) (r : result string) :
  response_of net (MergeRequest project_id mr_iid true) = Ok mr_data ->
  get_merge_status net project_id mr_iid [] = (log, r) ->
  (mr_data = JNull -> r = Ok ""%string) /\
  (forall kv, mr_data = JObj kv ->
     let merge_status := from_option id JNull (assoc "merge_status" kv) in
     let detailed_merge_status :=
       from_option id JNull (assoc "detailed_merge_status" kv) in
     let has_conflicts :=
       from_option id (JBool false) (assoc "has_conflicts" kv) in
     (detailed_merge_status = JStr "conflict" \/
      merge_status = JStr "cannot_be_merged" \/
      has_conflicts = JBool true ->
      r = Ok "CONFLICT"%string) /\
     (detailed_merge_status <> JStr "conflict" ->
      merge_status <> JStr "cannot_be_merged" ->
      has_conflicts = JBool false ->
      r = Ok ""%string)).
Proof.
  intros Hresp Hrun. unfold get_merge_status in Hrun.
  unfold mbind at 1, api_bind at 1, fetch at 1 in Hrun.
  rewrite Hresp in Hrun. cbn [app] in Hrun. split.
  - intros ->. cbn in Hrun. now injection Hrun as _ <-.
  - intros kv -> ms dms hc. subst ms dms hc. cbn [is_none] in Hrun.
    revert Hrun. run_api. cbn [get].
    set (ms := from_option id JNull (assoc "merge_status" kv)).
    set (dms := from_option id JNull (assoc "detailed_merge_status" kv)).
    set (hc := from_option id (JBool false) (assoc "has_conflicts" kv)).
    intros Hrun. split.
    + intros Hsig.
      assert (Hc : eq_str dms "conflict" || eq_str ms "cannot_be_merged"
                   || truthy hc = true).
      { rewrite !orb_true_iff.
        destruct Hsig as [H|[H|H]]; rewrite H; cbn; auto. }
      rewrite Hc in Hrun. now injection Hrun as _ <-.
    + intros Hd Hm Hh.
      assert (Hc : eq_str dms "conflict" || eq_str ms "cannot_be_merged"
                   || truthy hc = false).
      { rewrite !orb_false_iff. rewrite Hh. repeat split.
        - destruct (eq_str dms "conflict") eqn:E; [|reflexivity].
          apply eq_str_true in E. contradiction.
        - destruct (eq_str ms "cannot_be_merged") eqn:E; [|reflexivity].
          apply eq_str_true in E. contradiction. }
      rewrite Hc in Hrun. now injection Hrun as _ <-.
Qed.

End resolvers.

Section resolver_runs.
Import gitlab_api samples.

Lemma first_pipeline_is_authoritative_witness :
  fst (get_pipeline_status upstream 1 "abc" (Some 5) []) = [Pipelines 1 "abc"] /\
  exists debug_info,
    snd (get_pipeline_status upstream 1 "abc" (Some 5) [])
    = Ok (JStr "success", JStr "https://gitlab.com/g/app/-/pipelines/7",
          debug_info).
Proof.
  refine (proj1 (first_pipeline_is_authoritative upstream 1 "abc" (Some 5)
                   (JArr [pipeline_7]) _ _ _ _)
                pipeline_7 [] _ (JNum 7) _ _ _ _ _).
  - reflexivity.
  - apply surjective_pairing.
  - reflexivity.
  - reflexivity.
  - reflexivity.
  - reflexivity.
Defined.

Lemma approved_except_coverage_iff_witness :
  exists st,
    snd (get_approval_status upstream 1 5 []) = Ok st /\
    approved_except_coverage st = true.
Proof.
  assert (Hobj : Forall is_object [JObj [("name", JStr "Coverage-Check")]]).
  { repeat constructor. eexists. reflexivity. }
  destruct (proj2 (approved_except_coverage_iff upstream 1 5
                     (JObj approvals_coverage_left)
                     (fst (get_approval_status upstream 1 5 []))
                     (snd (get_approval_status upstream 1 5 []))
                     eq_refl (surjective_pairing _))
                  approvals_coverage_left
                  [JObj [("name", JStr "Coverage-Check")]]
                  eq_refl eq_refl Hobj)
    as (st & Hst & _ & _ & Hiff & _).
  exists st. split; [exact Hst|]. apply Hiff. split.
  - intros Hother. apply Exists_cons in Hother as [(n & [= <-] & Hn)|Hnil].
    + now apply Hn.
    + now apply Exists_nil in Hnil.
  - right. now left.
Defined.

Lemma merge_status_conflict_signals_witness :
  snd (get_merge_status upstream 1 5 []) = Ok "CONFLICT"%string.
Proof.
  refine (proj1 (proj2 (merge_status_conflict_signals upstream 1 5
                          (JObj detail_with_conflict)
                          (fst (get_merge_status upstream 1 5 [])) _
                          eq_refl (surjective_pairing _))
                       detail_with_conflict eq_refl) _).
  right. right. reflexivity.
Defined.

End resolver_runs.

(* ===================================================================== *)
(** ** Properties of the aggregation model *)
(* ===================================================================== *)

Section key_order.
Import mr_model.

Lemma ascii_compare_refl a : Ascii.compare a a = Eq.
Proof. unfold Ascii.compare. apply N.compare_refl. Qed.

Lemma ascii_compare_lt_trans a b c :
  Ascii.compare a b = Lt -> Ascii.compare b c = Lt -> Ascii.compare a c = Lt.
Proof. unfold Ascii.compare. rewrite !N.compare_lt_iff. lia. Qed.

Lemma string_compare_refl s : String.compare s s = Eq.
Proof. induction s as [|a s IH]; cbn; [|rewrite ascii_compare_refl]; auto. Qed.

Lemma string_compare_lt_trans s1 : forall s2 s3,
  String.compare s1 s2 = Lt -> String.compare s2 s3 = Lt ->
  String.compare s1 s3 = Lt.
Proof.
  induction s1 as [|a s1 IH]; intros [|b s2] [|c s3]; cbn; try discriminate; auto.
  destruct (Ascii.compare a b) eqn:Hab; try discriminate;
    destruct (Ascii.compare b c) eqn:Hbc; try discriminate; intros H12 H23.
  - apply Ascii.compare_eq_iff in Hab as ->. apply Ascii.compare_eq_iff in Hbc as ->.
    rewrite ascii_compare_refl. eauto.
  - apply Ascii.compare_eq_iff in Hab as ->. now rewrite Hbc.
  - apply Ascii.compare_eq_iff in Hbc as <-. now rewrite Hab.
  - now rewrite (ascii_compare_lt_trans _ _ _ Hab Hbc).
Qed.

Lemma string_ltb_trans s1 s2 s3 :
  String.ltb s1 s2 = true -> String.ltb s2 s3 = true -> String.ltb s1 s3 = true.
Proof.
  unfold String.ltb. intros H12 H23.
  destruct (String.compare s1 s2) eqn:E12; try discriminate.
  destruct (String.compare s2 s3) eqn:E23; try discriminate.
  now rewrite (string_compare_lt_trans _ _ _ E12 E23).
Qed.

Lemma string_ltb_connex s1 s2 :
  s1 <> s2 -> String.ltb s1 s2 = false -> String.ltb s2 s1 = true.
Proof.
  unfold String.ltb. intros Hne. rewrite (String.compare_antisym s1 s2).
  destruct (String.compare s2 s1) eqn:E; cbn; try discriminate; auto.
  apply String.compare_eq_iff in E. congruence.
Qed.

Lemma key_le_trans a b c : key_le a b -> key_le b c -> key_le a c.
Proof.
  unfold key_le. intros [Hab|[Hab Hab']] [Hbc|[Hbc Hbc']].
  - left. eapply string_ltb_trans; eassumption.
  - left. now rewrite <- Hbc.
  - left. now rewrite Hab.
  - right. split; [congruence | lia].
Qed.

Lemma key_lt_le a b : key_lt a b = true -> key_le a b.
Proof.
  unfold key_lt, key_le. destruct (String.eqb_spec (fst a) (fst b)).
  - intros H%Z.ltb_lt. right. split; [assumption | lia].
  - auto.
Qed.

Lemma key_lt_false_ge a b : key_lt a b = false -> key_le b a.
Proof.
  unfold key_lt, key_le. destruct (String.eqb_spec (fst a) (fst b)).
  - intros H%Z.ltb_ge. right. split; [congruence | lia].
  - intros H. left. apply string_ltb_connex; assumption.
Qed.

End key_order.

Section sorting.
Import mr_model.

Lemma insert_perm x l : insert x l ≡ₚ x :: l.
Proof.
  induction l as [|y l IH]; cbn; [reflexivity|].
  destruct (key_lt (fst y) (fst x)); [|reflexivity].
  rewrite IH. apply perm_swap.
Qed.

Lemma stable_sort_perm l : stable_sort l ≡ₚ l.
Proof.
  induction l as [|x l IH]; cbn; [reflexivity|].
  now rewrite insert_perm, IH.
Qed.

Lemma insert_sorted x l :
  StronglySorted keyed_le l -> StronglySorted keyed_le (insert x l).
Proof.
  induction 1 as [|y l Hl IH Hy]; cbn.
  - repeat constructor.
  - destruct (key_lt (fst y) (fst x)) eqn:Hlt.
    + constructor; [exact IH|].
      rewrite insert_perm. constructor; [|exact Hy].
      now apply key_lt_le.
    + apply key_lt_false_ge in Hlt.
      constructor; [now constructor|].
      constructor; [exact Hlt|].
      eapply Forall_impl; [exact Hy|].
      intros z Hz. eapply key_le_trans; eassumption.
Qed.

Lemma stable_sort_sorted l : StronglySorted keyed_le (stable_sort l).
Proof.
  induction l as [|x l IH]; cbn; [constructor | now apply insert_sorted].
Qed.

(** The key the code computes is the total key, when it computes one. *)
Lemma sort_key_of x k : sort_key x = Ok k -> k = key_of x.
Proof.
  unfold sort_key, key_of, mbind, result_bind, mret, result_ret.
  destruct (mr_number x); [now intros [= <-] | discriminate].
Qed.

Lemma keyed_spec data :
  Forall sortable data -> keyed data = Ok ((fun x => (key_of x, x)) <$> data).
Proof.
  induction 1 as [|x data [_ Hx] _ IH]; cbn; [reflexivity|].
  rewrite IH. unfold sort_key, key_of, mbind, result_bind, mret, result_ret.
  destruct (mr_number x); [reflexivity | discriminate].
Qed.

Lemma sorted_rows l :
  Forall (fun p => fst p = key_of (snd p)) l ->
  StronglySorted keyed_le l -> StronglySorted item_le (snd <$> l).
Proof.
  intros Hk Hs. induction Hs as [|p l Hl IH Hp]; cbn; [constructor|].
  inversion Hk as [|? ? Hkp Hkl]; subst.
  constructor; [auto|].
  rewrite Forall_fmap. rewrite Forall_forall in Hp, Hkl.
  apply Forall_forall. intros q Hq. cbn. unfold item_le.
  rewrite <- Hkp, <- (Hkl q Hq). now apply Hp.
Qed.

(** Sorting a list of sortable rows: the same rows, in order. *)
Lemma _sort_data_spec data :
  Forall sortable data ->
  exists data', _sort_data data = (data', Ok tt) /\
                data' ≡ₚ data /\ StronglySorted item_le data'.
Proof.
  intros Hd. unfold _sort_data. destruct data as [|x data].
  { exists []. repeat split; constructor. }
  rewrite (keyed_spec _ Hd).
  set (ks := (fun x => (key_of x, x)) <$> x :: data).
  exists (snd <$> stable_sort ks). split; [reflexivity|]. split.
  - rewrite stable_sort_perm. unfold ks. rewrite <- list_fmap_compose.
    now rewrite list_fmap_id.
  - apply sorted_rows; [|apply stable_sort_sorted].
    rewrite stable_sort_perm. unfold ks. rewrite Forall_fmap.
    apply Forall_forall. now intros.
Qed.

End sorting.

Section aggregation.
Import mr_model.

Lemma clear_repo_spec repo_name data :
  Forall sortable data ->
  clear_repo repo_name data
  = (filter (fun x => repo x <> Some repo_name) data, Ok tt).
Proof.
  induction 1 as [|x data [[r Hr] _] _ IH]; cbn [clear_repo]; [reflexivity|].
  rewrite Hr, IH. destruct (String.eqb_spec r repo_name) as [->|Hne].
  - rewrite filter_cons_False; [reflexivity|]. rewrite Hr. tauto.
  - rewrite filter_cons_True; [reflexivity|]. rewrite Hr. congruence.
Qed.

Lemma append_items_spec repo_name new_items : forall data,
  Forall (fun x => is_Some (mr x)) new_items ->
  append_items repo_name new_items data
  = (data ++ (stamped repo_name <$> new_items), Ok tt).
Proof.
  induction new_items as [|x new_items IH]; intros data Hn; cbn.
  - now rewrite app_nil_r.
  - inversion Hn as [|? ? [m Hm] Hn']; subst. rewrite Hm.
    rewrite IH by assumption. rewrite <- app_assoc. cbn.
    unfold stamped at 2. now rewrite Hm.
Qed.

Lemma stamped_sortable repo_name x :
  repo x = Some repo_name -> is_ok (mr_number x) = true ->
  sortable (stamped repo_name x).
Proof. intros Hr Hn. split; cbn; [rewrite Hr; eauto | exact Hn]. Qed.

(** One call on a well-formed list keeps the invariant and ends normally. *)
Lemma update_repo_data_inv repo_name new_items data :
  well_formed_call (repo_name, new_items) ->
  model_inv data ->
  exists data', update_repo_data repo_name new_items data = (data', Ok tt) /\
                model_inv data'.
Proof.
  intros [Hnew Hdup] (Hsort & Hnd & _). cbn [fst snd] in Hnew, Hdup.
  unfold update_repo_data. rewrite (clear_repo_spec _ _ Hsort).
  rewrite append_items_spec
    by (eapply Forall_impl; [exact Hnew | cbn; tauto]).
  set (kept := filter (fun x => repo x <> Some repo_name) data).
  set (added := stamped repo_name <$> new_items).
  assert (Hall : Forall sortable (kept ++ added)).
  { apply Forall_app. split.
    - unfold kept. apply Forall_forall. intros x [_ Hx]%list_elem_of_filter.
      rewrite Forall_forall in Hsort. auto.
    - unfold added. rewrite Forall_fmap. eapply Forall_impl; [exact Hnew|].
      intros x (Hr & _ & Hn). now apply stamped_sortable. }
  destruct (_sort_data_spec _ Hall) as (data' & -> & Hperm & Hsorted).
  exists data'. split; [reflexivity|]. split; [|split].
  - now rewrite Hperm.
  - rewrite Hperm, fmap_app. apply NoDup_app. split; [|split].
    + eapply sublist_NoDup; [exact Hnd|].
      apply fmap_sublist, sublist_filter.
    + intros p (x & -> & [Hx _]%list_elem_of_filter)%list_elem_of_fmap
             (y & Hp & (z & -> & Hz)%list_elem_of_fmap)%list_elem_of_fmap.
      rewrite Forall_forall in Hnew. destruct (Hnew z Hz) as (Hr & _).
      unfold repo_mr in Hp. cbn in Hp. congruence.
    + unfold added. rewrite <- list_fmap_compose.
      rewrite (list_fmap_ext _ ((fun m => (Some repo_name, m)) ∘ mr) new_items).
      * rewrite list_fmap_compose. apply NoDup_fmap_2; [|exact Hdup].
        now intros m1 m2 [= ->].
      * intros i x Hx. rewrite Forall_forall in Hnew.
        apply list_elem_of_lookup_2 in Hx. destruct (Hnew x Hx) as (Hr & _).
        unfold repo_mr. cbn. now rewrite Hr.
  - exact Hsorted.
Qed.

Lemma model_inv_init : model_inv [].
Proof. repeat split; constructor. Qed.

Lemma run_inv calls : forall data,
  Forall well_formed_call calls -> model_inv data ->
  exists data', run calls data = (data', Ok tt) /\ model_inv data'.
Proof.
  induction calls as [|[repo_name new_items] calls IH]; intros data Hc Hi.
  - exists data. auto.
  - inversion Hc as [|? ? Hc1 Hc']; subst. cbn [run].
    destruct (update_repo_data_inv _ _ _ Hc1 Hi) as (data1 & -> & Hi1).
    now apply IH.
Qed.

End aggregation.

Section aggregation_claims.
Import mr_model samples.

(** C1, as amended.  Along every sequence of [update_repo_data] calls on a
    new model in which each list of new rows belongs to the repository being
    replaced, carries no label twice and has labels whose number (the label
    without its first character) is empty or can be read by [int], every call
    ends normally, and after each call no two rows of the list have the same
    (repo, mr) and the list is sorted ascending by (repo, number of the
    merge request), an empty number counting as 0. *)
Theorem rows_unique_and_sorted
  (calls : list (string * list item)) (n : nat) :
  Forall well_formed_call calls ->
  exists data,
    run (take n calls) [] = (data, Ok tt) /\
    NoDup (repo_mr <$> data) /\
    StronglySorted item_le data.
Proof.
  intros Hcalls.
  assert (Hprefix : Forall well_formed_call (take n calls))
    by now apply Forall_take.
  destruct (run_inv (take n calls) [] Hprefix model_inv_init)
    as (data & Hrun & _ & Hnd & Hs).
  eauto.
Qed.

Lemma two_refreshes_well_formed : Forall well_formed_call two_refreshes.
Proof.
  unfold two_refreshes.
  constructor; [|constructor; [|constructor]]; split; cbn [fst snd].
  - constructor; [|constructor; [|constructor]];
      (split; [reflexivity | split; [eexists; reflexivity | reflexivity]]).
  - apply (bool_decide_unpack _). vm_compute. exact I.
  - constructor; [|constructor];
      (split; [reflexivity | split; [eexists; reflexivity | reflexivity]]).
  - apply (bool_decide_unpack _). vm_compute. exact I.
Qed.

Lemma rows_unique_and_sorted_witness :
  exists data,
    run (take 2 two_refreshes) [] = (data, Ok tt) /\
    NoDup (repo_mr <$> data) /\
    StronglySorted item_le data.
Proof.
  apply (rows_unique_and_sorted two_refreshes 2).
  exact two_refreshes_well_formed.
Defined.

(** C1 as stated fails: a list of new rows that carries a label twice leaves
    two rows with the same (repo, mr) in the model. *)
Lemma repeated_label_is_kept_twice :
  exists data,
    run [("web", [row "web" "!3"; row "web" "!3"])] [] = (data, Ok tt) /\
    ~ NoDup (repo_mr <$> data).
Proof.
  eexists. split; [vm_compute; reflexivity|].
  intros Hnd. inversion Hnd as [|? ? Hnot _]; subst.
  apply Hnot. left.
Qed.

(** A label whose number cannot be read makes the sort raise, with the rows
    cleared and appended but not sorted. *)
Example unreadable_number_raises :
  update_repo_data "web" [row "web" "!12"; row "web" "!abc"; row "web" "!3"] []
  = ([stamped "web" (row "web" "!12"); stamped "web" (row "web" "!abc");
      stamped "web" (row "web" "!3")], Raise ValueError).
Proof. reflexivity. Qed.

(** Rows of another repository than the one being replaced are never
    cleared by later calls, and pile up. *)
Example foreign_rows_pile_up :
  fst (run [("web", [row "app" "!7"]); ("web", [row "app" "!7"])] [])
  = [stamped "web" (row "app" "!7"); stamped "web" (row "app" "!7")].
Proof. reflexivity. Qed.

(** A missing label and a label without digits count as number 0. *)
Example missing_or_empty_number_is_zero :
  mr_number {| repo := Some "web"; mr := None; key := None; fields := [] |}
  = Ok 0 /\
  mr_number (row "web" "!") = Ok 0 /\
  mr_number (row "web" "") = Ok 0.
Proof. repeat split. Qed.

Example py_int_examples :
  List.map py_int ["12"; " 1_000 "; "-5"; "1__0"; ""; "0x10"]%string
  = [Ok 12; Ok 1000; Ok (-5); Raise ValueError; Raise ValueError;
     Raise ValueError].
Proof. reflexivity. Qed.

End aggregation_claims.

(* ===================================================================== *)
(** ** Properties of the notification gate *)
(* ===================================================================== *)

Section notification_gate.
Import mr_notifier.

Ltac run_action :=
  unfold mbind, action_bind, mret, action_ret, raise, record; cbn [fst snd].

(** **** The date string is left alone by [strip] *)

Lemma digit_char_not_space n : is_space (digit_char n) = false.
Proof.
  unfold digit_char.
  assert (H : (n mod 10 < 10)%nat) by (apply Nat.mod_upper_bound; lia).
  generalize dependent (n mod 10)%nat. intros k Hk.
  do 10 (destruct k as [|k]; [reflexivity|]). lia.
Qed.

Lemma isoformat_stripped d : str_strip (isoformat d) = isoformat d.
Proof.
  unfold str_strip, isoformat, strip. cbn [list_ascii_of_string lstrip].
  rewrite digit_char_not_space. cbn [List.rev app lstrip].
  rewrite digit_char_not_space. reflexivity.
Qed.

(** After a write of the marker that went through and can be read back, the
    key is notified for the day. *)
Lemma marked_today e e' mr_key w w' :
  can_write e (_get_notification_date_file mr_key) = true ->
  can_read e (_get_notification_date_file mr_key) = true ->
  files w' = marked_files e mr_key w ->
  today e' = today e ->
  _should_notify e' mr_key w' = false.
Proof.
  intros Hw Hr Hf Ht. unfold _should_notify. rewrite Hf.
  unfold marked_files, written_marker.
  rewrite Hw, Hr, lookup_insert_eq, isoformat_stripped, Ht.
  now rewrite String.eqb_refl.
Qed.

(** After a write that did not go through, or one that cannot be read back,
    a key that was due is still due. *)
Lemma not_marked_today e e' mr_key w w' :
  can_write e (_get_notification_date_file mr_key)
  && can_read e (_get_notification_date_file mr_key) = false ->
  files w' = marked_files e mr_key w ->
  today e' = today e ->
  _should_notify e mr_key w = true ->
  _should_notify e' mr_key w' = true.
Proof.
  intros Hwr Hf Ht Hdue. unfold _should_notify in *. rewrite Hf, Ht.
  unfold marked_files, written_marker.
  destruct (can_write e _); [|exact Hdue].
  cbn [andb] in Hwr. now rewrite Hwr, lookup_insert_eq.
Qed.

(** What [_should_notify] answers for the key, the same day, once the files
    are those [_mark_notified] leaves. *)
Lemma marked_gate e e' mr_key w w' :
  _should_notify e mr_key w = true ->
  files w' = marked_files e mr_key w ->
  today e' = today e ->
  _should_notify e' mr_key w'
  = negb (can_write e (_get_notification_date_file mr_key)
          && can_read e (_get_notification_date_file mr_key)).
Proof.
  intros Hdue Hf Hday.
  destruct (can_write e _ && can_read e _) eqn:Hwr; cbn [negb].
  - apply andb_true_iff in Hwr as [Hwrite Hread].
    now apply (marked_today e e' _ w w').
  - now apply (not_marked_today e e' _ w w').
Qed.

(** **** What each step does to the files and to the history *)

Lemma _mark_notified_spec e mr_key w :
  exists w', _mark_notified e mr_key w = (w', Ok tt) /\
             history w' = history w ++ [mark_event e mr_key] /\
             files w' = marked_files e mr_key w.
Proof.
  unfold _mark_notified, marked_files, mark_event.
  destruct (can_write e _); eexists; repeat split.
Qed.

Lemma _check_and_add_coverage_reviewers_spec e pid mr_iid d w :
  exists w' b pre,
    _check_and_add_coverage_reviewers e pid mr_iid d w = (w', Ok b) /\
    Forall quiet pre /\
    history w' = history w ++ pre /\
    files w' = files w.
Proof.
  assert (Hsame : forall b, exists w' b' pre,
    (w, Ok b) = (w', Ok b' : result bool) /\ Forall quiet pre /\
    history w' = history w ++ pre /\ files w' = files w).
  { intros b. exists w, b, []. rewrite app_nil_r. repeat split; constructor. }
  unfold _check_and_add_coverage_reviewers.
  destruct (approval_status d) as [a|], (pipeline_status d) as [p|];
    try apply Hsame.
  destruct (eq_str p "success"); [|apply Hsame].
  destruct (get a "approved_except_coverage" _) as [x|]; [|apply Hsame].
  destruct (truthy x); [|apply Hsame].
  destruct (get a "needs_coverage_check" _) as [y|]; [|apply Hsame].
  destruct (truthy y && token_present (gitlab_token e)); [|apply Hsame].
  run_action. eexists _, _, [ReviewersRequested pid mr_iid].
  split; [reflexivity|]. cbn. repeat split.
  constructor; [|constructor]. split; intros [].
Qed.

Lemma _get_slack_user_id_spec e person_name w :
  exists w' r, _get_slack_user_id e person_name w = (w', Ok r) /\
               history w' = history w /\ files w' = files w.
Proof.
  unfold _get_slack_user_id.
  destruct (person_cache w !! person_name); [eauto|].
  destruct (token_present _); [|eauto].
  destruct (users_list e person_name); cbn; eauto.
Qed.

Lemma mentions_of_spec e assignees : forall w,
  exists w' l, mentions_of e assignees w = (w', Ok l) /\
               history w' = history w /\ files w' = files w.
Proof.
  induction assignees as [|a rest IH]; intros w; cbn [mentions_of].
  - run_action. eauto.
  - run_action.
    destruct (_get_slack_user_id_spec e a w) as (w1 & r & -> & Hh1 & Hf1).
    destruct (IH w1) as (w2 & l & -> & Hh2 & Hf2).
    eexists _, _. split; [reflexivity|]. split; congruence.
Qed.

Lemma _format_notification_message_spec e d pending w :
  exists w' r, _format_notification_message e d pending w = (w', r) /\
               history w' = history w /\ files w' = files w.
Proof.
  unfold _format_notification_message.
  destruct (mr d) as [m|]; [|run_action; eauto].
  destruct (web_url m); [|run_action; eauto].
  run_action.
  destruct (mentions_of_spec e pending w) as (w1 & l & -> & Hh & Hf). eauto.
Qed.

Lemma _send_slack_message_spec e message w :
  (_send_slack_message e message w = (w, Ok false)) \/
  exists w' confirmed,
    _send_slack_message e message w = (w', Ok confirmed) /\
    history w' = history w ++ [Posted message confirmed] /\
    files w' = files w.
Proof.
  unfold _send_slack_message. destruct (token_present _); [|now left].
  right. run_action. eauto.
Qed.

(** The part of the gate after the two early returns. *)
Lemma notify_pending_evaluation e d mr_key pid mr_iid w w' r :
  _should_notify e mr_key w = true ->
  notify_pending e d mr_key pid mr_iid w = (w', r) ->
  evaluation e mr_key w w' r.
Proof.
  intros Hgate. unfold notify_pending.
  unfold mbind at 1, action_bind at 1.
  destruct (_check_and_add_coverage_reviewers_spec e pid mr_iid d w)
    as (w1 & b & pre & -> & Hq & Hh1 & Hf1).
  unfold mbind at 1, action_bind at 1.
  assert (Hgate1 : _should_notify e mr_key w1 = true)
    by (unfold _should_notify in *; now rewrite Hf1).
  assert (Hmark1 : marked_files e mr_key w1 = marked_files e mr_key w)
    by (unfold marked_files; now rewrite Hf1).
  destruct (assignees_and_approvals e pid mr_iid) as [[assignees approved]|err].
  2:{ intros [= <- <-]. eapply nothing_done; eauto; discriminate. }
  assert (Hmarked : forall w2 r2,
    (_ ← _mark_notified e mr_key; mret false) w1 = (w2, r2) ->
    evaluation e mr_key w w2 r2).
  { intros w2 r2. run_action.
    destruct (_mark_notified_spec e mr_key w1) as (w3 & -> & Hh3 & Hf3).
    intros [= <- <-]. eapply marked_silently; eauto.
    - rewrite Hh3, Hh1. now rewrite <- app_assoc.
    - congruence. }
  destruct assignees as [|a assignees]; [apply Hmarked|].
  destruct (List.filter _ (a :: assignees)) as [|p pending]; [apply Hmarked|].
  unfold mbind at 1, action_bind at 1.
  destruct (_format_notification_message_spec e d (p :: pending) w1)
    as (w2 & rm & -> & Hh2 & Hf2).
  destruct rm as [message|err].
  2:{ intros [= <- <-]. eapply nothing_done; eauto; first [congruence | discriminate]. }
  unfold mbind at 1, action_bind at 1.
  destruct (_send_slack_message_spec e message w2)
    as [->|(w3 & confirmed & -> & Hh3 & Hf3)].
  { run_action. intros [= <- <-].
    eapply nothing_done; eauto; first [congruence | discriminate]. }
  destruct confirmed.
  - run_action.
    destruct (_mark_notified_spec e mr_key w3) as (w4 & -> & Hh4 & Hf4).
    intros [= <- <-]. eapply sent_and_marked; eauto.
    + rewrite Hh4, Hh3, Hh2, Hh1. now rewrite <- !app_assoc.
    + rewrite Hf4. unfold marked_files. now rewrite Hf3, Hf2, Hf1.
  - run_action. intros [= <- <-]. eapply send_failed; eauto.
    + rewrite Hh3, Hh2, Hh1. now rewrite <- app_assoc.
    + congruence.
Qed.

(** Every evaluation ends in one of the four ways. *)
Lemma evaluate_evaluation e d w w' r :
  evaluate e d w = (w', r) -> evaluation e (key_of_record d) w w' r.
Proof.
  assert (Hnone : forall mr_key (r0 : result bool), r0 <> Ok true ->
            evaluation e mr_key w w r0).
  { intros mr_key r0 Hr0. apply (nothing_done _ _ _ _ _ []); auto.
    now rewrite app_nil_r. }
  unfold evaluate, key_of_record.
  destruct (mr d) as [m|]; [|intros [= <- <-]; now apply Hnone].
  destruct (iid m) as [mr_iid|]; [|intros [= <- <-]; now apply Hnone].
  destruct (_should_notify e _ w) eqn:Hgate; cbn [negb];
    [|intros [= <- <-]; now apply Hnone].
  destruct (project_id d) as [pid|]; [|intros [= <- <-]; now apply Hnone].
  match goal with |- context [match ?x with Ok _ => _ | Raise _ => _ end] =>
    destruct x as [[|]|err] end.
  - run_action.
    destruct (_mark_notified_spec e (mr_key_of (repo_name d) mr_iid) w)
      as (w1 & -> & Hh & Hf).
    intros [= <- <-]. apply (marked_silently _ _ _ _ _ []); auto.
  - now apply notify_pending_evaluation.
  - intros [= <- <-]. now apply Hnone.
Qed.

Lemma process_evaluation e d w w' sent :
  process_mr_for_notification e d w = (w', sent) ->
  exists r, evaluation e (key_of_record d) w w' r /\
            (sent = true <-> r = Ok true).
Proof.
  unfold process_mr_for_notification.
  destruct (evaluate e d w) as [w1 [b|err]] eqn:Hev; intros [= <- <-];
    eexists; (split; [eapply evaluate_evaluation; eassumption|]).
  - split; congruence.
  - split; discriminate.
Qed.

(** **** Counting the confirmed posts *)

Lemma messages_sent_app h1 h2 :
  messages_sent (h1 ++ h2) = (messages_sent h1 + messages_sent h2)%nat.
Proof. unfold messages_sent. now rewrite List.filter_app, List.length_app. Qed.

Lemma messages_sent_quiet pre : Forall quiet pre -> messages_sent pre = 0%nat.
Proof.
  induction 1 as [|ev pre [Hp _] _ IH]; [reflexivity|].
  change (ev :: pre) with ([ev] ++ pre). rewrite messages_sent_app, IH.
  destruct ev as [m c| |]; try reflexivity. now destruct Hp.
Qed.

Lemma evaluation_count e mr_key w w' r :
  evaluation e mr_key w w' r ->
  messages_sent (history w') = messages_sent (history w) \/
  (messages_sent (history w') = S (messages_sent (history w)) /\
   files w' = marked_files e mr_key w).
Proof.
  intros [pre Hq Hh _ _|pre Hq _ Hh _ _|pre m Hq _ Hh _ _|pre m Hq _ Hh Hf _];
    rewrite Hh, ?messages_sent_app, (messages_sent_quiet _ Hq); cbn.
  - left. lia.
  - left. lia.
  - left. lia.
  - right. split; [lia | exact Hf].
Qed.

Lemma evaluation_gated e mr_key w w' r :
  evaluation e mr_key w w' r ->
  _should_notify e mr_key w = false ->
  messages_sent (history w') = messages_sent (history w).
Proof.
  intros [pre Hq Hh _ _|pre Hq Hg _ _ _|pre m Hq Hg _ _ _|pre m Hq Hg _ _ _] Hno;
    try congruence.
  rewrite Hh, messages_sent_app, (messages_sent_quiet _ Hq). lia.
Qed.

(** C2, as amended.  Two evaluations of the same record on the same day send
    at most one confirmed message in total, provided the marker file of the
    key takes the write of the first evaluation and can be read back
    afterwards. *)
Theorem one_message_per_day
  (e1 e2 : env) (d : mr_data) (w w1 w2 : world) (sent1 sent2 : bool) :
  today e2 = today e1 ->
  can_write e1 (_get_notification_date_file (key_of_record d)) = true ->
  can_read e1 (_get_notification_date_file (key_of_record d)) = true ->
  process_mr_for_notification e1 d w = (w1, sent1) ->
  process_mr_for_notification e2 d w1 = (w2, sent2) ->
  (messages_sent (history w2) <= messages_sent (history w) + 1)%nat.
Proof.
  intros Hday Hwrite Hread H1 H2.
  destruct (process_evaluation _ _ _ _ _ H1) as (r1 & Hev1 & _).
  destruct (process_evaluation _ _ _ _ _ H2) as (r2 & Hev2 & _).
  destruct (evaluation_count _ _ _ _ _ Hev1) as [Hsame|[Hone Hfiles]].
  - destruct (evaluation_count _ _ _ _ _ Hev2) as [H|[H _]]; lia.
  - pose proof (marked_today _ e2 _ _ _ Hwrite Hread Hfiles Hday) as Hgate.
    pose proof (evaluation_gated _ _ _ _ _ Hev2 Hgate). lia.
Qed.

(** **** The send and the marker *)

(** The part of the gate after the early returns, when somebody is pending:
    without a URL nothing is sent and nothing is marked; with one, the
    message goes out if there is a chat token, and the marker is written
    exactly when the post is confirmed. *)
Lemma notify_pending_sends e d mr_key pid mr_iid w m assignees approved :
  mr d = Some m ->
  assignees_and_approvals e pid mr_iid = Ok (assignees, approved) ->
  List.filter (fun assignee => negb (existsb (String.eqb assignee) approved))
              assignees <> [] ->
  exists w' r pre,
    notify_pending e d mr_key pid mr_iid w = (w', r) /\
    Forall quiet pre /\
    match web_url m with
    | None =>
        r = Raise KeyError /\
        history w' = history w ++ pre /\
        files w' = files w
    | Some url =>
        exists mentions,
        let message :=
          ("Please review " ++ mentions ++ ": " ++ url ++ " (ty)")%string in
        if token_present (slack_token e) && post_message e message then
          r = Ok true /\
          history w' = history w ++ pre
                       ++ [Posted message true; mark_event e mr_key] /\
          files w' = marked_files e mr_key w
        else
          r = Ok false /\
          history w' = history w ++ pre
                       ++ (if token_present (slack_token e)
                           then [Posted message false] else []) /\
          files w' = files w
    end.
Proof.
  intros Hm Hfetch Hpending. unfold notify_pending.
  unfold mbind at 1, action_bind at 1.
  destruct (_check_and_add_coverage_reviewers_spec e pid mr_iid d w)
    as (w1 & b & pre & -> & Hq & Hh1 & Hf1).
  unfold mbind at 1, action_bind at 1. rewrite Hfetch.
  destruct assignees as [|a assignees]; [now destruct Hpending|].
  destruct (List.filter _ (a :: assignees)) as [|p pending];
    [now destruct Hpending|].
  unfold mbind at 1, action_bind at 1.
  unfold _format_notification_message. rewrite Hm.
  destruct (web_url m) as [url|].
  2:{ run_action. exists w1, (Raise KeyError), pre. auto. }
  unfold mbind at 1, action_bind at 1.
  destruct (mentions_of_spec e (p :: pending) w1) as (w2 & l & -> & Hh2 & Hf2).
  unfold mret at 1, action_ret at 1.
  unfold mbind at 1, action_bind at 1.
  unfold _send_slack_message.
  set (mentions := match l with [] => "reviewers"%string | _ => join l end).
  set (message :=
         ("Please review " ++ mentions ++ ": " ++ url ++ " (ty)")%string).
  destruct (token_present (slack_token e)) eqn:Htoken.
  - run_action. destruct (post_message e message) eqn:Hpost.
    + match goal with |- context [_mark_notified e mr_key ?w3] =>
        destruct (_mark_notified_spec e mr_key w3) as (w4 & -> & Hh4 & Hf4) end.
      exists w4, (Ok true), pre. split; [reflexivity|]. split; [exact Hq|].
      exists mentions. cbn zeta. fold message. rewrite Hpost. cbn [andb].
      split; [reflexivity|]. split.
      * rewrite Hh4. cbn [history]. rewrite Hh2, Hh1.
        now rewrite <- !app_assoc.
      * rewrite Hf4. unfold marked_files. cbn [files]. now rewrite Hf2, Hf1.
    + eexists _, (Ok false), pre. split; [reflexivity|]. split; [exact Hq|].
      exists mentions. cbn zeta. fold message. rewrite Hpost. cbn [andb].
      split; [reflexivity|]. split.
      * cbn [history]. rewrite Hh2, Hh1. now rewrite <- !app_assoc.
      * cbn [files]. congruence.
  - run_action. exists w2, (Ok false), pre.
    split; [reflexivity|]. split; [exact Hq|].
    exists mentions. cbn zeta. cbn [andb].
    split; [reflexivity|]. split.
    + rewrite Hh2, Hh1. now rewrite app_nil_r.
    + congruence.
Qed.

(** C3.  Whenever the gate decides to send a reminder (the record has its
    number and its project id, its key is due, it is not approved by all and
    somebody is still pending), the marker of the key is written only after
    the chat system has confirmed the post, and it is then the last thing
    done; when the send fails (there is no chat token, the post is not
    confirmed, or no message can be made for want of a URL) nothing is
    written, the files are as they were, the call returns [False] and the
    key is still due the same day. *)
Theorem marker_only_after_confirmed_send
  (e : env) (d : mr_data) (w w' : world) (sent : bool)
  (m : merge_request) (mr_iid pid : Z) (assignees approved : list string) :
  mr d = Some m -> iid m = Some mr_iid -> project_id d = Some pid ->
  _should_notify e (key_of_record d) w = true ->
  approved_by_all_of d = Ok false ->
  assignees_and_approvals e pid mr_iid = Ok (assignees, approved) ->
  List.filter (fun assignee => negb (existsb (String.eqb assignee) approved))
              assignees <> [] ->
  process_mr_for_notification e d w = (w', sent) ->
  exists pre,
    Forall quiet pre /\
    match web_url m with
    | None =>
        sent = false /\
        history w' = history w ++ pre /\
        files w' = files w /\
        forall e', today e' = today e ->
                   _should_notify e' (key_of_record d) w' = true
    | Some url =>
        exists mentions,
        let message :=
          ("Please review " ++ mentions ++ ": " ++ url ++ " (ty)")%string in
        if token_present (slack_token e) && post_message e message then
          sent = true /\
          history w' = history w ++ pre
                       ++ [Posted message true;
                           mark_event e (key_of_record d)] /\
          files w' = marked_files e (key_of_record d) w /\
          forall e', today e' = today e ->
                     _should_notify e' (key_of_record d) w'
                     = negb (can_write e (_get_notification_date_file
                                            (key_of_record d))
                             && can_read e (_get_notification_date_file
                                              (key_of_record d)))
        else
          sent = false /\
          history w' = history w ++ pre
                       ++ (if token_present (slack_token e)
                           then [Posted message false] else []) /\
          files w' = files w /\
          forall e', today e' = today e ->
                     _should_notify e' (key_of_record d) w' = true
    end.
Proof.
  intros Hm Hi Hp Hdue Hall Hfetch Hpending.
  assert (Hkept : forall w0, files w0 = files w ->
            forall e', today e' = today e ->
                       _should_notify e' (key_of_record d) w0 = true).
  { intros w0 Hf e' Hday. unfold _should_notify in *. now rewrite Hf, Hday. }
  pose proof (fun w0 e' Hf Hday =>
                marked_gate e e' (key_of_record d) w w0 Hdue Hf Hday)
    as Hmarked.
  revert Hdue Hkept Hmarked. unfold key_of_record. rewrite Hm, Hi.
  intros Hdue Hkept Hmarked.
  destruct (notify_pending_sends e d (mr_key_of (repo_name d) mr_iid) pid
              mr_iid w m assignees approved Hm Hfetch Hpending)
    as (w1 & r & pre & Hrun & Hq & Hcases).
  unfold process_mr_for_notification, evaluate.
  rewrite Hm, Hi, Hdue, Hp, Hall. cbn [negb]. rewrite Hrun.
  intros Heq. exists pre. split; [exact Hq|].
  destruct (web_url m) as [url|].
  - destruct Hcases as (mentions & Hcases). exists mentions.
    cbn zeta in *.
    destruct (token_present (slack_token e) && post_message e _);
      destruct Hcases as (-> & Hh & Hf); injection Heq as <- <-;
      repeat split; auto.
  - destruct Hcases as (-> & Hh & Hf). injection Heq as <- <-.
    repeat split; auto.
Qed.

(** C8, as amended.  For a record with a merge-request number and a project
    id whose approval state has [approved_by_all] true, and whose key is not
    marked today, the gate posts nothing, returns [False] and calls
    [_mark_notified]; the key is then notified for the day exactly when the
    write of the marker goes through and the marker can be read back. *)
Theorem approved_is_marked_silently
  (e : env) (d : mr_data) (w : world)
  (m : merge_request) (mr_iid pid : Z) (status all : json) :
  mr d = Some m -> iid m = Some mr_iid ->
  project_id d = Some pid ->
  approval_status d = Some status ->
  get status "approved_by_all" (JBool false) = Ok all ->
  truthy all = true ->
  _should_notify e (key_of_record d) w = true ->
  exists w',
    process_mr_for_notification e d w = (w', false) /\
    history w' = history w ++ [mark_event e (key_of_record d)] /\
    messages_sent (history w') = messages_sent (history w) /\
    files w' = marked_files e (key_of_record d) w /\
    forall e', today e' = today e ->
      _should_notify e' (key_of_record d) w'
      = negb (can_write e (_get_notification_date_file (key_of_record d))
              && can_read e (_get_notification_date_file (key_of_record d))).
Proof.
  intros Hm Hi Hp Ha Hall Htrue Hgate.
  pose proof (fun w0 e' Hf Hday =>
                marked_gate e e' (key_of_record d) w w0 Hgate Hf Hday)
    as Hmarked.
  revert Hgate Hmarked. unfold key_of_record. rewrite Hm, Hi.
  intros Hgate Hmarked.
  unfold process_mr_for_notification, evaluate.
  rewrite Hm, Hi, Hgate, Hp. cbn [negb]. unfold approved_by_all_of.
  rewrite Ha. unfold mbind at 1, result_bind. rewrite Hall.
  unfold mret at 1, result_ret. rewrite Htrue. run_action.
  destruct (_mark_notified_spec e (mr_key_of (repo_name d) mr_iid) w)
    as (w' & -> & Hh & Hf).
  exists w'. split; [reflexivity|]. split; [exact Hh|]. split; [|split].
  - rewrite Hh, messages_sent_app. cbn. lia.
  - exact Hf.
  - intros e' Hday. now apply Hmarked.
Qed.

(** With a merge request that has a URL, a reviewer still pending and a chat
    token, the part of the gate after the early returns hands a message to
    the chat system. *)
Lemma notify_pending_posts e d mr_key pid mr_iid w m url assignees approved :
  mr d = Some m -> web_url m = Some url ->
  assignees_and_approvals e pid mr_iid = Ok (assignees, approved) ->
  List.filter (fun assignee => negb (existsb (String.eqb assignee) approved))
              assignees <> [] ->
  token_present (slack_token e) = true ->
  exists w' sent pre message,
    notify_pending e d mr_key pid mr_iid w = (w', Ok sent) /\
    Forall quiet pre /\
    history w' = history w ++ pre ++ Posted message sent ::
                 (if sent then [mark_event e mr_key] else []).
Proof.
  intros Hm Hurl Hfetch Hpending Htoken. unfold notify_pending.
  unfold mbind at 1, action_bind at 1.
  destruct (_check_and_add_coverage_reviewers_spec e pid mr_iid d w)
    as (w1 & b & pre & -> & Hq & Hh1 & _).
  unfold mbind at 1, action_bind at 1. rewrite Hfetch.
  destruct assignees as [|a assignees]; [now destruct Hpending|].
  destruct (List.filter _ (a :: assignees)) as [|p pending];
    [now destruct Hpending|].
  unfold mbind at 1, action_bind at 1.
  unfold _format_notification_message. rewrite Hm, Hurl.
  unfold mbind at 1, action_bind at 1.
  destruct (mentions_of_spec e (p :: pending) w1) as (w2 & l & -> & Hh2 & _).
  unfold mret at 1, action_ret at 1.
  unfold mbind at 1, action_bind at 1.
  unfold _send_slack_message. rewrite Htoken. run_action.
  set (message := ("Please review " ++ _)%string).
  destruct (post_message e message) eqn:Hpost.
  - match goal with |- context [_mark_notified e mr_key ?w3] =>
      destruct (_mark_notified_spec e mr_key w3) as (w4 & -> & Hh4 & _) end.
    exists w4, true, pre, message. split; [reflexivity|]. split; [exact Hq|].
    rewrite Hh4. cbn [history]. rewrite Hh2, Hh1. now rewrite <- !app_assoc.
  - eexists _, false, pre, message. split; [reflexivity|]. split; [exact Hq|].
    cbn [history]. rewrite Hh2, Hh1. now rewrite <- !app_assoc.
Qed.

(** C10.  A marker file that exists and cannot be read leaves the key due:
    [_should_notify] returns [True]; so a record of that key that is not yet
    approved by all and has a reviewer pending is handed to the chat system
    again, whatever the unreadable file held. *)
Theorem unreadable_marker_is_due
  (e : env) (d : mr_data) (w : world)
  (m : merge_request) (mr_iid pid : Z) (url : string)
  (assignees approved : list string) :
  files w !! _get_notification_date_file (key_of_record d) = Some Unreadable ->
  _should_notify e (key_of_record d) w = true /\
  (mr d = Some m -> iid m = Some mr_iid -> web_url m = Some url ->
   project_id d = Some pid -> approved_by_all_of d = Ok false ->
   assignees_and_approvals e pid mr_iid = Ok (assignees, approved) ->
   List.filter (fun assignee => negb (existsb (String.eqb assignee) approved))
               assignees <> [] ->
   token_present (slack_token e) = true ->
   exists w' sent pre message,
     process_mr_for_notification e d w = (w', sent) /\
     Forall quiet pre /\
     history w' = history w ++ pre ++ Posted message sent ::
                  (if sent then [mark_event e (key_of_record d)] else [])).
Proof.
  intros Hfile.
  assert (Hdue : _should_notify e (key_of_record d) w = true)
    by (unfold _should_notify; now rewrite Hfile).
  split; [exact Hdue|].
  intros Hm Hi Hurl Hp Ha Hfetch Hpending Htoken.
  unfold key_of_record in *. rewrite Hm, Hi in *.
  destruct (notify_pending_posts e d (mr_key_of (repo_name d) mr_iid) pid mr_iid
              w m url assignees approved Hm Hurl Hfetch Hpending Htoken)
    as (w' & sent & pre & message & Hrun & Hq & Hh).
  exists w', sent, pre, message.
  unfold process_mr_for_notification, evaluate.
  rewrite Hm, Hi, Hdue, Hp, Ha. cbn [negb]. rewrite Hrun. auto.
Qed.

End notification_gate.


Section notification_runs.
Import mr_notifier samples.

Lemma one_message_per_day_witness :
  let e := surroundings true true in
  let d := record_42 false (Some 7) in
  let w1 := fst (process_mr_for_notification e d empty_world) in
  let w2 := fst (process_mr_for_notification e d w1) in
  (messages_sent (history w2) <= messages_sent (history empty_world) + 1)%nat.
Proof.
  intros e d w1 w2.
  apply (one_message_per_day e e d empty_world w1 w2
           (snd (process_mr_for_notification e d empty_world))
           (snd (process_mr_for_notification e d w1))).
  - reflexivity.
  - reflexivity.
  - reflexivity.
  - apply surjective_pairing.
  - apply surjective_pairing.
Defined.

(** C2 as stated fails: when the marker cannot be written (the state
    directory is missing or read-only, which [__init__] and [_mark_notified]
    only log), the second evaluation of the same day posts the reminder
    again. *)
Lemma unwritable_marker_repeats_the_message :
  let e := surroundings false true in
  let d := record_42 false (Some 7) in
  let w1 := fst (process_mr_for_notification e d empty_world) in
  let w2 := fst (process_mr_for_notification e d w1) in
  snd (process_mr_for_notification e d empty_world) = true /\
  snd (process_mr_for_notification e d w1) = true /\
  history w2 = [Posted reminder_42 true; Marked "notified_app-42.date" false;
                Posted reminder_42 true; Marked "notified_app-42.date" false] /\
  messages_sent (history w2) = 2%nat.
Proof. vm_compute. auto. Qed.

(** The same happens when the write goes through and the marker cannot be
    read afterwards: the second evaluation finds it unreadable and posts. *)
Example write_only_marker_repeats_the_message :
  let e := write_only in
  let d := record_42 false (Some 7) in
  let w1 := fst (process_mr_for_notification e d empty_world) in
  let w2 := fst (process_mr_for_notification e d w1) in
  files w1 !! "notified_app-42.date"%string = Some Unreadable /\
  history w2 = [Posted reminder_42 true; Marked "notified_app-42.date" true;
                Posted reminder_42 true; Marked "notified_app-42.date" true] /\
  messages_sent (history w2) = 2%nat.
Proof. vm_compute. auto. Qed.

Lemma marker_only_after_confirmed_send_witness :
  let e := no_chat_token in
  let d := record_42 false (Some 7) in
  let w' := fst (process_mr_for_notification e d empty_world) in
  exists pre,
    Forall quiet pre /\
    match web_url mr_42 with
    | None =>
        snd (process_mr_for_notification e d empty_world) = false /\
        history w' = history empty_world ++ pre /\
        files w' = files empty_world /\
        forall e', today e' = today e ->
                   _should_notify e' (key_of_record d) w' = true
    | Some url =>
        exists mentions,
        let message :=
          ("Please review " ++ mentions ++ ": " ++ url ++ " (ty)")%string in
        if token_present (slack_token e) && post_message e message then
          snd (process_mr_for_notification e d empty_world) = true /\
          history w' = history empty_world ++ pre
                       ++ [Posted message true;
                           mark_event e (key_of_record d)] /\
          files w' = marked_files e (key_of_record d) empty_world /\
          forall e', today e' = today e ->
                     _should_notify e' (key_of_record d) w'
                     = negb (can_write e (_get_notification_date_file
                                            (key_of_record d))
                             && can_read e (_get_notification_date_file
                                              (key_of_record d)))
        else
          snd (process_mr_for_notification e d empty_world) = false /\
          history w' = history empty_world ++ pre
                       ++ (if token_present (slack_token e)
                           then [Posted message false] else []) /\
          files w' = files empty_world /\
          forall e', today e' = today e ->
                     _should_notify e' (key_of_record d) w' = true
    end.
Proof.
  intros e d w'.
  apply (marker_only_after_confirmed_send e d empty_world w'
           (snd (process_mr_for_notification e d empty_world))
           mr_42 42 7 ["Bob"%string] []).
  - reflexivity.
  - reflexivity.
  - reflexivity.
  - reflexivity.
  - reflexivity.
  - reflexivity.
  - discriminate.
  - apply surjective_pairing.
Defined.

(** The three ways the send can go for merge request 42: without a chat
    token nothing is posted and nothing is marked; a post that is not
    confirmed is not followed by a mark; a confirmed post is, and the marker
    then holds the date. *)
Example send_without_token :
  process_mr_for_notification no_chat_token (record_42 false (Some 7))
    empty_world
  = (empty_world, false).
Proof. reflexivity. Qed.

Example send_not_confirmed :
  let run := process_mr_for_notification (surroundings true false)
               (record_42 false (Some 7)) empty_world in
  snd run = false /\
  history (fst run) = [Posted reminder_42 false] /\
  files (fst run) = files empty_world.
Proof. vm_compute. auto. Qed.

Example send_confirmed :
  let run := process_mr_for_notification (surroundings true true)
               (record_42 false (Some 7)) empty_world in
  snd run = true /\
  history (fst run)
  = [Posted reminder_42 true; Marked "notified_app-42.date" true] /\
  files (fst run) !! "notified_app-42.date"%string
  = Some (Text "2026-11-04").
Proof. vm_compute. auto. Qed.

Lemma approved_is_marked_silently_witness :
  let e := surroundings true true in
  let d := record_42 true (Some 7) in
  exists w',
    process_mr_for_notification e d empty_world = (w', false) /\
    history w' = history empty_world ++ [mark_event e (key_of_record d)] /\
    messages_sent (history w') = messages_sent (history empty_world) /\
    files w' = marked_files e (key_of_record d) empty_world /\
    forall e', today e' = today e ->
      _should_notify e' (key_of_record d) w'
      = negb (can_write e (_get_notification_date_file (key_of_record d))
              && can_read e (_get_notification_date_file (key_of_record d))).
Proof.
  intros e d.
  apply (approved_is_marked_silently e d empty_world mr_42 42 7
           (JObj [("approved_by_all", JBool true)]) (JBool true));
    reflexivity.
Defined.

(** C8 as stated fails: when the marker cannot be written (which
    [_mark_notified] only logs), the record approved by all is evaluated with
    no message and no marker: nothing is stored for its key, which is still
    due, and the next evaluation of the day goes through the same steps. *)
Lemma approved_with_unwritable_marker_is_not_marked :
  let e := surroundings false true in
  let d := record_42 true (Some 7) in
  let w1 := fst (process_mr_for_notification e d empty_world) in
  let w2 := fst (process_mr_for_notification e d w1) in
  approved_by_all_of d = Ok true /\
  _should_notify e (key_of_record d) empty_world = true /\
  snd (process_mr_for_notification e d empty_world) = false /\
  files w1 !! _get_notification_date_file (key_of_record d) = None /\
  _should_notify e (key_of_record d) w1 = true /\
  history w2 = [Marked "notified_app-42.date" false;
                Marked "notified_app-42.date" false].
Proof. vm_compute. repeat split. Qed.

Lemma unreadable_marker_is_due_witness :
  let e := surroundings false true in
  let d := record_42 false (Some 7) in
  _should_notify e (key_of_record d) unreadable_world = true /\
  exists w' sent pre message,
    process_mr_for_notification e d unreadable_world = (w', sent) /\
    Forall quiet pre /\
    history w' = history unreadable_world ++ pre ++ Posted message sent ::
                 (if sent then [mark_event e (key_of_record d)] else []).
Proof.
  intros e d.
  destruct (unreadable_marker_is_due e d unreadable_world mr_42 42 7
              "https://gitlab.com/g/app/-/merge_requests/42"%string
              ["Bob"%string] [] eq_refl) as [Hdue Hposts].
  split; [exact Hdue|].
  apply Hposts; try reflexivity. discriminate.
Defined.

(** With an unreadable marker the whole gate goes on to post. *)
Example unreadable_marker_posts :
  history (fst (process_mr_for_notification (surroundings false true)
                  (record_42 false (Some 7)) unreadable_world))
  = [Posted reminder_42 true; Marked "notified_app-42.date" false].
Proof. reflexivity. Qed.

End notification_runs.

(* ===================================================================== *)
(** ** More on the retry client: success, and the time slept *)
(* ===================================================================== *)

Section retry_timing.
Import gitlab_api.

Variable t : transport.
Variables max_retries base_delay : Z.
Hypothesis delay_nonneg : 0 <= base_delay.

Lemma time_slept_app tr1 tr2 :
  time_slept (tr1 ++ tr2) = time_slept tr1 + time_slept tr2.
Proof.
  induction tr1 as [|[o|d] tr1 IH]; cbn [app time_slept]; lia.
Qed.

Lemma pow2_pos (a : nat) : 1 <= 2 ^ Z.of_nat a.
Proof.
  pose proof (Z.pow_pos_nonneg 2 (Z.of_nat a)) as H. lia.
Qed.

Lemma pow2_succ (a : nat) : 2 ^ Z.of_nat (S a) = 2 * 2 ^ Z.of_nat a.
Proof. rewrite Nat2Z.inj_succ. apply Z.pow_succ_r. lia. Qed.

(** After an outcome the loop can recover from, the iteration goes on. *)
Lemma attempt_body_retryable attempt :
  retryable (t attempt) ->
  exists tr, attempt_body t max_retries base_delay attempt = (tr, Continue).
Proof.
  pose proof (pow2_pos attempt) as Hp.
  assert (Hd : 0 <= base_delay * 2 ^ Z.of_nat attempt) by nia.
  unfold attempt_body, on_timeout, on_exception.
  destruct (t attempt) as [| |st body]; cbn [retryable].
  - intros _. destruct (_ <? _); [rewrite sleep_nonneg by lia|]; eauto.
  - intros _. destruct (_ <? _); [rewrite sleep_nonneg by lia|]; eauto.
  - intros [[-> ->] | ->]; cbn.
    + destruct (_ <? _); [rewrite sleep_nonneg by lia|]; eauto.
    + rewrite sleep_nonneg by lia. eauto.
Qed.

Lemma retry_loop_first_success (j : json) : forall k a n,
  (k < n)%nat ->
  t (a + k)%nat = Response 200 (Some j) ->
  (forall i, (i < k)%nat -> retryable (t (a + i)%nat)) ->
  exists tr,
    retry_loop t max_retries base_delay (seq a n) = (tr, Ok j) /\
    requests_issued tr = S k.
Proof.
  induction k as [|k IH]; intros a [|n] Hk Hok Hretry; try lia;
    cbn [seq retry_loop].
  - rewrite Nat.add_0_r in Hok. unfold attempt_body. rewrite Hok. cbn.
    eexists. split; reflexivity.
  - assert (Ha : retryable (t a)).
    { specialize (Hretry 0%nat). rewrite Nat.add_0_r in Hretry.
      apply Hretry. lia. }
    destruct (attempt_body_retryable a Ha) as (tr0 & Hb). rewrite Hb.
    pose proof (attempt_body_one_request _ _ _ _ _ _ Hb) as Hone.
    destruct (IH (S a) n) as (tr & -> & Hn).
    + lia.
    + now rewrite Nat.add_succ_comm.
    + intros i Hi. rewrite Nat.add_succ_comm. apply Hretry. lia.
    + exists (tr0 ++ tr). split; [reflexivity|].
      rewrite requests_issued_app. lia.
Qed.

(** Each iteration sleeps at most its own backoff plus the penalty of a rate
    limit. *)
Lemma attempt_body_slept attempt tr c :
  attempt_body t max_retries base_delay attempt = (tr, c) ->
  0 <= time_slept tr <= base_delay * 2 ^ Z.of_nat attempt + 5.
Proof.
  pose proof (pow2_pos attempt) as Hp.
  assert (Hd : 0 <= base_delay * 2 ^ Z.of_nat attempt) by nia.
  assert (Hb : base_delay <= base_delay * 2 ^ Z.of_nat attempt) by nia.
  unfold attempt_body, on_timeout, on_exception.
  destruct (t attempt) as [| |st body].
  - destruct (_ <? _); [rewrite sleep_nonneg by lia|];
      intros [= <- <-]; cbn; lia.
  - destruct (_ <? _); [rewrite sleep_nonneg by lia|];
      intros [= <- <-]; cbn; lia.
  - destruct (st =? 200).
    + destruct body; [intros [= <- <-]; cbn; lia|].
      destruct (_ <? _); [rewrite sleep_nonneg by lia|];
        intros [= <- <-]; cbn; lia.
    + destruct (st =? 429); [|intros [= <- <-]; cbn; lia].
      rewrite sleep_nonneg by lia. intros [= <- <-]. cbn. lia.
Qed.

Lemma retry_loop_slept : forall n a tr r,
  retry_loop t max_retries base_delay (seq a n) = (tr, r) ->
  0 <= time_slept tr
    <= base_delay * (2 ^ Z.of_nat (a + n) - 2 ^ Z.of_nat a) + 5 * Z.of_nat n.
Proof.
  induction n as [|n IH]; intros a tr r; cbn [seq retry_loop].
  - intros [= <- <-]. rewrite Nat.add_0_r. cbn. lia.
  - destruct (attempt_body t max_retries base_delay a) as [tr0 c] eqn:Hb.
    pose proof (attempt_body_slept _ _ _ Hb) as H0.
    pose proof (pow2_pos a) as Hpa. pose proof (pow2_succ a) as Hsa.
    assert (Hmono : 2 ^ Z.of_nat (S a) <= 2 ^ Z.of_nat (a + S n)).
    { apply Z.pow_le_mono_r; lia. }
    destruct c.
    + destruct (retry_loop t max_retries base_delay (seq (S a) n))
        as [tr1 r1] eqn:Hrest.
      intros [= <- <-]. specialize (IH _ _ _ Hrest).
      rewrite time_slept_app. replace (S a + n)%nat with (a + S n)%nat in IH by lia.
      nia.
    + intros [= <- <-]. nia.
    + intros [= <- <-]. nia.
Qed.

End retry_timing.

Section retry_timing_results.
Import gitlab_api samples.

(** X1.  When an attempt within the budget meets a 200 with a decodable
    body and every attempt before it met something the loop recovers from (a
    timeout, a transport error, a 429, an undecodable 200), the call returns
    that body, after exactly that many requests plus one. *)
Theorem first_success_is_returned
  (t : transport) (max_retries base_delay : Z) (k : nat) (j : json) :
  0 <= base_delay ->
  (k < Z.to_nat max_retries)%nat ->
  t k = Response 200 (Some j) ->
  (forall i, (i < k)%nat -> retryable (t i)) ->
  exists tr,
    make_gitlab_request t max_retries base_delay = (tr, Ok j) /\
    requests_issued tr = S k.
Proof.
  intros Hbd Hk Hok Hretry. unfold make_gitlab_request.
  apply (retry_loop_first_success t max_retries base_delay Hbd j k 0%nat);
    auto.
Qed.

Lemma first_success_is_returned_witness :
  exists tr,
    make_gitlab_request
      (fun i => match i with 2%nat => Response 200 (Some pipeline_7)
                           | _ => Response 429 None end) 3 1
    = (tr, Ok pipeline_7) /\
    requests_issued tr = 3%nat.
Proof.
  apply (first_success_is_returned _ 3 1 2 pipeline_7).
  - lia.
  - cbn. lia.
  - reflexivity.
  - intros [|[|i]] Hi; cbn; auto; lia.
Defined.

Lemma retry_loop_all_limited (t : transport) (max_retries base_delay : Z) :
  0 <= base_delay ->
  (forall i, exists body, t i = Response 429 body) ->
  forall n a tr r,
    retry_loop t max_retries base_delay (seq a n) = (tr, r) ->
    time_slept tr
    = base_delay * (2 ^ Z.of_nat (a + n) - 2 ^ Z.of_nat a) + 5 * Z.of_nat n.
Proof.
  intros Hbd Hall. induction n as [|n IH]; intros a tr r; cbn [seq retry_loop].
  - intros [= <- <-]. rewrite Nat.add_0_r. cbn. lia.
  - destruct (Hall a) as [body Ha]. unfold attempt_body. rewrite Ha. cbn.
    pose proof (pow2_pos a) as Hpa. pose proof (pow2_succ a) as Hsa.
    rewrite sleep_nonneg by nia.
    destruct (retry_loop t max_retries base_delay (seq (S a) n))
      as [tr1 r1] eqn:Hrest.
    intros [= <- <-]. specialize (IH _ _ _ Hrest). cbn [app time_slept].
    replace (S a + n)%nat with (a + S n)%nat in IH by lia. rewrite IH. lia.
Qed.

(** X2.  With a base delay that is not negative, the time a call sleeps is at
    most [base_delay * (2^n - 1) + 5 * n] for a budget of [n] attempts, and
    it is exactly that when every attempt is rate limited. *)
Theorem time_slept_is_bounded
  (t : transport) (max_retries base_delay : Z) :
  0 <= base_delay ->
  let n := Z.max 0 max_retries in
  let tr := fst (make_gitlab_request t max_retries base_delay) in
  0 <= time_slept tr <= base_delay * (2 ^ n - 1) + 5 * n /\
  ((forall i, exists body, t i = Response 429 body) ->
   time_slept tr = base_delay * (2 ^ n - 1) + 5 * n).
Proof.
  intros Hbd n tr. subst n tr. unfold make_gitlab_request.
  destruct (retry_loop t max_retries base_delay (seq 0 (Z.to_nat max_retries)))
    as [tr r] eqn:Hrun. cbn [fst].
  assert (Hn : Z.of_nat (0 + Z.to_nat max_retries) = Z.max 0 max_retries) by lia.
  assert (Hn' : Z.of_nat (Z.to_nat max_retries) = Z.max 0 max_retries) by lia.
  split.
  - pose proof (retry_loop_slept t max_retries base_delay Hbd _ _ _ _ Hrun) as H.
    rewrite Hn, Hn' in H. cbn in H. lia.
  - intros Hall.
    rewrite (retry_loop_all_limited t max_retries base_delay Hbd Hall _ _ _ _ Hrun).
    rewrite Hn, Hn'. cbn. lia.
Qed.

Lemma time_slept_is_bounded_witness :
  0 <= time_slept (fst (make_gitlab_request always_429 3 1)) <= 22 /\
  ((forall i, exists body, always_429 i = Response 429 body) ->
   time_slept (fst (make_gitlab_request always_429 3 1)) = 22).
Proof. apply (time_slept_is_bounded always_429 3 1). lia. Defined.

Lemma retry_loop_all_timeouts (t : transport) (max_retries base_delay : Z) :
  0 <= base_delay ->
  (forall i, t i = Timeout) ->
  forall n a,
    Z.of_nat (a + S n) = max_retries ->
    exists tr,
      retry_loop t max_retries base_delay (seq a (S n))
      = (tr ++ [Request Timeout], Ok JNull) /\
      requests_issued tr = n /\
      time_slept tr
      = base_delay * (2 ^ (max_retries - 1) - 2 ^ Z.of_nat a).
Proof.
  intros Hbd Hall. induction n as [|n IH]; intros a Hlen.
  - cbn [seq retry_loop]. unfold attempt_body, on_timeout. rewrite Hall.
    destruct (Z.ltb_spec (Z.of_nat a) (max_retries - 1)); [lia|].
    exists []. split; [reflexivity|]. split; [reflexivity|]. cbn.
    replace (max_retries - 1) with (Z.of_nat a) by lia. lia.
  - destruct (IH (S a)) as (tr & Hrun & Hreq & Hslept); [lia|].
    change (seq a (S (S n))) with (a :: seq (S a) (S n)).
    cbn [retry_loop]. unfold attempt_body, on_timeout. rewrite Hall.
    destruct (Z.ltb_spec (Z.of_nat a) (max_retries - 1)); [|lia].
    pose proof (pow2_pos a) as Hpa. pose proof (pow2_succ a) as Hsa.
    rewrite sleep_nonneg by nia. rewrite Hrun.
    exists (Request Timeout :: Sleep (base_delay * 2 ^ Z.of_nat a) :: tr).
    split; [reflexivity|]. split.
    + unfold requests_issued in *. cbn. now rewrite Hreq.
    + cbn [time_slept]. rewrite Hslept. lia.
Qed.

(** X3.  When every attempt times out, a call with a budget of at least one
    attempt uses the whole budget, ends on a request (nothing is slept after
    the last attempt), returns [None], and has slept
    [base_delay * (2^(max_retries-1) - 1)] in all. *)
Theorem timeouts_use_the_whole_budget
  (t : transport) (max_retries base_delay : Z) :
  0 <= base_delay -> 1 <= max_retries ->
  (forall i, t i = Timeout) ->
  exists tr,
    make_gitlab_request t max_retries base_delay
    = (tr ++ [Request Timeout], Ok JNull) /\
    Z.of_nat (requests_issued (tr ++ [Request Timeout])) = max_retries /\
    time_slept (tr ++ [Request Timeout])
    = base_delay * (2 ^ (max_retries - 1) - 1).
Proof.
  intros Hbd Hmr Hall. unfold make_gitlab_request.
  destruct (Z.to_nat max_retries) as [|n] eqn:Hn; [lia|].
  destruct (retry_loop_all_timeouts t max_retries base_delay Hbd Hall n 0%nat)
    as (tr & Hrun & Hreq & Hslept); [lia|].
  exists tr. split; [exact Hrun|].
  rewrite requests_issued_app, time_slept_app, Hreq, Hslept. cbn. split; lia.
Qed.

Lemma timeouts_use_the_whole_budget_witness :
  exists tr,
    make_gitlab_request always_timeout 3 1
    = (tr ++ [Request Timeout], Ok JNull) /\
    Z.of_nat (requests_issued (tr ++ [Request Timeout])) = 3 /\
    time_slept (tr ++ [Request Timeout]) = 1 * (2 ^ (3 - 1) - 1).
Proof.
  apply (timeouts_use_the_whole_budget always_timeout 3 1); try lia.
  reflexivity.
Defined.

Lemma requests_issued_sleeps sl :
  Forall is_sleep sl -> requests_issued sl = 0%nat.
Proof.
  induction 1 as [|[o|d] sl Hs _ IH]; [reflexivity|destruct Hs|exact IH].
Qed.

Lemma retry_loop_limited_sleeps
  (t : transport) (max_retries base_delay : Z) :
  0 <= base_delay ->
  forall n a tr r pre post body,
    retry_loop t max_retries base_delay (seq a n) = (tr, r) ->
    tr = pre ++ Request (Response 429 body) :: post ->
    exists rest,
      post = Sleep (base_delay * 2 ^ Z.of_nat (a + requests_issued pre) + 5)
             :: rest.
Proof.
  intros Hbd. induction n as [|n IH]; intros a tr r pre post body Hrun Htr.
  - cbn in Hrun. injection Hrun as <- <-. now destruct pre.
  - cbn [seq retry_loop] in Hrun.
    destruct (attempt_body t max_retries base_delay a) as [trb c] eqn:Hb.
    destruct (attempt_body_shape _ _ _ _ _ _ Hb) as (sl & -> & Hsl).
    destruct pre as [|p pre].
    + assert (Ha : t a = Response 429 body).
      { destruct c; [destruct (retry_loop _ _ _ (seq (S a) n))|..];
          injection Hrun as <- <-; cbn in Htr; now injection Htr. }
      pose proof (pow2_pos a) as Hpa.
      unfold attempt_body in Hb. rewrite Ha in Hb. cbn in Hb.
      rewrite sleep_nonneg in Hb by nia. injection Hb as <- <-.
      destruct (retry_loop _ _ _ (seq (S a) n)) as [tr' r'].
      injection Hrun as <- <-. cbn in Htr. injection Htr as _ <-.
      rewrite Nat.add_0_r. eauto.
    + destruct c.
      * destruct (retry_loop t max_retries base_delay (seq (S a) n))
          as [tr' r'] eqn:Hrest.
        injection Hrun as <- <-. cbn in Htr. injection Htr as <- Htr.
        symmetry in Htr.
        destruct (request_after_sleeps _ _ _ _ _ Hsl Htr) as (pre' & -> & Htr').
        destruct (IH _ _ _ _ _ _ Hrest Htr') as (rest & ->).
        exists rest. change (Request (t a) :: ?l) with ([Request (t a)] ++ l).
        rewrite !requests_issued_app, (requests_issued_sleeps _ Hsl). cbn.
        now rewrite Nat.add_succ_r.
      * injection Hrun as <- <-. cbn in Htr. injection Htr as _ Htr.
        exfalso. rewrite Htr in Hsl. apply Forall_app in Hsl as [_ Hsl].
        inversion Hsl as [|? ? Hbad]. exact Hbad.
      * injection Hrun as <- <-. cbn in Htr. injection Htr as _ Htr.
        exfalso. rewrite Htr in Hsl. apply Forall_app in Hsl as [_ Hsl].
        inversion Hsl as [|? ? Hbad]. exact Hbad.
Qed.

(** X4.  With a base delay that is not negative, every 429 is slept on, the
    last attempt of the budget included: the request that met it is followed
    in the trace by a sleep of [base_delay * 2^attempt + 5], where the attempt
    number is the number of requests before it. *)
Theorem rate_limit_is_always_slept
  (t : transport) (max_retries base_delay : Z) (tr : trace) (r : result json)
  (pre post : trace) (body : option json) :
  0 <= base_delay ->
  make_gitlab_request t max_retries base_delay = (tr, r) ->
  tr = pre ++ Request (Response 429 body) :: post ->
  exists rest,
    post = Sleep (base_delay * 2 ^ Z.of_nat (requests_issued pre) + 5) :: rest.
Proof.
  intros Hbd Hrun Htr.
  apply (retry_loop_limited_sleeps t max_retries base_delay Hbd _ 0%nat
           _ _ _ _ _ Hrun Htr).
Qed.

Lemma rate_limit_is_always_slept_witness :
  exists rest,
    [Sleep 9] = Sleep (1 * 2 ^ Z.of_nat (requests_issued
                  [Request (Response 429 None); Sleep 6;
                   Request (Response 429 None); Sleep 7]) + 5) :: rest.
Proof.
  apply (rate_limit_is_always_slept always_429 3 1
           (fst (make_gitlab_request always_429 3 1))
           (snd (make_gitlab_request always_429 3 1))
           [Request (Response 429 None); Sleep 6;
            Request (Response 429 None); Sleep 7] [Sleep 9] None);
    [lia | apply surjective_pairing | reflexivity].
Defined.

End retry_timing_results.

(* ===================================================================== *)
(** ** More on the resolvers: the fallback and the threads *)
(* ===================================================================== *)

Section more_resolvers.
Import gitlab_api samples.

Variable net : network.

Ltac run_api' :=
  unfold mbind, api_bind, mret, api_ret, lift, fetch; cbn [app].

(** Reading back a key of a dictionary right after setting it. *)
Lemma assoc_dict_set {V} (k : string) (v : V) (d : list (string * V)) :
  assoc k (dict_set k v d) = Some v.
Proof.
  induction d as [|[k' v'] d IH]; cbn [dict_set assoc].
  - now rewrite String.eqb_refl.
  - destruct (String.eqb k k') eqn:E; cbn [assoc]; rewrite E;
      [reflexivity | exact IH].
Qed.

(** X5.  When the query by commit SHA gives nothing (it failed, or the list
    is empty) and a merge-request number other than 0 is supplied, and the
    merge request has a head pipeline that can be fetched,
    [get_pipeline_status] returns the status and the URL of that pipeline,
    having asked the three endpoints in that order. *)
Theorem head_pipeline_is_the_fallback
  (project_id : Z) (mr_sha : string) (mr_iid : Z)
  (pipelines_data : json) (kv : list (string * json))
  (hp pipeline_id pipeline_data status web_url : json) :
  response_of net (Pipelines project_id mr_sha) = Ok pipelines_data ->
  pipelines_data = JNull \/ pipelines_data = JArr [] ->
  mr_iid <> 0 ->
  response_of net (MergeRequest project_id mr_iid false) = Ok (JObj kv) ->
  assoc "head_pipeline" kv = Some hp -> truthy hp = true ->
  getitem hp "id" = Ok pipeline_id ->
  response_of net (Pipeline project_id pipeline_id) = Ok pipeline_data ->
  getitem pipeline_data "status" = Ok status ->
  getitem pipeline_data "web_url" = Ok web_url ->
  exists debug_info,
    get_pipeline_status net project_id mr_sha (Some mr_iid) []
    = ([Pipelines project_id mr_sha; MergeRequest project_id mr_iid false;
        Pipeline project_id pipeline_id],
       Ok (status, web_url, debug_info)).
Proof.
  intros Hp Hempty Hiid Hmr Hhp Htruthy Hid Hpipe Hs Hu.
  assert (Hd : is_none pipeline_data = false).
  { destruct pipeline_data; try reflexivity. discriminate. }
  unfold get_pipeline_status. run_api'. rewrite Hp.
  assert (Hsha : exists d0, pipeline_by_sha pipelines_data
                   [Pipelines project_id mr_sha]
                 = ([Pipelines project_id mr_sha], Ok (inl d0))).
  { destruct Hempty as [-> | ->]; cbn; eauto. }
  destruct Hsha as (d0 & ->).
  unfold pipeline_by_mr. destruct (Z.eqb_spec mr_iid 0); [contradiction|].
  run_api'. rewrite Hmr. cbn [is_none get].
  unfold head_pipeline. run_api'. cbn [contains].
  rewrite bool_decide_eq_true_2 by (rewrite Hhp; eauto).
  cbn [getitem]. rewrite Hhp, Htruthy, Hid, Hpipe, Hd, Hs, Hu. eauto.
Qed.

(** X6.  When the query by commit SHA gives nothing and there is no usable
    merge-request number ([None] or 0) or the fetch of the merge request
    fails, [get_pipeline_status] returns no status and no URL, marks the
    diagnostics with ['all_requests_failed'], and never asks for a single
    pipeline. *)
Theorem no_pipeline_without_a_lead
  (project_id : Z) (mr_sha : string) (mr_iid : option Z)
  (pipelines_data : json) :
  response_of net (Pipelines project_id mr_sha) = Ok pipelines_data ->
  pipelines_data = JNull \/ pipelines_data = JArr [] ->
  mr_iid = None \/ mr_iid = Some 0 \/
  (exists iid, mr_iid = Some iid /\
     response_of net (MergeRequest project_id iid false) = Ok JNull) ->
  exists log debug_info,
    get_pipeline_status net project_id mr_sha mr_iid [] =
      (log, Ok (JNull, JNull, debug_info)) /\
    assoc "all_requests_failed" debug_info = Some (JBool true) /\
    forall pipeline_id, ~ In (Pipeline project_id pipeline_id) log.
Proof.
  intros Hp Hempty Hlead.
  unfold get_pipeline_status. run_api'. rewrite Hp.
  assert (Hsha : exists d0, pipeline_by_sha pipelines_data
                   [Pipelines project_id mr_sha]
                 = ([Pipelines project_id mr_sha], Ok (inl d0)) /\
                 assoc "all_requests_failed" d0 = None).
  { destruct Hempty as [-> | ->]; cbn; eauto. }
  destruct Hsha as (d0 & -> & Hd0).
  pose proof (assoc_dict_set "all_requests_failed" (JBool true) d0) as Hset.
  unfold pipeline_by_mr.
  destruct Hlead as [-> | [-> | (iid & -> & Hmr)]].
  - run_api'. eexists _, _. split; [reflexivity|]. split; [exact Hset|].
    intros pipeline_id [[=]|[]].
  - cbn. eexists _, _. split; [reflexivity|]. split; [exact Hset|].
    intros pipeline_id [[=]|[]].
  - destruct (iid =? 0).
    + run_api'. eexists _, _. split; [reflexivity|]. split; [exact Hset|].
      intros pipeline_id [[=]|[]].
    + run_api'. rewrite Hmr. cbn [is_none].
      eexists _, _. split; [reflexivity|]. split; [exact Hset|].
      intros pipeline_id [[=]|[[=]|[]]].
Qed.

End more_resolvers.

Section more_resolver_runs.
Import gitlab_api samples.

Lemma head_pipeline_is_the_fallback_witness :
  exists debug_info,
    get_pipeline_status upstream_head_only 1 "abc" (Some 5) []
    = ([Pipelines 1 "abc"; MergeRequest 1 5 false; Pipeline 1 (JNum 7)],
       Ok (JStr "success", JStr "https://gitlab.com/g/app/-/pipelines/7",
           debug_info)).
Proof.
  apply (head_pipeline_is_the_fallback upstream_head_only 1 "abc" 5
           (JArr []) [("sha", JStr "abc");
                      ("head_pipeline", JObj [("id", JNum 7)])]
           (JObj [("id", JNum 7)]) (JNum 7) pipeline_7);
    try reflexivity; [now right | lia].
Defined.

Lemma no_pipeline_without_a_lead_witness :
  exists log debug_info,
    get_pipeline_status upstream_down 1 "abc" (Some 5) [] =
      (log, Ok (JNull, JNull, debug_info)) /\
    assoc "all_requests_failed" debug_info = Some (JBool true) /\
    forall pipeline_id, ~ In (Pipeline 1 pipeline_id) log.
Proof.
  apply (no_pipeline_without_a_lead upstream_down 1 "abc" (Some 5) JNull).
  - reflexivity.
  - now left.
  - right. right. exists 5. split; reflexivity.
Defined.

End more_resolver_runs.

Section threads.
Import gitlab_api samples.

Lemma is_unresolved_spec discussion :
  is_discussion discussion ->
  is_unresolved discussion = Ok (open_thread discussion).
Proof.
  intros (kv & -> & Hnotes). unfold is_unresolved, open_thread. cbn [get].
  unfold mbind, result_bind, mret, result_ret.
  destruct (assoc "notes" kv) as [[| | | |notes|]|]; try contradiction;
    cbn; [|reflexivity].
  destruct notes as [|note notes]; cbn; [reflexivity|].
  inversion Hnotes as [|? ? [note_kv ->] _]; subst. cbn.
  now destruct (assoc "resolved" note_kv).
Qed.

Lemma count_unresolved_spec discussions :
  Forall is_discussion discussions -> forall c,
  count_unresolved discussions c
  = Ok (c + Z.of_nat (List.length (List.filter open_thread discussions))).
Proof.
  induction 1 as [|d ds Hd _ IH]; intros c; cbn [count_unresolved List.filter].
  - cbn. f_equal. lia.
  - rewrite (is_unresolved_spec _ Hd). unfold mbind, result_bind.
    rewrite IH. destruct (open_thread d); cbn [List.length]; f_equal; lia.
Qed.

(** X7.  [get_unresolved_threads_count] counts the discussions that have a
    first note carrying a ['resolved'] that is false: a discussion without
    notes, or whose first note has no ['resolved'], is not counted; the count
    lies between 0 and the number of discussions; a failed fetch counts 0. *)
Theorem unresolved_threads_are_counted
  (t : transport) (discussions_data : json) :
  snd (make_gitlab_request t default_max_retries default_base_delay)
  = Ok discussions_data ->
  (discussions_data = JNull -> get_unresolved_threads_count t = Ok 0) /\
  (forall discussions,
     discussions_data = JArr discussions ->
     Forall is_discussion discussions ->
     let n := Z.of_nat (List.length (List.filter open_thread discussions)) in
     get_unresolved_threads_count t = Ok n /\
     0 <= n <= Z.of_nat (List.length discussions)).
Proof.
  intros Hfetch. unfold get_unresolved_threads_count. rewrite Hfetch.
  unfold mbind at 1, result_bind at 1. split.
  - now intros ->.
  - intros ds -> Hds. cbn zeta. unfold mbind, result_bind. cbn [is_none iter].
    rewrite (count_unresolved_spec _ Hds). cbn [Z.add].
    split; [reflexivity|].
    pose proof (List.filter_length_le open_thread ds). lia.
Qed.

Lemma unresolved_threads_are_counted_witness :
  get_unresolved_threads_count
    (fun _ => Response 200 (Some (JArr three_discussions))) = Ok 1.
Proof.
  refine (proj1 (proj2 (unresolved_threads_are_counted
                          (fun _ => Response 200 (Some (JArr three_discussions)))
                          (JArr three_discussions) eq_refl)
                       three_discussions eq_refl _)).
  repeat constructor; eexists; (split; [reflexivity|]); cbn;
    repeat constructor; eexists; reflexivity.
Defined.

End threads.

(* ===================================================================== *)
(** ** More on the aggregation model: what a refresh touches *)
(* ===================================================================== *)

Section stability.
Import mr_model.

Lemma string_ltb_asym s1 s2 :
  String.ltb s1 s2 = true -> String.ltb s2 s1 = false.
Proof.
  unfold String.ltb. rewrite (String.compare_antisym s2 s1).
  now destruct (String.compare s1 s2).
Qed.

Lemma string_ltb_ne s1 s2 : String.ltb s1 s2 = true -> s1 <> s2.
Proof.
  intros Hlt ->. unfold String.ltb in Hlt.
  now rewrite string_compare_refl in Hlt.
Qed.

Lemma key_le_not_lt a b : key_le a b -> key_lt b a = false.
Proof.
  unfold key_le, key_lt. intros [Hlt|[Heq Hle]].
  - destruct (String.eqb_spec (fst b) (fst a)) as [Heq|_].
    + apply string_ltb_ne in Hlt. congruence.
    + now apply string_ltb_asym.
  - rewrite Heq, String.eqb_refl. lia.
Qed.

Variable Q : (string * Z) * item -> Prop.
Context `{!forall p, Decision (Q p)}.

Lemma insert_at_head x l :
  Forall (keyed_le x) l -> insert x l = x :: l.
Proof.
  destruct 1 as [|y l Hy _]; [reflexivity|]. cbn.
  now rewrite (key_le_not_lt _ _ Hy).
Qed.

(** Inserting into a sorted list and then keeping the rows of a kind is
    keeping them and then inserting. *)
Lemma filter_insert x l :
  StronglySorted keyed_le l ->
  filter Q (insert x l)
  = if decide (Q x) then insert x (filter Q l) else filter Q l.
Proof.
  induction 1 as [|y l Hl IH Hy]; cbn [insert].
  - rewrite filter_cons, filter_nil. now destruct (decide (Q x)).
  - destruct (key_lt (fst y) (fst x)) eqn:Hlt.
    + rewrite !(filter_cons _ y), IH.
      destruct (decide (Q y)), (decide (Q x)); try reflexivity.
      cbn [insert]. now rewrite Hlt.
    + rewrite (filter_cons _ x). destruct (decide (Q x)); [|reflexivity].
      symmetry. apply insert_at_head.
      apply key_lt_false_ge in Hlt.
      assert (Hall : Forall (keyed_le x) (y :: l)).
      { constructor; [exact Hlt|]. eapply Forall_impl; [exact Hy|].
        intros z Hz. eapply key_le_trans; eassumption. }
      apply Forall_forall. intros z [_ Hz]%list_elem_of_filter.
      rewrite Forall_forall in Hall. auto.
Qed.

(** The sort is stable: it commutes with keeping the rows of a kind. *)
Lemma filter_stable_sort l :
  filter Q (stable_sort l) = stable_sort (filter Q l).
Proof.
  induction l as [|x l IH]; [reflexivity|]. cbn [stable_sort].
  rewrite filter_insert by apply stable_sort_sorted.
  rewrite filter_cons, IH. now destruct (decide (Q x)).
Qed.

Lemma stable_sort_sorted_id l :
  StronglySorted keyed_le l -> stable_sort l = l.
Proof.
  induction 1 as [|x l _ IH Hx]; [reflexivity|]. cbn [stable_sort].
  rewrite IH. now apply insert_at_head.
Qed.

End stability.

Section refresh.
Import mr_model samples.

Lemma filter_fmap_snd (P : item -> Prop) (Q : (string * Z) * item -> Prop)
  `{!forall x, Decision (P x)} `{!forall p, Decision (Q p)}
  (l : list ((string * Z) * item)) :
  (forall p, Q p <-> P (snd p)) ->
  filter P (snd <$> l) = snd <$> filter Q l.
Proof.
  intros HQ. induction l as [|p l IH]; [reflexivity|]. cbn [fmap list_fmap].
  rewrite !filter_cons, IH.
  destruct (decide (P (snd p))), (decide (Q p)); try reflexivity;
    exfalso; rewrite HQ in *; contradiction.
Qed.

Lemma filter_with_key (P : item -> Prop) (Q : (string * Z) * item -> Prop)
  `{!forall x, Decision (P x)} `{!forall p, Decision (Q p)}
  (l : list item) :
  (forall p, Q p <-> P (snd p)) ->
  filter Q (with_key <$> l) = with_key <$> filter P l.
Proof.
  intros HQ. induction l as [|x l IH]; [reflexivity|]. cbn [fmap list_fmap].
  rewrite !filter_cons, IH.
  destruct (decide (P x)), (decide (Q (with_key x))); try reflexivity;
    exfalso; rewrite HQ in *; contradiction.
Qed.

Lemma filter_all {A} (P : A -> Prop) `{!forall x, Decision (P x)} (l : list A) :
  Forall P l -> filter P l = l.
Proof.
  induction 1 as [|x l Hx _ IH]; [reflexivity|].
  now rewrite filter_cons_True, IH.
Qed.

Lemma filter_none {A} (P : A -> Prop) `{!forall x, Decision (P x)} (l : list A) :
  Forall (fun x => ~ P x) l -> filter P l = [].
Proof.
  induction 1 as [|x l Hx _ IH]; [reflexivity|].
  now rewrite filter_cons_False.
Qed.

Lemma strongly_sorted_filter {A} (R : A -> A -> Prop) (P : A -> Prop)
  `{!forall x, Decision (P x)} (l : list A) :
  StronglySorted R l -> StronglySorted R (filter P l).
Proof.
  induction 1 as [|x l _ IH Hx]; [constructor|].
  rewrite filter_cons. destruct (decide (P x)); [|exact IH].
  constructor; [exact IH|].
  apply Forall_forall. intros y [_ Hy]%list_elem_of_filter.
  rewrite Forall_forall in Hx. auto.
Qed.

Lemma strongly_sorted_with_key l :
  StronglySorted item_le l -> StronglySorted keyed_le (with_key <$> l).
Proof.
  induction 1 as [|x l _ IH Hx]; cbn; constructor; [exact IH|].
  rewrite Forall_fmap. exact Hx.
Qed.

Lemma fmap_snd_with_key (l : list item) : snd <$> (with_key <$> l) = l.
Proof.
  rewrite <- list_fmap_compose. apply list_fmap_id.
Qed.

(** What a call on a well-formed list computes: the rows of the other
    repositories and the new rows, sorted. *)
Lemma update_repo_data_eq repo_name new_items data :
  well_formed_call (repo_name, new_items) ->
  Forall sortable data ->
  update_repo_data repo_name new_items data
  = (snd <$> stable_sort
       (with_key <$> (filter (fun x => repo x <> Some repo_name) data
                      ++ (stamped repo_name <$> new_items))), Ok tt).
Proof.
  intros [Hnew _] Hsort. cbn [fst snd] in Hnew.
  unfold update_repo_data. rewrite (clear_repo_spec _ _ Hsort).
  rewrite append_items_spec
    by (eapply Forall_impl; [exact Hnew | cbn; tauto]).
  set (kept := filter (fun x => repo x <> Some repo_name) data).
  set (added := stamped repo_name <$> new_items).
  assert (Hall : Forall sortable (kept ++ added)).
  { apply Forall_app. split.
    - unfold kept. apply Forall_forall. intros x [_ Hx]%list_elem_of_filter.
      rewrite Forall_forall in Hsort. auto.
    - unfold added. rewrite Forall_fmap. eapply Forall_impl; [exact Hnew|].
      intros x (Hr & _ & Hn). now apply stamped_sortable. }
  unfold _sort_data. destruct (kept ++ added) as [|x l] eqn:Hl; [reflexivity|].
  rewrite (keyed_spec _ Hall). reflexivity.
Qed.

(** X8.  [clear_repo] on rows that all name their repository removes exactly
    the rows of the repository given and keeps the others in their order; a
    row without ['repo'] stops it with [KeyError], with the rows before it
    cleared and that row and the rows after it left as they were. *)
Theorem clear_repo_removes_one_repository
  (repo_name : string) (before : list item) :
  Forall (fun x => is_Some (repo x)) before ->
  clear_repo repo_name before
  = (filter (fun x => repo x <> Some repo_name) before, Ok tt) /\
  forall x after,
    repo x = None ->
    clear_repo repo_name (before ++ x :: after)
    = (filter (fun x => repo x <> Some repo_name) before ++ x :: after,
       Raise KeyError).
Proof.
  induction 1 as [|y before [r Hr] _ [IH1 IH2]]; cbn [clear_repo app].
  - split; [reflexivity|]. intros x after ->. reflexivity.
  - rewrite Hr. destruct (String.eqb_spec r repo_name) as [->|Hne].
    + rewrite filter_cons_False by (rewrite Hr; tauto). auto.
    + rewrite filter_cons_True by (rewrite Hr; congruence).
      rewrite IH1. split; [reflexivity|].
      intros x after Hx. now rewrite (IH2 x after Hx).
Qed.

Lemma clear_repo_removes_one_repository_witness :
  clear_repo "web" [row "app" "!7"; row "web" "!3"; row "app" "!9"]
  = ([row "app" "!7"; row "app" "!9"], Ok tt).
Proof.
  refine (proj1 (clear_repo_removes_one_repository "web"
                   [row "app" "!7"; row "web" "!3"; row "app" "!9"] _)).
  repeat constructor; eexists; reflexivity.
Defined.

(** The rows of the other repositories come out of a refresh as they went
    in. *)
Lemma update_repo_data_others repo_name new_items data :
  well_formed_call (repo_name, new_items) ->
  model_inv data ->
  filter (fun x => repo x <> Some repo_name)
         (fst (update_repo_data repo_name new_items data))
  = filter (fun x => repo x <> Some repo_name) data.
Proof.
  intros Hcall (Hsort & _ & Hsorted).
  rewrite (update_repo_data_eq _ _ _ Hcall Hsort). cbn [fst].
  destruct Hcall as [Hnew _]. cbn [fst snd] in Hnew.
  set (kept := filter (fun x => repo x <> Some repo_name) data).
  set (added := stamped repo_name <$> new_items).
  assert (Hkept : Forall (fun x => repo x <> Some repo_name) kept).
  { apply Forall_forall. now intros x [Hx _]%list_elem_of_filter. }
  assert (Hadded : Forall (fun x => repo x = Some repo_name) added).
  { unfold added. rewrite Forall_fmap. eapply Forall_impl; [exact Hnew|].
    now intros x (Hr & _). }
  rewrite (filter_fmap_snd _ (fun p => repo (snd p) <> Some repo_name))
    by reflexivity.
  rewrite filter_stable_sort.
  rewrite (filter_with_key (fun x => repo x <> Some repo_name)
             (fun p => repo (snd p) <> Some repo_name)) by reflexivity.
  rewrite filter_app.
  rewrite (filter_all _ kept Hkept).
  rewrite (filter_none _ added)
    by (eapply Forall_impl; [exact Hadded|]; cbn; intros x Hx; tauto).
  rewrite app_nil_r, stable_sort_sorted_id, fmap_snd_with_key; [reflexivity|].
  apply strongly_sorted_with_key. now apply strongly_sorted_filter.
Qed.

(** X9.  A refresh of one repository, on a list that keeps the invariant of
    the model, leaves the rows of every other repository exactly as they
    were, in the same order; the rows of the refreshed repository are the new
    rows and nothing else, and the number of rows is the number of rows of
    the other repositories plus the number of new rows. *)
Theorem refresh_touches_one_repository
  (repo_name : string) (new_items data : list item) :
  well_formed_call (repo_name, new_items) ->
  model_inv data ->
  exists data',
    update_repo_data repo_name new_items data = (data', Ok tt) /\
    filter (fun x => repo x <> Some repo_name) data'
    = filter (fun x => repo x <> Some repo_name) data /\
    filter (fun x => repo x = Some repo_name) data'
    ≡ₚ stamped repo_name <$> new_items /\
    rowCount data'
    = rowCount (filter (fun x => repo x <> Some repo_name) data)
      + Z.of_nat (List.length new_items).
Proof.
  intros Hcall Hinv.
  pose proof (update_repo_data_others _ _ _ Hcall Hinv) as Hothers.
  destruct Hinv as (Hsort & _ & Hsorted).
  rewrite (update_repo_data_eq _ _ _ Hcall Hsort) in Hothers |- *.
  cbn [fst] in Hothers.
  destruct Hcall as [Hnew _]. cbn [fst snd] in Hnew.
  set (kept := filter (fun x => repo x <> Some repo_name) data) in *.
  set (added := stamped repo_name <$> new_items) in *.
  assert (Hkept : Forall (fun x => repo x <> Some repo_name) kept).
  { apply Forall_forall. now intros x [Hx _]%list_elem_of_filter. }
  assert (Hadded : Forall (fun x => repo x = Some repo_name) added).
  { unfold added. rewrite Forall_fmap. eapply Forall_impl; [exact Hnew|].
    now intros x (Hr & _). }
  eexists. split; [reflexivity|]. split; [|split].
  - exact Hothers.
  - rewrite stable_sort_perm, fmap_snd_with_key, filter_app.
    rewrite (filter_none _ kept)
      by (eapply Forall_impl; [exact Hkept|]; cbn; intros x Hx; tauto).
    now rewrite (filter_all _ added Hadded).
  - unfold rowCount. rewrite length_fmap.
    rewrite (Permutation_length (stable_sort_perm _)).
    rewrite length_fmap, length_app. unfold added. rewrite length_fmap. lia.
Qed.

Lemma two_refreshes_inv :
  model_inv (fst (run two_refreshes [])).
Proof.
  destruct (run_inv two_refreshes [] two_refreshes_well_formed model_inv_init)
    as (data & Hrun & Hinv).
  now rewrite Hrun.
Qed.

Lemma web_again_well_formed :
  well_formed_call ("web", [row "web" "!5"]).
Proof.
  split; cbn [fst snd].
  - repeat constructor. eexists. reflexivity.
  - apply (bool_decide_unpack _). vm_compute. exact I.
Qed.

Lemma refresh_touches_one_repository_witness :
  exists data',
    update_repo_data "web" [row "web" "!5"] (fst (run two_refreshes []))
    = (data', Ok tt) /\
    filter (fun x => repo x <> Some "web") data'
    = filter (fun x => repo x <> Some "web") (fst (run two_refreshes [])) /\
    filter (fun x => repo x = Some "web") data'
    ≡ₚ stamped "web" <$> [row "web" "!5"] /\
    rowCount data'
    = rowCount (filter (fun x => repo x <> Some "web")
                  (fst (run two_refreshes [])))
      + Z.of_nat (List.length [row "web" "!5"]).
Proof.
  apply (refresh_touches_one_repository "web" [row "web" "!5"]
           (fst (run two_refreshes []))).
  - exact web_again_well_formed.
  - exact two_refreshes_inv.
Defined.

(** X10.  A refresh is idempotent: repeating the call with the same rows on
    the list it has just produced gives that list again. *)
Theorem refresh_is_idempotent
  (repo_name : string) (new_items data data' : list item) :
  well_formed_call (repo_name, new_items) ->
  model_inv data ->
  update_repo_data repo_name new_items data = (data', Ok tt) ->
  update_repo_data repo_name new_items data' = (data', Ok tt).
Proof.
  intros Hcall Hinv Hrun.
  destruct (update_repo_data_inv _ _ _ Hcall Hinv) as (d1 & Hrun1 & Hinv1).
  rewrite Hrun in Hrun1. injection Hrun1 as <-.
  pose proof (update_repo_data_others _ _ _ Hcall Hinv) as Hother.
  rewrite Hrun in Hother. cbn [fst] in Hother.
  destruct Hinv as (Hsort & _). destruct Hinv1 as (Hsort1 & _).
  rewrite (update_repo_data_eq _ _ _ Hcall Hsort1), Hother.
  now rewrite <- (update_repo_data_eq _ _ _ Hcall Hsort).
Qed.

Lemma refresh_is_idempotent_witness :
  update_repo_data "web" [row "web" "!5"]
    (fst (update_repo_data "web" [row "web" "!5"] (fst (run two_refreshes []))))
  = (fst (update_repo_data "web" [row "web" "!5"] (fst (run two_refreshes []))),
     Ok tt).
Proof.
  apply (refresh_is_idempotent "web" [row "web" "!5"]
           (fst (run two_refreshes []))).
  - exact web_again_well_formed.
  - exact two_refreshes_inv.
  - reflexivity.
Defined.

End refresh.

Section keyed_rows.
Import mr_model samples.

Lemma update_repo_data_keyed repo_name new_items data :
  well_formed_call (repo_name, new_items) ->
  model_inv data -> Forall keyed_row data ->
  Forall keyed_row (fst (update_repo_data repo_name new_items data)).
Proof.
  intros Hcall (Hsort & _) Hkeyed.
  rewrite (update_repo_data_eq _ _ _ Hcall Hsort). cbn [fst].
  rewrite stable_sort_perm, fmap_snd_with_key.
  destruct Hcall as [Hnew _]. cbn [fst snd] in Hnew.
  apply Forall_app. split.
  - apply Forall_forall. intros x [_ Hx]%list_elem_of_filter.
    rewrite Forall_forall in Hkeyed. auto.
  - rewrite Forall_fmap. eapply Forall_impl; [exact Hnew|].
    intros x (Hr & [m Hm] & _). exists repo_name, m. cbn.
    now rewrite Hr, Hm.
Qed.

Lemma run_keyed calls : forall data,
  Forall well_formed_call calls ->
  model_inv data -> Forall keyed_row data ->
  Forall keyed_row (fst (run calls data)).
Proof.
  induction calls as [|[repo_name new_items] calls IH]; intros data Hc Hi Hk.
  - exact Hk.
  - inversion Hc as [|? ? Hc1 Hc']; subst. cbn [run].
    pose proof (update_repo_data_keyed _ _ _ Hc1 Hi Hk) as Hk1.
    destruct (update_repo_data_inv _ _ _ Hc1 Hi) as (data1 & Hrun & Hi1).
    rewrite Hrun in *. cbn [fst] in Hk1. now apply IH.
Qed.

(** X11.  Along every sequence of well-formed refreshes of a new model, each
    row of the list carries as its ['key'] its repository name and its label
    joined by a dash. *)
Theorem rows_carry_their_key
  (calls : list (string * list item)) (n : nat) :
  Forall well_formed_call calls ->
  Forall keyed_row (fst (run (take n calls) [])).
Proof.
  intros Hcalls. apply run_keyed.
  - now apply Forall_take.
  - exact model_inv_init.
  - constructor.
Qed.

Lemma rows_carry_their_key_witness :
  Forall keyed_row (fst (run (take 2 two_refreshes) [])).
Proof.
  apply (rows_carry_their_key two_refreshes 2).
  exact two_refreshes_well_formed.
Defined.

End keyed_rows.

(* ===================================================================== *)
(** ** Printing a number and reading it back *)
(* ===================================================================== *)

Section decimal_round_trip.
Import mr_model.

Lemma pretty_N_char_digit (d : N) :
  (d < 10)%N ->
  is_digit (pretty_N_char d) = true /\
  digit_value (pretty_N_char d) = Z.of_N d /\
  is_space (pretty_N_char d) = false.
Proof.
  intros Hd.
  assert (d = 0 \/ d = 1 \/ d = 2 \/ d = 3 \/ d = 4 \/ d = 5 \/ d = 6 \/
          d = 7 \/ d = 8 \/ d = 9)%N as Hcases by lia.
  repeat destruct Hcases as [-> | Hcases]; try subst d; repeat split.
Qed.

Lemma digits_pretty_N_go (x : N) :
  (0 < x)%N ->
  exists k, 0 <= k /\ forall acc b s,
    digits acc b (list_ascii_of_string (pretty_N_go x s))
    = digits (acc * 10 ^ k + Z.of_N x) true (list_ascii_of_string s).
Proof.
  induction (N.lt_wf_0 x) as [x _ IH]. intros Hx.
  assert (Hmod : (x mod 10 < 10)%N) by (apply N.mod_lt; lia).
  destruct (pretty_N_char_digit _ Hmod) as (Hdig & Hval & _).
  pose proof (N.div_mod x 10 ltac:(lia)) as Hdm.
  destruct (N.eq_dec (x / 10)%N 0%N) as [Hz|Hnz].
  - exists 1. split; [lia|]. intros acc b s.
    rewrite pretty_N_go_step by exact Hx. rewrite Hz, pretty_N_go_0.
    cbn [list_ascii_of_string digits]. rewrite Hdig, Hval. f_equal. lia.
  - destruct (IH (x / 10)%N) as (k & Hk & Hgo).
    + apply N.div_lt; lia.
    + lia.
    + exists (k + 1). split; [lia|]. intros acc b s.
      rewrite pretty_N_go_step by exact Hx. rewrite Hgo.
      cbn [list_ascii_of_string digits]. rewrite Hdig, Hval. f_equal.
      rewrite Z.pow_add_r by lia. lia.
Qed.

Lemma pretty_N_go_no_space (x : N) : forall s,
  Forall (fun c => is_space c = false) (list_ascii_of_string s) ->
  Forall (fun c => is_space c = false)
         (list_ascii_of_string (pretty_N_go x s)).
Proof.
  induction (N.lt_wf_0 x) as [x _ IH]. intros s Hs.
  destruct (N.eq_dec x 0%N) as [->|Hnz]; [now rewrite pretty_N_go_0|].
  rewrite pretty_N_go_step by lia. apply IH; [apply N.div_lt; lia|].
  cbn [list_ascii_of_string]. constructor; [|exact Hs].
  apply pretty_N_char_digit. apply N.mod_lt. lia.
Qed.

Lemma pretty_N_go_head (x : N) : forall s,
  (0 < x)%N ->
  exists d rest, (d < 10)%N /\ pretty_N_go x s = String (pretty_N_char d) rest.
Proof.
  induction (N.lt_wf_0 x) as [x _ IH]. intros s Hx.
  rewrite pretty_N_go_step by exact Hx.
  destruct (N.eq_dec (x / 10)%N 0%N) as [Hz|Hnz].
  - rewrite Hz, pretty_N_go_0. exists (x mod 10)%N, s.
    split; [apply N.mod_lt; lia | reflexivity].
  - apply IH; [apply N.div_lt; lia | now apply N.neq_0_lt_0].
Qed.

Lemma lstrip_no_space l :
  Forall (fun c => is_space c = false) l -> lstrip l = l.
Proof. destruct 1 as [|c l Hc _]; cbn; [reflexivity | now rewrite Hc]. Qed.

Lemma strip_no_space l :
  Forall (fun c => is_space c = false) l -> strip l = l.
Proof.
  intros Hl. unfold strip. rewrite (lstrip_no_space _ Hl).
  rewrite lstrip_no_space by now apply Forall_rev.
  apply rev_involutive.
Qed.

Lemma py_int_pretty_positive (p : positive) :
  py_int (pretty (Z.pos p)) = Ok (Z.pos p) /\
  py_int (pretty (Z.neg p)) = Ok (Z.neg p).
Proof.
  assert (Hp : (0 < N.pos p)%N) by lia.
  assert (Hpretty : pretty (Z.pos p) = pretty_N_go (N.pos p) "") by reflexivity.
  assert (Hneg : pretty (Z.neg p) = String "-" (pretty_N_go (N.pos p) ""))
    by reflexivity.
  pose proof (pretty_N_go_no_space (N.pos p) "" ltac:(constructor)) as Hns.
  destruct (digits_pretty_N_go _ Hp) as (k & Hk & Hgo).
  specialize (Hgo 0 false ""%string). cbn [list_ascii_of_string digits] in Hgo.
  replace (0 * 10 ^ k + Z.of_N (N.pos p)) with (Z.pos p) in Hgo by lia.
  split; unfold py_int.
  - rewrite Hpretty, (strip_no_space _ Hns).
    destruct (pretty_N_go_head (N.pos p) "" Hp) as (d & rest & Hd & Hhead).
    rewrite Hhead in Hgo |- *. cbn [list_ascii_of_string] in Hgo |- *.
    assert (d = 0 \/ d = 1 \/ d = 2 \/ d = 3 \/ d = 4 \/ d = 5 \/ d = 6 \/
            d = 7 \/ d = 8 \/ d = 9)%N as Hcases by lia.
    repeat destruct Hcases as [-> | Hcases]; try subst d;
      cbn [pretty_N_char] in Hgo |- *; now rewrite Hgo.
  - rewrite Hneg. cbn [list_ascii_of_string].
    rewrite strip_no_space by (constructor; [reflexivity | exact Hns]).
    rewrite Hgo. reflexivity.
Qed.

Lemma py_int_pretty (z : Z) : py_int (pretty z) = Ok z.
Proof. destruct z as [|p|p]; [reflexivity|..]; apply py_int_pretty_positive. Qed.

Lemma mr_number_label (z : Z) (r k : option string) f :
  mr_number {| repo := r; mr := Some ("!" ++ pretty z)%string;
               key := k; fields := f |} = Ok z.
Proof.
  pose proof (py_int_pretty z) as Hint.
  unfold mr_number. cbn [mr from_option id].
  change (tail ("!" ++ pretty z)%string) with (pretty z).
  destruct (String.eqb_spec (pretty z) "") as [Hempty|_]; [|exact Hint].
  rewrite Hempty in Hint. discriminate.
Qed.

End decimal_round_trip.

Section labels.
Import mr_model mr_status_controller.

(** X12.  Reading back with [int] the decimal text of an integer gives the
    integer: the number the model sorts a row by is the merge-request number
    the controller printed into its label. *)
Theorem int_reads_back_what_str_prints (z : Z) :
  py_int (pretty z) = Ok z /\
  mr_number {| repo := None; mr := Some ("!" ++ pretty z)%string;
               key := None; fields := [] |} = Ok z.
Proof. split; [apply py_int_pretty | apply mr_number_label]. Qed.

Lemma new_item_number repo_name r :
  mr_number (new_item repo_name r) = Ok (mr_iid (sr_mr r)).
Proof. apply mr_number_label. Qed.

Lemma new_item_key_of repo_name r :
  key_of (stamped repo_name (new_item repo_name r))
  = (repo_name, mr_iid (sr_mr r)).
Proof.
  unfold key_of. change (mr_number (stamped repo_name (new_item repo_name r)))
    with (mr_number (new_item repo_name r)).
  now rewrite new_item_number.
Qed.

(** The rows the controller builds from a batch without a repeated number
    are what the model expects. *)
Lemma new_items_well_formed repo_name repo_mrs :
  distinct_iids repo_mrs ->
  well_formed_call (repo_name, new_item repo_name <$> repo_mrs).
Proof.
  intros Hd. split; cbn [fst snd].
  - rewrite Forall_fmap. apply Forall_forall. intros r _. cbn.
    split; [reflexivity|]. split; [eauto|].
    change (is_ok (mr_number (new_item repo_name r)) = true).
    now rewrite new_item_number.
  - rewrite <- list_fmap_compose.
    change (mr ∘ new_item repo_name)
      with ((fun z => Some ("!" ++ pretty z)%string)
            ∘ (fun r => mr_iid (sr_mr r))).
    rewrite list_fmap_compose. apply NoDup_fmap_2; [|exact Hd].
    intros z1 z2 [= Heq]. now apply (inj pretty).
Qed.

Lemma py_len_take_chars s : forall n,
  py_len (take_chars n s) = Nat.min n (py_len s).
Proof.
  induction s as [|c s IH]; intros n; cbn [take_chars py_len].
  - now rewrite Nat.min_0_r.
  - destruct (is_continuation c) eqn:Hc; cbn [py_len]; rewrite ?Hc.
    + apply IH.
    + destruct n as [|n]; [reflexivity|]. cbn [py_len]. rewrite Hc, IH.
      reflexivity.
Qed.

Lemma py_len_append s1 s2 :
  py_len (s1 ++ s2)%string = (py_len s1 + py_len s2)%nat.
Proof.
  induction s1 as [|c s1 IH]; [reflexivity|].
  change (String c s1 ++ s2)%string with (String c (s1 ++ s2)%string).
  cbn [py_len]. rewrite IH. now destruct (is_continuation c).
Qed.

Lemma take_chars_prefix s : forall n,
  String.prefix (take_chars n s) s = true.
Proof.
  induction s as [|c s IH]; intros n; cbn [take_chars]; [reflexivity|].
  destruct (is_continuation c).
  - cbn [String.prefix]. rewrite IH. now destruct (ascii_dec c c).
  - destruct n as [|n]; [reflexivity|].
    cbn [String.prefix]. rewrite IH. now destruct (ascii_dec c c).
Qed.

(** X14.  The title shown has 53 characters when the title has more than 50,
    and is the title itself otherwise (so it never has more than 53): a
    longer title is shown as its first 50 characters followed by three dots,
    whatever the number of bytes its characters take. *)
Theorem display_title_is_bounded (title : string) :
  py_len (display_title title)
  = (if (50 <? py_len title)%nat then 53 else py_len title)%nat /\
  (py_len (display_title title) <= 53)%nat /\
  ((py_len title <= 50)%nat -> display_title title = title) /\
  ((50 < py_len title)%nat ->
   exists head,
     display_title title = (head ++ "...")%string /\
     py_len head = 50%nat /\
     String.prefix head title = true).
Proof.
  unfold display_title.
  destruct (Nat.ltb_spec 50 (py_len title)) as [Hlong|Hshort].
  - assert (Hlen : py_len (take_chars 50 title ++ "...")%string = 53%nat).
    { rewrite py_len_append, py_len_take_chars.
      change (py_len "...") with 3%nat. lia. }
    split; [exact Hlen|]. split; [lia|]. split; [lia|].
    intros _. exists (take_chars 50 title). split; [reflexivity|].
    split; [rewrite py_len_take_chars; lia | apply take_chars_prefix].
  - split; [reflexivity|]. split; [lia|]. split; [reflexivity | lia].
Qed.

Lemma display_title_is_bounded_witness :
  exists head,
    display_title samples.long_title = (head ++ "...")%string /\
    py_len head = 50%nat /\
    String.prefix head samples.long_title = true.
Proof.
  apply (display_title_is_bounded samples.long_title).
  apply Nat.ltb_lt. reflexivity.
Defined.

(** A title of 49 characters, nine of them of two bytes, is shown as it
    is; the longer one is cut after its fiftieth character. *)
Example accented_titles :
  String.length samples.accented_title = 58%nat /\
  py_len samples.accented_title = 49%nat /\
  display_title samples.accented_title = samples.accented_title /\
  py_len samples.long_title = 56%nat /\
  display_title samples.long_title = samples.long_title_shown.
Proof. vm_compute. auto. Qed.

End labels.

(* ===================================================================== *)
(** ** The controller: batches, rows and the end of loading *)
(* ===================================================================== *)

Section controller_batches.
Import mr_model mr_status_controller.

#[local] Set Warnings "-clear-no-such-hyp".

Variable notifier : option mr_notifier.env.
Variable repositories : list repo_config.

Lemma loading_announced_app l1 l2 :
  loading_announced (l1 ++ l2)
  = (loading_announced l1 + loading_announced l2)%nat.
Proof.
  unfold loading_announced. now rewrite List.filter_app, List.length_app.
Qed.

Lemma status_line_keeps_announcements l (t : option string) (n : Z) :
  loading_announced
    (if no_temp_status t
     then l ++ [if n =? 0 then NoOpenMergeRequests else LastUpdated n]
     else l)
  = loading_announced l.
Proof.
  destruct (no_temp_status t); [|reflexivity].
  rewrite loading_announced_app. destruct (n =? 0); cbn; lia.
Qed.

Lemma update_repo_data_step repo_name repo_mrs c :
  distinct_iids repo_mrs -> controller_inv repositories c ->
  exists c',
    update_repo_data notifier repositories repo_name repo_mrs c = (c', Ok tt) /\
    controller_inv repositories c' /\
    repos_loaded c' = {[ repo_name ]} ∪ repos_loaded c /\
    (loading c' = false <-> expected_repos repositories ⊆ repos_loaded c').
Proof.
  intros Hd (Hinv & Hlab & Hload & Hann).
  pose proof (new_items_well_formed repo_name repo_mrs Hd) as Hcall.
  destruct (update_repo_data_inv _ _ _ Hcall Hinv) as (rows' & Hrun & Hinv').
  assert (Hlab' : Forall labelled rows').
  { destruct Hinv as (Hsort & _).
    rewrite (update_repo_data_eq _ _ _ Hcall Hsort) in Hrun.
    injection Hrun as <-.
    rewrite stable_sort_perm, fmap_snd_with_key.
    apply Forall_app. split.
    - apply Forall_forall. intros x [_ Hx]%list_elem_of_filter.
      rewrite Forall_forall in Hlab. auto.
    - rewrite <- list_fmap_compose, Forall_fmap. apply Forall_forall.
      intros r _. exists repo_name, (mr_iid (sr_mr r)).
      split; [reflexivity|]. split; [reflexivity|].
      apply new_item_key_of. }
  unfold update_repo_data. rewrite Hrun.
  set (loaded := {[ repo_name ]} ∪ repos_loaded c).
  eexists. split; [reflexivity|].
  unfold controller_inv. cbn [rows loading emitted repos_loaded].
  rewrite status_line_keeps_announcements.
  destruct (loading c) eqn:Hl.
  - rewrite andb_true_r.
    destruct (decide (expected_repos repositories ⊆ loaded)) as [Hsub|Hnsub].
    + rewrite bool_decide_eq_true_2 by exact Hsub.
      rewrite loading_announced_app, Hann. cbn. naive_solver.
    + rewrite bool_decide_eq_false_2 by exact Hnsub.
      rewrite Hann. naive_solver.
  - rewrite andb_false_r.
    assert (Hsub : expected_repos repositories ⊆ loaded).
    { specialize (Hload eq_refl). unfold loaded. set_solver. }
    rewrite Hann. naive_solver.
Qed.

Lemma check_results_inv queue : forall c,
  Forall (fun b => distinct_iids (snd b)) (batches queue) ->
  controller_inv repositories c ->
  exists c',
    check_results notifier repositories queue c = (c', []) /\
    controller_inv repositories c' /\
    repos_loaded c'
    = list_to_set (fst <$> batches queue) ∪ repos_loaded c /\
    (batches queue <> [] \/
     (loading c = false <-> expected_repos repositories ⊆ repos_loaded c) ->
     (loading c' = false <-> expected_repos repositories ⊆ repos_loaded c')).
Proof.
  induction queue as [|[repo_name repo_mrs|description] queue IH];
    intros c Hq Hc; cbn [check_results batches] in *.
  - exists c. split; [reflexivity|]. split; [exact Hc|].
    split; [set_solver|]. intros [Hne|Hiff]; [congruence | exact Hiff].
  - inversion Hq as [|? ? Hd Hq']; subst. cbn [snd] in Hd.
    destruct (update_repo_data_step repo_name repo_mrs c Hd Hc)
      as (c1 & -> & Hc1 & Hloaded1 & Hiff1).
    destruct (IH c1 Hq' Hc1) as (c' & -> & Hc' & Hloaded' & Hiff').
    exists c'. split; [reflexivity|]. split; [exact Hc'|]. split.
    + rewrite Hloaded', Hloaded1. cbn [fmap list_fmap fst list_to_set].
      set_solver.
    + intros _. apply Hiff'. now right.
  - destruct (IH c Hq Hc) as (c' & -> & Hc' & Hloaded' & Hiff').
    exists c'. auto.
Qed.

(** X13.  When no batch of the queue carries a merge-request number twice,
    [check_results] on a new controller takes every message of the queue, and
    the list of the model then has no two rows with the same (repo, mr), is
    sorted, and every row is sorted by its repository name and the number of
    its merge request. *)
Theorem batches_leave_the_rows_sorted_by_number
  (queue : list message) (w : mr_notifier.world) :
  Forall (fun b => distinct_iids (snd b)) (batches queue) ->
  exists c,
    check_results notifier repositories queue (initial w) = (c, []) /\
    NoDup (repo_mr <$> rows c) /\
    StronglySorted item_le (rows c) /\
    Forall labelled (rows c).
Proof.
  intros Hq.
  assert (Hinit : controller_inv repositories (initial w)).
  { repeat split; try constructor. discriminate. }
  destruct (check_results_inv queue (initial w) Hq Hinit)
    as (c & Hrun & ((_ & Hnd & Hs) & Hlab & _) & _).
  eauto.
Qed.

(** X15.  Under the same condition and once at least one batch was taken,
    loading has ended exactly when the batches seen cover every repository
    that has a project id, and its end was announced once and only then. *)
Theorem loading_ends_when_every_repository_was_seen
  (queue : list message) (w : mr_notifier.world) :
  Forall (fun b => distinct_iids (snd b)) (batches queue) ->
  batches queue <> [] ->
  let c := fst (check_results notifier repositories queue (initial w)) in
  (loading c = false <->
   expected_repos repositories ⊆ list_to_set (fst <$> batches queue)) /\
  loading_announced (emitted c) = (if loading c then 0 else 1)%nat.
Proof.
  intros Hq Hne.
  assert (Hinit : controller_inv repositories (initial w)).
  { repeat split; try constructor. discriminate. }
  destruct (check_results_inv queue (initial w) Hq Hinit)
    as (c & Hrun & (_ & _ & _ & Hann) & Hloaded & Hiff).
  rewrite Hrun. cbn [fst]. split; [|exact Hann].
  rewrite (Hiff (or_introl Hne)), Hloaded. cbn [initial repos_loaded].
  now rewrite (right_id_L ∅ (∪)).
Qed.

End controller_batches.

Section controller_runs.
Import mr_model mr_status_controller samples.

Lemma two_batches_distinct :
  Forall (fun b => distinct_iids (snd b)) (batches two_batches).
Proof.
  repeat constructor; cbn; try (apply (bool_decide_unpack _); vm_compute; exact I).
Qed.

Lemma batches_leave_the_rows_sorted_by_number_witness :
  exists c,
    check_results None two_repositories two_batches (initial empty_world)
    = (c, []) /\
    NoDup (repo_mr <$> rows c) /\
    StronglySorted item_le (rows c) /\
    Forall labelled (rows c).
Proof.
  apply (batches_leave_the_rows_sorted_by_number None two_repositories
           two_batches empty_world).
  exact two_batches_distinct.
Defined.

Lemma loading_ends_when_every_repository_was_seen_witness :
  let c := fst (check_results None two_repositories two_batches
                  (initial empty_world)) in
  (loading c = false <->
   expected_repos two_repositories
   ⊆ list_to_set (fst <$> batches two_batches)) /\
  loading_announced (emitted c) = (if loading c then 0 else 1)%nat.
Proof.
  apply (loading_ends_when_every_repository_was_seen None two_repositories
           two_batches empty_world).
  - exact two_batches_distinct.
  - discriminate.
Defined.

(** The two batches of the example end the loading: "docs" has no project
    id and is not waited for. *)
Example two_batches_end_loading :
  let c := fst (check_results None two_repositories two_batches
                  (initial empty_world)) in
  loading c = false /\
  emitted c = [LastUpdated 2; LoadingChanged false; LastUpdated 3] /\
  (fun x => mr x) <$> rows c = [Some "!42"; Some "!3"; Some "!12"]%string.
Proof. vm_compute. auto. Qed.

End controller_runs.

(* ===================================================================== *)
(** ** The notifier from one day to the next *)
(* ===================================================================== *)

Section notification_days.
Import mr_notifier.

Lemma digit_char_inj n1 n2 :
  digit_char n1 = digit_char n2 -> (n1 mod 10 = n2 mod 10)%nat.
Proof.
  unfold digit_char. intros H. apply (f_equal nat_of_ascii) in H.
  pose proof (Nat.mod_upper_bound n1 10 ltac:(lia)).
  pose proof (Nat.mod_upper_bound n2 10 ltac:(lia)).
  rewrite !nat_ascii_embedding in H by lia. lia.
Qed.

Lemma decimal2 (y : nat) :
  Z.of_nat y <= 99 -> y = (10 * ((y / 10) mod 10) + y mod 10)%nat.
Proof.
  intros Hy.
  pose proof (Nat.div_mod_eq y 10).
  pose proof (Nat.div_mod_eq (y / 10) 10).
  pose proof (Nat.mod_upper_bound y 10).
  pose proof (Nat.mod_upper_bound (y / 10) 10).
  generalize dependent (y mod 10)%nat.
  generalize dependent ((y / 10) mod 10)%nat.
  generalize dependent (y / 10 / 10)%nat.
  generalize dependent (y / 10)%nat.
  intros. lia.
Qed.

Lemma decimal4 (y : nat) :
  Z.of_nat y <= 9999 ->
  y = (1000 * ((y / 1000) mod 10) + 100 * ((y / 100) mod 10)
       + 10 * ((y / 10) mod 10) + y mod 10)%nat.
Proof.
  intros Hy.
  replace (y / 1000)%nat with (y / 10 / 10 / 10)%nat
    by (rewrite !Nat.Div0.div_div; reflexivity).
  replace (y / 100)%nat with (y / 10 / 10)%nat
    by (rewrite !Nat.Div0.div_div; reflexivity).
  pose proof (Nat.div_mod_eq y 10).
  pose proof (Nat.div_mod_eq (y / 10) 10).
  pose proof (Nat.div_mod_eq (y / 10 / 10) 10).
  pose proof (Nat.div_mod_eq (y / 10 / 10 / 10) 10).
  pose proof (Nat.mod_upper_bound y 10).
  pose proof (Nat.mod_upper_bound (y / 10) 10).
  pose proof (Nat.mod_upper_bound (y / 10 / 10) 10).
  pose proof (Nat.mod_upper_bound (y / 10 / 10 / 10) 10).
  generalize dependent (y mod 10)%nat.
  generalize dependent ((y / 10) mod 10)%nat.
  generalize dependent ((y / 10 / 10) mod 10)%nat.
  generalize dependent ((y / 10 / 10 / 10) mod 10)%nat.
  generalize dependent (y / 10 / 10 / 10 / 10)%nat.
  generalize dependent (y / 10 / 10 / 10)%nat.
  generalize dependent (y / 10 / 10)%nat.
  generalize dependent (y / 10)%nat.
  intros. lia.
Qed.

(** Two dates of the calendar with the same text are the same date. *)
Lemma isoformat_inj d1 d2 :
  valid_date d1 -> valid_date d2 -> isoformat d1 = isoformat d2 -> d1 = d2.
Proof.
  intros (Hy1 & Hm1 & Hd1) (Hy2 & Hm2 & Hd2). unfold isoformat.
  intros [= Ya Yb Yc Yd Ma Mb Da Db].
  apply digit_char_inj in Ya, Yb, Yc, Yd, Ma, Mb, Da, Db.
  destruct d1 as [y1 m1 day1], d2 as [y2 m2 day2]. cbn [year month day] in *.
  f_equal.
  - rewrite (decimal4 y1), (decimal4 y2) by lia. unfold Nat.div. congruence.
  - rewrite (decimal2 m1), (decimal2 m2) by lia. unfold Nat.div. congruence.
  - rewrite (decimal2 day1), (decimal2 day2) by lia. unfold Nat.div. congruence.
Qed.

(** X16.  A marker that was written holds for its day and for no other, if
    it can be read: after [_mark_notified] whose write goes through,
    [_should_notify] answers [False] for the key on a date of the calendar
    exactly when the marker can be read back and that date is the date of
    the write. *)
Theorem marker_lasts_for_its_day
  (e1 e2 : env) (mr_key : string) (w : world) :
  valid_date (today e1) -> valid_date (today e2) ->
  can_write e1 (_get_notification_date_file mr_key) = true ->
  (_should_notify e2 mr_key (fst (_mark_notified e1 mr_key w)) = false
   <-> can_read e1 (_get_notification_date_file mr_key) = true /\
       today e2 = today e1).
Proof.
  intros Hv1 Hv2 Hwrite.
  unfold _mark_notified, _should_notify, written_marker.
  rewrite Hwrite. cbn [fst files]. rewrite lookup_insert_eq.
  destruct (can_read e1 _).
  - rewrite isoformat_stripped. split.
    + intros Heq. apply negb_false_iff, String.eqb_eq in Heq.
      split; [reflexivity|]. symmetry. now apply isoformat_inj.
    + intros [_ ->]. now rewrite String.eqb_refl.
  - split; [discriminate | now intros [? _]].
Qed.

(** X17.  Once a message for a record was sent and its marker written, and
    the marker can be read back, the gate leaves the record alone for the
    rest of the day: another evaluation on that date returns [False] and
    changes nothing, whatever the tokens and the remote systems are by
    then. *)
Theorem notified_record_is_left_alone
  (e1 e2 : env) (d : mr_data) (w w1 : world) :
  process_mr_for_notification e1 d w = (w1, true) ->
  can_write e1 (_get_notification_date_file (key_of_record d)) = true ->
  can_read e1 (_get_notification_date_file (key_of_record d)) = true ->
  today e2 = today e1 ->
  process_mr_for_notification e2 d w1 = (w1, false).
Proof.
  intros Hrun Hwrite Hread Hday.
  destruct (process_evaluation _ _ _ _ _ Hrun) as (r & Hev & Hsent).
  assert (Hr : r = Ok true) by now apply Hsent.
  assert (Hfiles : files w1 = marked_files e1 (key_of_record d) w).
  { destruct Hev as [? ? ? ? Hne|? ? ? ? ? Hr'|? ? ? ? ? ? Hr'|? ? ? ? ? Hf ?];
      [now destruct Hne | congruence | congruence | exact Hf]. }
  pose proof (marked_today _ e2 _ _ _ Hwrite Hread Hfiles Hday) as Hgate.
  revert Hrun Hgate. unfold process_mr_for_notification, evaluate, key_of_record.
  destruct (mr d) as [m|]; [|discriminate].
  destruct (iid m) as [mr_iid|]; [|discriminate].
  intros _ ->. reflexivity.
Qed.

(** An evaluation writes no file but the marker of its key. *)
Lemma process_keeps_other_files e d w w' sent path :
  process_mr_for_notification e d w = (w', sent) ->
  path <> _get_notification_date_file (key_of_record d) ->
  files w' !! path = files w !! path.
Proof.
  intros Hrun Hother.
  destruct (process_evaluation _ _ _ _ _ Hrun) as (r & Hev & _).
  assert (Hm : marked_files e (key_of_record d) w !! path = files w !! path).
  { unfold marked_files. destruct (can_write e _); [|reflexivity].
    now rewrite lookup_insert_ne by congruence. }
  destruct Hev as [? ? ? Hf ?|? ? ? ? Hf ?|? ? ? ? ? Hf ?|? ? ? ? ? Hf ?];
    rewrite Hf; auto.
Qed.

(** X18.  An evaluation touches the marker of its own key only: for every
    key whose marker file is another one, [_should_notify] answers after the
    evaluation what it answered before. *)
Theorem other_markers_are_untouched
  (e e' : env) (d : mr_data) (w w' : world) (sent : bool) (other : string) :
  process_mr_for_notification e d w = (w', sent) ->
  _get_notification_date_file other
  <> _get_notification_date_file (key_of_record d) ->
  _should_notify e' other w' = _should_notify e' other w.
Proof.
  intros Hrun Hother. unfold _should_notify.
  now rewrite (process_keeps_other_files _ _ _ _ _ _ Hrun Hother).
Qed.

End notification_days.

Section notification_days_runs.
Import mr_notifier samples.

Lemma a_day_valid : valid_date a_day.
Proof. repeat split; vm_compute; discriminate. Qed.

Lemma marker_lasts_for_its_day_witness :
  _should_notify (surroundings false false) "app-42"
    (fst (_mark_notified (surroundings true true) "app-42" empty_world))
  = false
  <-> can_read (surroundings true true)
        (_get_notification_date_file "app-42") = true /\
      today (surroundings false false) = today (surroundings true true).
Proof.
  apply (marker_lasts_for_its_day (surroundings true true)
           (surroundings false false) "app-42" empty_world).
  - exact a_day_valid.
  - exact a_day_valid.
  - reflexivity.
Defined.

(** A marker that takes the write and cannot be read is due the same day,
    whatever it held before. *)
Example write_only_marker_is_due :
  _should_notify write_only "app-42"
    (fst (_mark_notified write_only "app-42" unreadable_world)) = true.
Proof. reflexivity. Qed.

Lemma notified_record_is_left_alone_witness :
  process_mr_for_notification (surroundings false false)
    (record_42 false (Some 7))
    (fst (process_mr_for_notification (surroundings true true)
            (record_42 false (Some 7)) empty_world))
  = (fst (process_mr_for_notification (surroundings true true)
            (record_42 false (Some 7)) empty_world), false).
Proof.
  apply (notified_record_is_left_alone (surroundings true true)
           (surroundings false false) (record_42 false (Some 7)) empty_world).
  - vm_compute. reflexivity.
  - reflexivity.
  - reflexivity.
  - reflexivity.
Defined.

Lemma other_markers_are_untouched_witness :
  _should_notify (surroundings true true) "web-3"
    (fst (process_mr_for_notification (surroundings true true)
            (record_42 false (Some 7)) empty_world))
  = _should_notify (surroundings true true) "web-3" empty_world.
Proof.
  apply (other_markers_are_untouched (surroundings true true)
           (surroundings true true) (record_42 false (Some 7)) empty_world
           _ (snd (process_mr_for_notification (surroundings true true)
                     (record_42 false (Some 7)) empty_world)) "web-3").
  - apply surjective_pairing.
  - vm_compute. discriminate.
Defined.

End notification_days_runs.

(* ===================================================================== *)
(** ** The notifier: names, reviewers and counts *)
(* ===================================================================== *)

Section notification_details.
Import mr_notifier.

Ltac step_action :=
  unfold mbind, action_bind, mret, action_ret, raise, record; cbn [fst snd].

(** **** The cache of names *)

Lemma _get_slack_user_id_cached e person_name w v :
  person_cache w !! person_name = Some v ->
  _get_slack_user_id e person_name w = (w, Ok v).
Proof. unfold _get_slack_user_id. now intros ->. Qed.

Lemma _get_slack_user_id_remembers e person_name w :
  token_present (slack_token e) = true ->
  users_list e person_name <> LookupFailed ->
  exists w1 r,
    _get_slack_user_id e person_name w = (w1, Ok r) /\
    person_cache w1 !! person_name = Some r /\
    (forall a v, person_cache w !! a = Some v ->
                 person_cache w1 !! a = Some v).
Proof.
  intros Htoken Hlook. unfold _get_slack_user_id.
  destruct (person_cache w !! person_name) as [v|] eqn:Hc.
  - exists w, v. auto.
  - rewrite Htoken.
    destruct (users_list e person_name) as [user_id| |]; [| |congruence];
      (eexists _, _; split; [reflexivity|]; cbn [fst remember person_cache];
       split; [apply lookup_insert_eq|];
       intros a v Ha; rewrite lookup_insert_ne; [exact Ha | congruence]).
Qed.

Lemma mentions_of_again e assignees : forall w,
  token_present (slack_token e) = true ->
  Forall (fun a => users_list e a <> LookupFailed) assignees ->
  exists w1 mentions,
    mentions_of e assignees w = (w1, Ok mentions) /\
    (forall a v, person_cache w !! a = Some v ->
                 person_cache w1 !! a = Some v) /\
    forall e' w2,
      (forall a v, person_cache w1 !! a = Some v ->
                   person_cache w2 !! a = Some v) ->
      mentions_of e' assignees w2 = (w2, Ok mentions).
Proof.
  induction assignees as [|a rest IH]; intros w Htoken Hall.
  - exists w, []. repeat split; auto.
  - inversion Hall as [|? ? Ha Hrest]; subst.
    destruct (_get_slack_user_id_remembers e a w Htoken Ha)
      as (wa & r & Hget & Hcached & Hmono_a).
    destruct (IH wa Htoken Hrest) as (w1 & mentions & Hrun & Hmono & Hagain).
    eexists w1, _. split; [|split].
    + cbn [mentions_of]. step_action. rewrite Hget, Hrun. reflexivity.
    + auto.
    + intros e' w2 Hsub. cbn [mentions_of]. step_action.
      rewrite (_get_slack_user_id_cached e' a w2 r) by auto.
      now rewrite (Hagain e' w2 Hsub).
Qed.

(** X19.  Names are looked up once.  When a message was formatted with the
    chat token present and no lookup failing, formatting it again gives the
    same text and changes nothing, whatever the chat system would answer by
    then: every name, found or not, is taken from the cache. *)
Theorem a_message_is_formatted_from_the_cache
  (e e' : env) (d : mr_data) (assignees : list string) (w w1 : world)
  (r : result string) :
  token_present (slack_token e) = true ->
  Forall (fun a => users_list e a <> LookupFailed) assignees ->
  _format_notification_message e d assignees w = (w1, r) ->
  _format_notification_message e' d assignees w1 = (w1, r).
Proof.
  intros Htoken Hall. unfold _format_notification_message.
  destruct (mr d) as [m|]; [|now intros [= <- <-]].
  destruct (web_url m) as [mr_url|]; [|now intros [= <- <-]].
  step_action.
  destruct (mentions_of_again e assignees w Htoken Hall)
    as (w1' & mentions & Hrun & _ & Hagain).
  rewrite Hrun. intros [= <- <-].
  now rewrite (Hagain e' w1' (fun a v H => H)).
Qed.

(** **** The request for the coverage reviewers *)

Lemma _check_and_add_coverage_reviewers_cases e pid mr_iid d w :
  (coverage_due e d /\
   _check_and_add_coverage_reviewers e pid mr_iid d w
   = ({| files := files w; person_cache := person_cache w;
         history := history w ++ [ReviewersRequested pid mr_iid] |},
      Ok (add_reviewers e pid mr_iid))) \/
  (~ coverage_due e d /\
   _check_and_add_coverage_reviewers e pid mr_iid d w = (w, Ok false)).
Proof.
  unfold _check_and_add_coverage_reviewers.
  destruct (approval_status d) as [a|] eqn:Ha.
  2:{ right. split; [|now destruct (pipeline_status d)].
      intros (? & ? & ? & ? & ? & _). congruence. }
  destruct (pipeline_status d) as [p|] eqn:Hp.
  2:{ right. split; [|reflexivity].
      intros (? & ? & ? & ? & _ & ? & _). congruence. }
  destruct (eq_str p "success") eqn:Hs.
  2:{ right. split; [|reflexivity].
      intros (? & ? & ? & ? & _ & ? & ? & _). congruence. }
  destruct (get a "approved_except_coverage" (JBool false)) as [x|err] eqn:Hx.
  2:{ right. split; [|reflexivity].
      intros (? & ? & ? & ? & ? & _ & _ & ? & _). congruence. }
  destruct (truthy x) eqn:Htx.
  2:{ right. split; [|reflexivity].
      intros (? & ? & ? & ? & ? & _ & _ & ? & ? & _). congruence. }
  destruct (get a "needs_coverage_check" (JBool false)) as [y|err] eqn:Hy.
  2:{ right. split; [|reflexivity].
      intros (? & ? & ? & ? & ? & _ & _ & _ & _ & ? & _). congruence. }
  destruct (truthy y) eqn:Hty; cbn [andb].
  2:{ right. split; [|reflexivity].
      intros (? & ? & ? & ? & ? & _ & _ & _ & _ & ? & ? & _). congruence. }
  destruct (token_present (gitlab_token e)) eqn:Htoken.
  2:{ right. split; [|reflexivity].
      intros (? & ? & ? & ? & _ & _ & _ & _ & _ & _ & _ & ?). congruence. }
  left. split; [|reflexivity].
  exists a, p, x, y. repeat split; assumption.
Qed.

(** After the check of the coverage reviewers, the gate only posts and
    marks. *)
Lemma notify_pending_history e d mr_key pid mr_iid w w' r :
  notify_pending e d mr_key pid mr_iid w = (w', r) ->
  exists w1 b rest,
    _check_and_add_coverage_reviewers e pid mr_iid d w = (w1, Ok b) /\
    history w' = history w1 ++ rest /\
    Forall (fun ev => ~ is_request ev) rest.
Proof.
  unfold notify_pending. unfold mbind at 1, action_bind at 1.
  destruct (_check_and_add_coverage_reviewers_spec e pid mr_iid d w)
    as (w1 & b & pre & Hcheck & _). rewrite Hcheck.
  intros Hrun. exists w1, b. revert Hrun.
  unfold mbind at 1, action_bind at 1.
  destruct (assignees_and_approvals e pid mr_iid) as [[assignees approved]|err].
  2:{ intros [= <- <-]. exists []. rewrite app_nil_r. repeat split. constructor. }
  assert (Hmarked : forall w2 r2,
    (_ ← _mark_notified e mr_key; mret false) w1 = (w2, r2) ->
    exists rest, (w1, Ok b) = (w1, Ok b : result bool) /\
                 history w2 = history w1 ++ rest /\
                 Forall (fun ev => ~ is_request ev) rest).
  { intros w2 r2. step_action.
    destruct (_mark_notified_spec e mr_key w1) as (w3 & -> & Hh3 & _).
    intros [= <- <-]. eexists. split; [reflexivity|]. split; [exact Hh3|].
    repeat constructor. intros []. }
  destruct assignees as [|a assignees]; [apply Hmarked|].
  destruct (List.filter _ (a :: assignees)) as [|p pending]; [apply Hmarked|].
  unfold mbind at 1, action_bind at 1.
  destruct (_format_notification_message_spec e d (p :: pending) w1)
    as (w2 & rm & -> & Hh2 & _).
  destruct rm as [message|err].
  2:{ intros [= <- <-]. exists []. rewrite app_nil_r. repeat split; auto. }
  unfold mbind at 1, action_bind at 1.
  destruct (_send_slack_message_spec e message w2)
    as [->|(w3 & confirmed & -> & Hh3 & _)].
  { step_action. intros [= <- <-]. exists []. rewrite app_nil_r.
    repeat split; auto. }
  destruct confirmed.
  - step_action.
    destruct (_mark_notified_spec e mr_key w3) as (w4 & -> & Hh4 & _).
    intros [= <- <-]. exists [Posted message true; mark_event e mr_key].
    split; [reflexivity|]. split.
    + rewrite Hh4, Hh3, Hh2. now rewrite <- app_assoc.
    + repeat constructor; intros [].
  - step_action. intros [= <- <-]. exists [Posted message false].
    split; [reflexivity|]. split; [congruence|].
    repeat constructor. intros [].
Qed.

(** X20.  The coverage reviewers are requested for a merge request exactly
    when the record has a number and a project id, its key is due, it is not
    approved by all, its pipeline passed, every rule but the coverage rule is
    satisfied, the coverage rule is not, and there is an upstream token. *)
Theorem reviewers_are_requested_for_coverage_only
  (e : env) (d : mr_data) (w w' : world) (sent : bool)
  (events : list event) (p i : Z) :
  process_mr_for_notification e d w = (w', sent) ->
  history w' = history w ++ events ->
  (In (ReviewersRequested p i) events <->
   (exists m, mr d = Some m /\ iid m = Some i) /\
   project_id d = Some p /\
   _should_notify e (key_of_record d) w = true /\
   approved_by_all_of d = Ok false /\
   coverage_due e d).
Proof.
  intros Hrun Hevents.
  assert (Hsame : w' = w ->
            (In (ReviewersRequested p i) events <-> False)).
  { intros ->. rewrite <- (app_nil_r (history w)) in Hevents at 1.
    apply app_inv_head in Hevents. subst events. reflexivity. }
  revert Hrun. unfold process_mr_for_notification, evaluate, key_of_record.
  destruct (mr d) as [m|] eqn:Hm.
  2:{ intros [= <- _]. rewrite Hsame by reflexivity.
      split; [intros [] | intros ((? & ? & _) & _); discriminate]. }
  destruct (iid m) as [mr_iid|] eqn:Hi.
  2:{ intros [= <- _]. rewrite Hsame by reflexivity.
      split; [intros [] | intros ((? & ? & ?) & _); congruence]. }
  destruct (_should_notify e _ w) eqn:Hgate; cbn [negb].
  2:{ intros [= <- _]. rewrite Hsame by reflexivity.
      split; [intros [] | intros (_ & _ & ? & _); discriminate]. }
  destruct (project_id d) as [pid|] eqn:Hp.
  2:{ intros [= <- _]. rewrite Hsame by reflexivity.
      split; [intros [] | intros (_ & ? & _); discriminate]. }
  destruct (approved_by_all_of d) as [[|]|err] eqn:Hall.
  - step_action.
    destruct (_mark_notified_spec e (mr_key_of (repo_name d) mr_iid) w)
      as (w1 & -> & Hh & _).
    intros [= <- _]. rewrite Hh in Hevents. apply app_inv_head in Hevents.
    subst events. split.
    + intros [Hbad|[]]. discriminate.
    + intros (_ & _ & _ & ? & _). discriminate.
  - destruct (notify_pending e d _ pid mr_iid w) as [w2 r] eqn:Hpending.
    intros Hrun. assert (w2 = w') by (destruct r; congruence). subst w2.
    destruct (notify_pending_history _ _ _ _ _ _ _ _ Hpending)
      as (w1 & b & rest & Hcheck & Hh & Hrest).
    assert (Hnot : ~ In (ReviewersRequested p i) rest).
    { intros Hin. rewrite Forall_forall in Hrest.
      apply list_elem_of_In in Hin. now apply (Hrest _ Hin). }
    destruct (_check_and_add_coverage_reviewers_cases e pid mr_iid d w)
      as [[Hdue Heq]|[Hdue Heq]]; rewrite Heq in Hcheck;
      injection Hcheck as <- _.
    + cbn [history] in Hh. rewrite Hevents, <- app_assoc in Hh.
      apply app_inv_head in Hh. subst events. cbn [app In]. split.
      * intros [[= <- <-]|Hin]; [|contradiction]. eauto 10.
      * intros ((m' & [= <-] & Hi') & [= <-] & _). left. congruence.
    + rewrite Hevents in Hh. apply app_inv_head in Hh. subst events.
      split; [contradiction|]. intros (_ & _ & _ & _ & ?). contradiction.
  - intros [= <- _]. rewrite Hsame by reflexivity.
    split; [intros [] | intros (_ & _ & _ & ? & _); discriminate].
Qed.

(** **** Nobody left to remind *)

Lemma filter_all_approved (approved assignees : list string) :
  Forall (fun a => In a approved) assignees ->
  List.filter (fun assignee => negb (existsb (String.eqb assignee) approved))
              assignees = [].
Proof.
  induction 1 as [|a l Ha _ IH]; [reflexivity|]. cbn [List.filter].
  assert (Hex : existsb (String.eqb a) approved = true).
  { apply existsb_exists. exists a. split; [exact Ha | apply String.eqb_refl]. }
  now rewrite Hex.
Qed.

(** X21.  When the upstream names no assignee, or every assignee it names
    has approved, the gate posts nothing: it writes the marker of the key and
    returns [False], so that the key is not looked at again that day. *)
Theorem nobody_pending_is_marked_silently
  (e : env) (d : mr_data) (w : world) (m : merge_request) (mr_iid pid : Z)
  (assignees approved : list string) :
  mr d = Some m -> iid m = Some mr_iid -> project_id d = Some pid ->
  approved_by_all_of d = Ok false ->
  _should_notify e (key_of_record d) w = true ->
  assignees_and_approvals e pid mr_iid = Ok (assignees, approved) ->
  Forall (fun a => In a approved) assignees ->
  exists w' pre,
    process_mr_for_notification e d w = (w', false) /\
    Forall quiet pre /\
    history w' = history w ++ pre ++ [mark_event e (key_of_record d)] /\
    messages_sent (history w') = messages_sent (history w) /\
    files w' = marked_files e (key_of_record d) w.
Proof.
  intros Hm Hi Hp Hall Hgate Hfetch Hnone.
  unfold key_of_record in *. rewrite Hm, Hi in *.
  unfold process_mr_for_notification, evaluate.
  rewrite Hm, Hi, Hgate, Hp, Hall. cbn [negb].
  unfold notify_pending. unfold mbind at 1, action_bind at 1.
  destruct (_check_and_add_coverage_reviewers_spec e pid mr_iid d w)
    as (w1 & b & pre & -> & Hq & Hh1 & Hf1).
  unfold mbind at 1, action_bind at 1. rewrite Hfetch.
  assert (Hmarked : exists w',
    (_ ← _mark_notified e (mr_key_of (repo_name d) mr_iid); mret false) w1
    = (w', Ok false) /\
    history w' = history w ++ pre ++ [mark_event e (mr_key_of (repo_name d) mr_iid)] /\
    files w' = marked_files e (mr_key_of (repo_name d) mr_iid) w).
  { step_action.
    destruct (_mark_notified_spec e (mr_key_of (repo_name d) mr_iid) w1)
      as (w2 & -> & Hh2 & Hf2).
    exists w2. split; [reflexivity|]. split.
    - rewrite Hh2, Hh1. now rewrite <- app_assoc.
    - rewrite Hf2. unfold marked_files. now rewrite Hf1. }
  destruct Hmarked as (w' & Hrun & Hh & Hf).
  exists w', pre.
  assert (Hcount : messages_sent (history w') = messages_sent (history w)).
  { rewrite Hh, !messages_sent_app, (messages_sent_quiet _ Hq). cbn. lia. }
  destruct assignees as [|a assignees].
  - rewrite Hrun. auto.
  - rewrite (filter_all_approved _ _ Hnone). rewrite Hrun. auto.
Qed.

(** **** Counting the messages of a list *)

Lemma process_count e d w w' sent :
  process_mr_for_notification e d w = (w', sent) ->
  messages_sent (history w')
  = (messages_sent (history w) + if sent then 1 else 0)%nat.
Proof.
  intros Hrun.
  destruct (process_evaluation _ _ _ _ _ Hrun) as (r & Hev & Hsent).
  assert (Hfalse : r <> Ok true -> sent = false).
  { intros Hr. destruct sent; [|reflexivity]. now destruct Hr; apply Hsent. }
  destruct Hev as [pre Hq Hh _ Hr|pre Hq _ Hh _ Hr|pre m Hq _ Hh _ Hr
                  |pre m Hq _ Hh _ Hr];
    rewrite Hh, ?messages_sent_app, (messages_sent_quiet _ Hq); cbn.
  - rewrite Hfalse by exact Hr. lia.
  - rewrite Hfalse by (rewrite Hr; discriminate). lia.
  - rewrite Hfalse by (rewrite Hr; discriminate). lia.
  - apply Hsent in Hr. rewrite Hr. lia.
Qed.

Lemma process_each_count e mr_list : forall n w,
  Z.of_nat (messages_sent (history (fst (process_each e mr_list n w))))
  = Z.of_nat (messages_sent (history w))
    + (snd (process_each e mr_list n w) - n) /\
  n <= snd (process_each e mr_list n w) <= n + Z.of_nat (List.length mr_list).
Proof.
  induction mr_list as [|d rest IH]; intros n w; cbn [process_each fst snd].
  - cbn. lia.
  - destruct (process_mr_for_notification e d w) as [w1 sent] eqn:Hrun.
    pose proof (process_count _ _ _ _ _ Hrun) as Hcount.
    destruct (IH (if sent then n + 1 else n) w1) as (Hsum & Hlo & Hhi).
    rewrite Hsum, Hcount. cbn [List.length]. destruct sent; lia.
Qed.

(** X22.  The number [process_mr_list] returns is the number of messages the
    chat system confirmed during the call, and it is at most the number of
    records of the list. *)
Theorem process_mr_list_counts_the_messages
  (e : env) (mr_list : list mr_data) (w : world) :
  Z.of_nat (messages_sent (history (fst (process_mr_list e mr_list w))))
  = Z.of_nat (messages_sent (history w)) + snd (process_mr_list e mr_list w) /\
  0 <= snd (process_mr_list e mr_list w) <= Z.of_nat (List.length mr_list).
Proof.
  unfold process_mr_list. destruct mr_list as [|d rest].
  - cbn. lia.
  - destruct (process_each_count e (d :: rest) 0 w) as (Hsum & Hlo & Hhi).
    rewrite Hsum. lia.
Qed.

End notification_details.

Section notification_details_runs.
Import mr_notifier samples.

Lemma a_message_is_formatted_from_the_cache_witness :
  let first :=
    _format_notification_message (surroundings true true)
      (record_42 false (Some 7)) ["Bob"] empty_world in
  _format_notification_message (surroundings false false)
    (record_42 false (Some 7)) ["Bob"] (fst first)
  = (fst first, snd first).
Proof.
  apply (a_message_is_formatted_from_the_cache (surroundings true true)
           (surroundings false false) (record_42 false (Some 7)) ["Bob"]
           empty_world).
  - reflexivity.
  - repeat constructor; discriminate.
  - apply surjective_pairing.
Defined.

Lemma reviewers_are_requested_for_coverage_only_witness :
  let run := process_mr_for_notification bob_approved record_42_coverage
               empty_world in
  In (ReviewersRequested 7 42) (history (fst run)) <->
  (exists m, mr record_42_coverage = Some m /\ iid m = Some 42) /\
  project_id record_42_coverage = Some 7 /\
  _should_notify bob_approved (key_of_record record_42_coverage) empty_world
  = true /\
  approved_by_all_of record_42_coverage = Ok false /\
  coverage_due bob_approved record_42_coverage.
Proof.
  apply (reviewers_are_requested_for_coverage_only bob_approved
           record_42_coverage empty_world
           (fst (process_mr_for_notification bob_approved record_42_coverage
                   empty_world))
           (snd (process_mr_for_notification bob_approved record_42_coverage
                   empty_world))).
  - apply surjective_pairing.
  - reflexivity.
Defined.

(** In that run the reviewers are requested, and nothing is posted. *)
Example coverage_reviewers_requested :
  history (fst (process_mr_for_notification bob_approved record_42_coverage
                  empty_world))
  = [ReviewersRequested 7 42; Marked "notified_app-42.date" true].
Proof. vm_compute. reflexivity. Qed.

Lemma nobody_pending_is_marked_silently_witness :
  exists w' pre,
    process_mr_for_notification bob_approved (record_42 false (Some 7))
      empty_world = (w', false) /\
    Forall quiet pre /\
    history w'
    = history empty_world ++ pre
      ++ [mark_event bob_approved (key_of_record (record_42 false (Some 7)))] /\
    messages_sent (history w') = messages_sent (history empty_world) /\
    files w'
    = marked_files bob_approved (key_of_record (record_42 false (Some 7)))
        empty_world.
Proof.
  apply (nobody_pending_is_marked_silently bob_approved
           (record_42 false (Some 7)) empty_world mr_42 42 7 ["Bob"] ["Bob"]).
  - reflexivity.
  - reflexivity.
  - reflexivity.
  - reflexivity.
  - reflexivity.
  - reflexivity.
  - repeat constructor.
Defined.

End notification_details_runs.

(* ===================================================================== *)
(** ** The controller: what is handed to the gate, and the pills *)
(* ===================================================================== *)

Section controller_notifications.
Import mr_notifier mr_status_controller.

Lemma notify_each_count e pid repo_mrs : forall w,
  (messages_sent (history (notify_each e pid repo_mrs w))
   <= messages_sent (history w)
      + List.length (List.filter reaches_gate repo_mrs))%nat.
Proof.
  induction repo_mrs as [|r rest IH]; intros w; cbn [notify_each List.filter].
  - lia.
  - destruct (reaches_gate r).
    + destruct (process_mr_for_notification e (notification_data pid r) w)
        as [w1 sent] eqn:Hrun.
      pose proof (process_count _ _ _ _ _ Hrun) as Hcount.
      specialize (IH w1). cbn [fst List.length]. destruct sent; lia.
    + apply IH.
Qed.

Lemma notify_each_skips e pid repo_mrs : forall w,
  Forall (fun r => reaches_gate r = false) repo_mrs ->
  notify_each e pid repo_mrs w = w.
Proof.
  induction 1 as [|r rest Hr _ IH]; cbn [notify_each]; [reflexivity|].
  now rewrite Hr.
Qed.

(** X23.  [check_for_notifications] sends at most one message for each
    record of the batch whose pipeline passed and that has no conflict; and
    it does nothing at all without a notifier, when the repository has no
    project id (or the id 0), or when no record of the batch is such a
    record. *)
Theorem notifications_are_for_passing_records
  (notifier : option env) (repositories : list repo_config)
  (repo_name : string) (repo_mrs : list status_record) (w : world) :
  let w' :=
    check_for_notifications notifier repositories repo_name repo_mrs w in
  (messages_sent (history w')
   <= messages_sent (history w)
      + List.length (List.filter reaches_gate repo_mrs))%nat /\
  (notifier = None \/
   project_id_of repositories repo_name = None \/
   project_id_of repositories repo_name = Some 0 \/
   Forall (fun r => reaches_gate r = false) repo_mrs ->
   w' = w).
Proof.
  unfold check_for_notifications. cbn zeta.
  destruct notifier as [e|]; [|split; [lia | reflexivity]].
  destruct (project_id_of repositories repo_name) as [pid|];
    [|split; [lia | reflexivity]].
  destruct (Z.eqb_spec pid 0) as [->|Hpid]; [split; [lia | reflexivity]|].
  split; [apply notify_each_count|].
  intros [Hn|[Hn|[Hn|Hnone]]]; try discriminate.
  - congruence.
  - now apply notify_each_skips.
Qed.

(** **** The pills *)

Lemma other_pills_colors ps pu ms ut p :
  In p (pipeline_pills ps pu ++ conflict_pills ms ++ thread_pills ut) ->
  color p <> "#4CAF50"%string /\ color p <> "#00BCD4"%string.
Proof.
  unfold pipeline_pills, conflict_pills, thread_pills.
  repeat case_match; cbn [app In];
    intros Hin; repeat (destruct Hin as [<-|Hin]; [split; discriminate|]);
    destruct Hin.
Qed.

(** X24.  The approval pills of a row follow the approvals: the row shows
    "Approved" exactly when every rule, or every rule but the coverage rule,
    is satisfied, and "Coverage" exactly when not every rule is satisfied and
    the coverage rule is among those that are not; a row has at most five
    pills. *)
Theorem pills_follow_the_approvals
  (pipeline_status pipeline_url : json) (merge_status : string)
  (unresolved_threads : Z) (a : gitlab_api.approval_status) :
  let status_pills :=
    _build_status_pills pipeline_status pipeline_url merge_status
      unresolved_threads a in
  (In approved_pill status_pills <->
   truthy (gitlab_api.approved_by_all a) = true \/
   gitlab_api.approved_except_coverage a = true) /\
  (In coverage_pill status_pills <->
   truthy (gitlab_api.approved_by_all a) = false /\
   gitlab_api.needs_coverage_check a = true) /\
  (List.length status_pills <= 5)%nat.
Proof.
  cbn zeta. unfold _build_status_pills.
  pose proof (other_pills_colors pipeline_status pipeline_url merge_status
                unresolved_threads) as Hothers.
  rewrite !app_assoc, <- (app_assoc (pipeline_pills _ _)).
  set (others := pipeline_pills _ _ ++ conflict_pills _ ++ thread_pills _) in *.
  assert (Hlen : (List.length others <= 3)%nat).
  { unfold others, pipeline_pills, conflict_pills, thread_pills.
    repeat case_match; cbn; lia. }
  assert (Hno_a : ~ In approved_pill others)
    by (intros Hin; now destruct (Hothers _ Hin) as [Hc _]).
  assert (Hno_c : ~ In coverage_pill others)
    by (intros Hin; now destruct (Hothers _ Hin) as [_ Hc]).
  rewrite !in_app_iff, length_app. unfold approval_pills.
  destruct (truthy (gitlab_api.approved_by_all a)),
           (gitlab_api.approved_except_coverage a),
           (gitlab_api.needs_coverage_check a); cbn [andb negb In List.length];
    (split; [|split; [|lia]]); split;
    try (intros [H|H]; [contradiction|]);
    intuition (try discriminate; auto).
Qed.

End controller_notifications.

(* ===================================================================== *)
(** ** Assignees and approvals *)
(* ===================================================================== *)

Section assignees_and_approvals.
Import gitlab_api.

#[local] Set Warnings "-clear-no-such-hyp".

Ltac run_result := unfold mbind, result_bind, mret, result_ret.

Lemma py_in_strings n (l : list string) :
  py_in (JStr n) (JStr <$> l) = bool_decide (n ∈ l).
Proof.
  unfold py_in. induction l as [|x l IH]; [reflexivity|].
  change (existsb (py_eq (JStr n)) (JStr <$> x :: l))
    with (String.eqb n x || existsb (py_eq (JStr n)) (JStr <$> l)).
  rewrite IH.
  destruct (String.eqb_spec n x) as [->|Hne]; cbn [orb].
  - symmetry. apply bool_decide_eq_true. left.
  - apply bool_decide_ext. rewrite elem_of_cons. naive_solver.
Qed.

Lemma add_if_new_strings n (acc : list string) :
  add_if_new (JStr n) (JStr <$> acc)
  = JStr <$> (if bool_decide (n ∈ acc) then acc else acc ++ [n]).
Proof.
  unfold add_if_new. rewrite py_in_strings.
  destruct (bool_decide (n ∈ acc)); [reflexivity|]. now rewrite fmap_app.
Qed.

Lemma value_if_set_obj kv k :
  value_if_set (JObj kv) k
  = Ok match assoc k kv with
       | Some v => if truthy v then Some v else None
       | None => None
       end.
Proof.
  unfold value_if_set, contains, getitem. run_result.
  destruct (assoc k kv) as [v|]; [|reflexivity].
  rewrite bool_decide_eq_true_2 by eauto. reflexivity.
Qed.

Lemma add_assignees_spec names l acc :
  Forall2 person names l ->
  add_assignees l acc = Ok (acc ++ (JStr <$> names)).
Proof.
  intros H. revert acc. induction H as [|n x names l Hx _ IH]; intros acc.
  - cbn. now rewrite app_nil_r.
  - cbn [add_assignees]. unfold person in Hx. rewrite Hx. run_result.
    rewrite IH. cbn [fmap list_fmap]. now rewrite <- app_assoc.
Qed.

Lemma add_approved_spec names l acc :
  Forall2 (fun n approval =>
             exists user, get approval "user" (JObj []) = Ok user /\
                          person n user) names l ->
  add_approved l acc = Ok (acc ++ (JStr <$> names)).
Proof.
  intros H. revert acc. induction H as [|n x names l (user & Hu & Hx) _ IH]; intros acc.
  - cbn. now rewrite app_nil_r.
  - cbn [add_approved]. rewrite Hu. run_result.
    unfold person in Hx. rewrite Hx.
    rewrite IH. cbn [fmap list_fmap]. now rewrite <- app_assoc.
Qed.

(** What a step of lines 226-227 and 232-233 keeps. *)
Lemma add_if_new_keeps n (acc : list string) :
  let acc' := if bool_decide (n ∈ acc) then acc else acc ++ [n] in
  acc `prefix_of` acc' /\
  (forall x, x ∈ acc' <-> x ∈ acc \/ x = n) /\
  (NoDup acc -> NoDup acc').
Proof.
  cbn zeta. destruct (bool_decide_reflect (n ∈ acc)) as [Hin|Hnotin].
  - split; [reflexivity|]. split; [|auto]. intros x. naive_solver.
  - split; [now apply prefix_app_r|]. split.
    + intros x. rewrite elem_of_app, list_elem_of_singleton. tauto.
    + intros Hnd. apply NoDup_app. split; [exact Hnd|]. split.
      * intros x Hx ->%list_elem_of_singleton. contradiction.
      * apply NoDup_singleton.
Qed.

Lemma add_reviewer_names_spec names l acc :
  Forall2 person names l ->
  exists merged,
    add_reviewer_names l (JStr <$> acc) = Ok (JStr <$> merged) /\
    acc `prefix_of` merged /\
    (forall x, x ∈ merged <-> x ∈ acc \/ x ∈ names) /\
    (NoDup acc -> NoDup merged).
Proof.
  intros H. revert acc. induction H as [|n x names l Hx _ IH]; intros acc.
  - exists acc. split; [reflexivity|]. split; [reflexivity|].
    split; [|auto]. intros x. rewrite elem_of_nil. tauto.
  - cbn [add_reviewer_names]. unfold person in Hx. rewrite Hx. run_result.
    rewrite add_if_new_strings.
    destruct (add_if_new_keeps n acc) as (Hpre & Hmem & Hnd).
    destruct (IH (if bool_decide (n ∈ acc) then acc else acc ++ [n]))
      as (merged & Hrun & Hpre' & Hmem' & Hnd').
    exists merged. split; [exact Hrun|]. split; [now transitivity
      (if bool_decide (n ∈ acc) then acc else acc ++ [n])|].
    split; [|auto].
    intros y. rewrite Hmem', Hmem, elem_of_cons. tauto.
Qed.

(** Lines 218-233 on a merge request whose people are named. *)
Lemma assignees_of_spec kv a_names one r_names :
  people_under kv "assignees" a_names ->
  person_under kv "assignee" one ->
  people_under kv "reviewers" r_names ->
  exists assignees,
    assignees_of (JObj kv) = Ok (JStr <$> assignees) /\
    (forall n, n ∈ assignees <-> n ∈ a_names \/ one = Some n \/ n ∈ r_names) /\
    a_names `prefix_of` assignees /\
    (NoDup a_names -> NoDup assignees).
Proof.
  unfold people_under, person_under. intros Hmany Hone Hreviewers.
  unfold assignees_of. rewrite !value_if_set_obj.
  unfold mbind at 1, result_bind at 1.
  assert (H1 : match
                 match assoc "assignees" kv with
                 | Some v => if truthy v then Some v else None
                 | None => None
                 end
               with
               | Some v => l ← iter v; add_assignees l []
               | None => Ok []
               end = Ok (JStr <$> a_names)).
  { destruct (assoc "assignees" kv) as [v|]; [|now subst].
    destruct (truthy v); [|now subst].
    destruct Hmany as (l & -> & Hl). cbn [iter]. run_result.
    now rewrite (add_assignees_spec _ _ [] Hl). }
  rewrite H1. clear H1 Hmany.
  unfold mbind at 1, result_bind at 1. unfold mbind at 1, result_bind at 1.
  set (acc1 := match one with
               | Some n => if bool_decide (n ∈ a_names) then a_names
                           else a_names ++ [n]
               | None => a_names
               end).
  assert (H2 : match
                 match assoc "assignee" kv with
                 | Some v => if truthy v then Some v else None
                 | None => None
                 end
               with
               | Some v =>
                   assignee_name ← name_of v;
                   mret (add_if_new assignee_name (JStr <$> a_names))
               | None => Ok (JStr <$> a_names)
               end = Ok (JStr <$> acc1)).
  { unfold acc1. destruct (assoc "assignee" kv) as [v|]; [|now subst].
    destruct (truthy v); [|now subst].
    destruct Hone as (n & -> & Hn). unfold person in Hn. rewrite Hn.
    run_result. now rewrite add_if_new_strings. }
  rewrite H2. clear H2.
  unfold mbind at 1, result_bind at 1. unfold mbind at 1, result_bind at 1.
  assert (Hacc1 : a_names `prefix_of` acc1 /\
                  (forall x, x ∈ acc1 <-> x ∈ a_names \/ one = Some x) /\
                  (NoDup a_names -> NoDup acc1)).
  { unfold acc1. destruct one as [n|].
    - destruct (add_if_new_keeps n a_names) as (Hpre & Hmem & Hnd).
      split; [exact Hpre|]. split; [|exact Hnd].
      intros x. rewrite Hmem. naive_solver.
    - split; [reflexivity|]. split; [|auto]. intros x. naive_solver. }
  destruct Hacc1 as (Hpre1 & Hmem1 & Hnd1).
  assert (H3 : exists merged,
    match
      match assoc "reviewers" kv with
      | Some v => if truthy v then Some v else None
      | None => None
      end
    with
    | Some v => l ← iter v; add_reviewer_names l (JStr <$> acc1)
    | None => Ok (JStr <$> acc1)
    end = Ok (JStr <$> merged) /\
    acc1 `prefix_of` merged /\
    (forall x, x ∈ merged <-> x ∈ acc1 \/ x ∈ r_names) /\
    (NoDup acc1 -> NoDup merged)).
  { assert (Hnone : r_names = [] -> exists merged,
      Ok (JStr <$> acc1) = Ok (JStr <$> merged) /\
      acc1 `prefix_of` merged /\
      (forall x, x ∈ merged <-> x ∈ acc1 \/ x ∈ r_names) /\
      (NoDup acc1 -> NoDup merged)).
    { intros ->. exists acc1. split; [reflexivity|]. split; [reflexivity|].
      split; [|auto]. intros x. rewrite elem_of_nil. tauto. }
    destruct (assoc "reviewers" kv) as [v|]; [|now apply Hnone].
    destruct (truthy v); [|now apply Hnone].
    destruct Hreviewers as (l & -> & Hl). cbn [iter]. run_result.
    exact (add_reviewer_names_spec _ _ acc1 Hl). }
  destruct H3 as (merged & Hrun & Hpre & Hmem & Hnd).
  exists merged. split; [exact Hrun|]. split; [|split].
  - intros n. rewrite Hmem, Hmem1. tauto.
  - now transitivity acc1.
  - auto.
Qed.

Lemma approved_users_of_spec akv approved :
  approvals_under akv approved ->
  approved_users_of (JObj akv) = Ok (JStr <$> approved).
Proof.
  unfold approvals_under, approved_users_of. rewrite value_if_set_obj.
  unfold mbind at 1, result_bind at 1.
  destruct (assoc "approved_by" akv) as [v|]; [|now intros ->].
  destruct (truthy v); [|now intros ->].
  intros (l & -> & Hl). cbn [iter]. run_result.
  now rewrite (add_approved_spec _ _ [] Hl).
Qed.

Ltac run_api :=
  unfold mbind, api_bind, mret, api_ret, lift, requests_get; cbn [fst snd].

(** X25.  [get_mr_assignees_and_approvals] names everybody once: on a merge
    request whose people are named, the first list it returns holds the
    names under ['assignees'] first and in their order, then the single
    assignee and the reviewers not yet named; a name is in it exactly when
    it is one of those, and no name is in it twice unless ['assignees']
    itself repeats one.  The second list holds the names of those who
    approved.  Two requests are made, one for each. *)
Theorem assignees_are_named_once
  (net : network) (project_id mr_iid : Z) (log : list endpoint)
  (kv akv : list (string * json))
  (a_names r_names approved : list string) (one : option string) :
  net (MergeRequest project_id mr_iid false) 0%nat
  = Response 200 (Some (JObj kv)) ->
  people_under kv "assignees" a_names ->
  person_under kv "assignee" one ->
  people_under kv "reviewers" r_names ->
  net (Approvals project_id mr_iid) 0%nat = Response 200 (Some (JObj akv)) ->
  approvals_under akv approved ->
  exists assignees,
    get_mr_assignees_and_approvals net project_id mr_iid log
    = (log ++ [MergeRequest project_id mr_iid false;
               Approvals project_id mr_iid],
       Ok (JStr <$> assignees, JStr <$> approved)) /\
    (forall n, n ∈ assignees <-> n ∈ a_names \/ one = Some n \/ n ∈ r_names) /\
    a_names `prefix_of` assignees /\
    (NoDup a_names -> NoDup assignees).
Proof.
  intros Hmr Hmany Hone Hreviewers Happrovals Happroved.
  destruct (assignees_of_spec _ _ _ _ Hmany Hone Hreviewers)
    as (assignees & Hrun & Hmem & Hpre & Hnd).
  exists assignees. split; [|auto].
  unfold get_mr_assignees_and_approvals. run_api.
  rewrite Hmr. cbn [fst snd negb Z.eqb Pos.eqb response_json].
  rewrite Hrun, Happrovals. cbn [fst snd Z.eqb Pos.eqb response_json].
  rewrite (approved_users_of_spec _ _ Happroved).
  now rewrite <- app_assoc.
Qed.

(** X26.  What failed requests amount to.  When the merge request is not
    answered with status 200, [get_mr_assignees_and_approvals] returns two
    empty lists and does not ask for the approvals; when the request itself
    fails, the exception leaves the function.  When the merge request can
    be read and the approvals are not answered with status 200, nobody
    counts as having approved. *)
Theorem failed_requests_name_nobody
  (net : network) (project_id mr_iid : Z) (log : list endpoint) :
  (forall status_code body,
     net (MergeRequest project_id mr_iid false) 0%nat
     = Response status_code body ->
     status_code <> 200 ->
     get_mr_assignees_and_approvals net project_id mr_iid log
     = (log ++ [MergeRequest project_id mr_iid false], Ok ([], []))) /\
  (net (MergeRequest project_id mr_iid false) 0%nat = Timeout \/
   net (MergeRequest project_id mr_iid false) 0%nat = TransportError ->
   get_mr_assignees_and_approvals net project_id mr_iid log
   = (log ++ [MergeRequest project_id mr_iid false], Raise RequestException)) /\
  (forall mr_data assignees status_code body,
     net (MergeRequest project_id mr_iid false) 0%nat
     = Response 200 (Some mr_data) ->
     assignees_of mr_data = Ok assignees ->
     net (Approvals project_id mr_iid) 0%nat = Response status_code body ->
     status_code <> 200 ->
     get_mr_assignees_and_approvals net project_id mr_iid log
     = (log ++ [MergeRequest project_id mr_iid false;
                Approvals project_id mr_iid],
        Ok (assignees, []))).
Proof.
  unfold get_mr_assignees_and_approvals. split; [|split].
  - intros status_code body Hmr Hstatus. run_api. rewrite Hmr. cbn [fst].
    destruct (Z.eqb_spec status_code 200); [contradiction | reflexivity].
  - intros [Hmr|Hmr]; run_api; now rewrite Hmr.
  - intros mr_data assignees status_code body Hmr Hrun Happrovals Hstatus.
    run_api. rewrite Hmr. cbn [fst snd negb Z.eqb Pos.eqb response_json].
    rewrite Hrun, Happrovals. cbn [fst].
    destruct (Z.eqb_spec status_code 200); [contradiction|].
    now rewrite <- app_assoc.
Qed.

End assignees_and_approvals.

Section assignees_and_approvals_runs.
Import gitlab_api samples.

Lemma assignees_are_named_once_witness :
  exists assignees,
    get_mr_assignees_and_approvals upstream_42 7 42 []
    = ([] ++ [MergeRequest 7 42 false; Approvals 7 42],
       Ok (JStr <$> assignees, JStr <$> ["Bob"%string])) /\
    (forall n, n ∈ assignees <->
               n ∈ ["Ann"; "Bob"]%string \/ Some "Ann"%string = Some n \/
               n ∈ ["Bob"; "cy"]%string) /\
    ["Ann"; "Bob"]%string `prefix_of` assignees /\
    (NoDup ["Ann"; "Bob"]%string -> NoDup assignees).
Proof.
  apply (assignees_are_named_once upstream_42 7 42 [] people_of_42
           approvals_of_42 ["Ann"; "Bob"]%string ["Bob"; "cy"]%string
           ["Bob"%string] (Some "Ann"%string)).
  - reflexivity.
  - eexists. split; [reflexivity|]. repeat constructor.
  - eexists. split; reflexivity.
  - eexists. split; [reflexivity|]. repeat constructor.
  - reflexivity.
  - eexists. split; [reflexivity|]. repeat constructor.
    eexists. split; reflexivity.
Defined.

(** In that run Ann and Bob are named once each, and "cy" after them. *)
Example people_of_42_named :
  get_mr_assignees_and_approvals upstream_42 7 42 []
  = ([MergeRequest 7 42 false; Approvals 7 42],
     Ok ([JStr "Ann"; JStr "Bob"; JStr "cy"], [JStr "Bob"])).
Proof. vm_compute. reflexivity. Qed.

(** Without the approvals, Bob counts as pending. *)
Example approvals_unavailable :
  get_mr_assignees_and_approvals upstream_42_no_approvals 7 42 []
  = ([MergeRequest 7 42 false; Approvals 7 42],
     Ok ([JStr "Ann"; JStr "Bob"; JStr "cy"], [])).
Proof. vm_compute. reflexivity. Qed.

Lemma failed_requests_name_nobody_witness :
  get_mr_assignees_and_approvals upstream_down 7 42 []
  = ([] ++ [MergeRequest 7 42 false], Ok ([], [])).
Proof.
  apply (proj1 (failed_requests_name_nobody upstream_down 7 42 []) 500 None).
  - reflexivity.
  - discriminate.
Defined.

End assignees_and_approvals_runs.

(* ===================================================================== *)
(** ** The markers of the records of one batch *)
(* ===================================================================== *)

Section batch_markers.
Import mr_notifier mr_status_controller.

Lemma string_append_assoc (a b c : string) :
  ((a ++ b) ++ c)%string = (a ++ (b ++ c))%string.
Proof.
  induction a as [|x a IH]; [reflexivity|].
  change (String x a ++ b)%string with (String x (a ++ b)%string).
  change (String x (a ++ b) ++ c)%string
    with (String x ((a ++ b) ++ c)%string).
  change (String x a ++ (b ++ c))%string
    with (String x (a ++ (b ++ c))%string).
  now rewrite IH.
Qed.

Lemma list_ascii_of_string_append (a b : string) :
  list_ascii_of_string (a ++ b)%string
  = (list_ascii_of_string a ++ list_ascii_of_string b)%list.
Proof.
  induction a as [|x a IH]; [reflexivity|].
  change (String x a ++ b)%string with (String x (a ++ b)%string).
  cbn [list_ascii_of_string]. now rewrite IH.
Qed.

Lemma string_append_inv_tail (a b s : string) :
  (a ++ s)%string = (b ++ s)%string -> a = b.
Proof.
  intros H. apply (f_equal list_ascii_of_string) in H.
  rewrite !list_ascii_of_string_append in H. apply app_inv_tail in H.
  apply (f_equal string_of_list_ascii) in H.
  now rewrite !string_of_list_ascii_of_string in H.
Qed.

Lemma replace_unsafe_append (a b : string) :
  replace_unsafe (a ++ b) = (replace_unsafe a ++ replace_unsafe b)%string.
Proof.
  induction a as [|x a IH]; [reflexivity|].
  change (String x a ++ b)%string with (String x (a ++ b)%string).
  cbn [replace_unsafe].
  change (String (safe_char x) (replace_unsafe a) ++ replace_unsafe b)%string
    with (String (safe_char x) (replace_unsafe a ++ replace_unsafe b)%string).
  now rewrite IH.
Qed.

Lemma pretty_N_char_safe (x : N) :
  safe_char (pretty_N_char x) = pretty_N_char x.
Proof. unfold pretty_N_char. repeat case_match; reflexivity. Qed.

Lemma pretty_N_go_safe (x : N) : forall s,
  replace_unsafe (pretty_N_go x s) = pretty_N_go x (replace_unsafe s).
Proof.
  induction (N.lt_wf_0 x) as [x _ IH]. intros s.
  destruct (N.eq_dec x 0%N) as [->|Hnz]; [now rewrite !pretty_N_go_0|].
  rewrite (pretty_N_go_step x s), (pretty_N_go_step x (replace_unsafe s))
    by lia.
  rewrite IH by (apply N.div_lt; lia).
  cbn [replace_unsafe]. now rewrite pretty_N_char_safe.
Qed.

(** The decimal text of a number has nothing to replace. *)
Lemma pretty_Z_safe (z : Z) : replace_unsafe (pretty z) = pretty z.
Proof.
  destruct z as [|p|p]; [reflexivity|..].
  - change (pretty (Z.pos p)) with (pretty_N_go (N.pos p) "").
    now rewrite pretty_N_go_safe.
  - change (pretty (Z.neg p)) with (String "-" (pretty_N_go (N.pos p) "")).
    cbn [replace_unsafe]. now rewrite pretty_N_go_safe.
Qed.

(** Two merge requests of one repository share a marker file only when
    they have the same number. *)
Lemma marker_files_of_a_repository (repo : option string) (i1 i2 : Z) :
  _get_notification_date_file (mr_key_of repo i1)
  = _get_notification_date_file (mr_key_of repo i2) ->
  i1 = i2.
Proof.
  unfold _get_notification_date_file, mr_key_of. intros H.
  apply (inj (String.append "notified_")) in H.
  apply string_append_inv_tail in H.
  rewrite !replace_unsafe_append in H.
  apply (inj (String.append _)) in H.
  apply (inj (String.append _)) in H.
  rewrite !pretty_Z_safe in H. now apply (inj pretty).
Qed.

(** X27.  The records of one repository do not silence each other: the
    evaluation of the record of one merge request leaves the answer of
    [_should_notify] for every other merge request of the repository as it
    was. *)
Theorem records_of_a_repository_keep_their_own_markers
  (e e' : env) (project_id : Z) (r1 r2 : status_record) (w : world) :
  sr_repo_name r1 = sr_repo_name r2 ->
  mr_iid (sr_mr r1) <> mr_iid (sr_mr r2) ->
  _should_notify e' (key_of_record (notification_data project_id r2))
    (fst (process_mr_for_notification e (notification_data project_id r1) w))
  = _should_notify e' (key_of_record (notification_data project_id r2)) w.
Proof.
  intros Hrepo Hiid.
  destruct (process_mr_for_notification e (notification_data project_id r1) w)
    as [w' sent] eqn:Hrun.
  cbn [fst]. unfold _should_notify.
  rewrite (process_keeps_other_files _ _ _ _ _ _ Hrun); [reflexivity|].
  cbn [key_of_record notification_data mr iid repo_name]. rewrite Hrepo.
  intros Hsame. apply marker_files_of_a_repository in Hsame. congruence.
Qed.

End batch_markers.

Section batch_markers_runs.
Import mr_notifier mr_status_controller samples.

Lemma records_of_a_repository_keep_their_own_markers_witness :
  _should_notify (surroundings true true)
    (key_of_record (notification_data 7 (status_of "web" 3 "Fix logout")))
    (fst (process_mr_for_notification (surroundings true true)
            (notification_data 7 (status_of "web" 12 "Add login"))
            empty_world))
  = _should_notify (surroundings true true)
      (key_of_record (notification_data 7 (status_of "web" 3 "Fix logout")))
      empty_world.
Proof.
  apply (records_of_a_repository_keep_their_own_markers
           (surroundings true true) (surroundings true true) 7
           (status_of "web" 12 "Add login") (status_of "web" 3 "Fix logout")
           empty_world).
  - reflexivity.
  - discriminate.
Defined.

(** Across repositories the file names can collide: the keys of merge
    request 1 of "a/b" and of "a_b" share their marker. *)
Example marker_files_can_collide :
  _get_notification_date_file (mr_key_of (Some "a/b") 1)
  = _get_notification_date_file (mr_key_of (Some "a_b") 1).
Proof. reflexivity. Qed.

End batch_markers_runs.
